(** * The AI-orchestration layer of the STEM solver, embedded in Rocq

    The development follows the TypeScript sources:
    - [services/geminiService]: [fileToGenerativePart], [solveProblem],
      [generateExplanationVideo], [performSearch], [translateText];
    - [App.tsx]: [handleSelectKey], [handleGenerateVideo], [addToHistory];
    - [components/SolutionViewer.tsx] and [components/SearchResults]:
      the two [handleLanguageChange] handlers and what they display.

    JavaScript strings are sequences of UTF-16 code units, here [list N].
    Asynchronous code is written in a small state-and-exception monad whose
    state holds the React state of the component together with the outside
    world (environment variable, counters of the remote calls made, and the
    trace of the effects performed).  The remote service and the host are a
    [Script]: the k-th call of each endpoint receives the k-th scripted reply,
    so that quantifying over scripts covers every behaviour of the service.
    [console.log]/[console.error]/[console.warn] calls have no bearing on the
    results and are left out. *)

From Stdlib Require Import NArith ZArith String Ascii List Lia.
From stdpp Require Import base option list gmap.
Import ListNotations.

#[local] Set Warnings "-register-all".
Local Open Scope N_scope.

(** ** JavaScript strings and the built-ins the sources use *)

Module Js.

Abbreviation jsstring := (list N).

(** An ASCII literal as a sequence of code units. *)
Definition js (s : string) : jsstring :=
  map N_of_ascii (list_ascii_of_string s).

(** [!!s] for a value that is a string or [undefined]. *)
Definition truthy (s : option jsstring) : bool :=
  match s with
  | Some (_ :: _) => true
  | _ => false
  end.

(** [a || b] where [a] is a string or [undefined] and [b] a string. *)
Definition or_else (a : option jsstring) (b : jsstring) : jsstring :=
  match a with
  | Some (c :: s) => c :: s
  | _ => b
  end.

(** [a || b] where both may be [undefined]. *)
Definition or_undefined (a b : option jsstring) : option jsstring :=
  if truthy a then a else b.

Fixpoint startsWith (s needle : jsstring) : bool :=
  match needle, s with
  | [], _ => true
  | _ :: _, [] => false
  | n :: needle', c :: s' => if N.eqb n c then startsWith s' needle' else false
  end.

(** [s.includes(needle)] *)
Fixpoint includes (s needle : jsstring) : bool :=
  if startsWith s needle then true
  else match s with
       | [] => false
       | _ :: s' => includes s' needle
       end.

(** White space and line terminators of ECMAScript, as stripped by
    [String.prototype.trim]. *)
Definition isWhiteSpace (c : N) : bool :=
  existsb (N.eqb c)
    [9; 10; 11; 12; 13; 32; 160; 5760; 8232; 8233; 8239; 8287; 12288; 65279]
  || ((8192 <=? c) && (c <=? 8202)).

Fixpoint trimStart (s : jsstring) : jsstring :=
  match s with
  | c :: s' => if isWhiteSpace c then trimStart s' else s
  | [] => []
  end.

Definition trimEnd (s : jsstring) : jsstring := rev (trimStart (rev s)).

Definition trim (s : jsstring) : jsstring := trimEnd (trimStart s).

(** A JavaScript [Map] keeps its keys in insertion order; [set] on a key
    that is present replaces the value and leaves the key where it is. *)
Fixpoint Map_set {V} (k : jsstring) (v : V) (m : list (jsstring * V))
  : list (jsstring * V) :=
  match m with
  | [] => [(k, v)]
  | (k', v') :: m' =>
      if decide (k' = k) then (k', v) :: m' else (k', v') :: Map_set k v m'
  end.

(** [new Map(entries)] *)
Definition Map_new {V} (entries : list (jsstring * V)) : list (jsstring * V) :=
  fold_left (fun m e => Map_set (fst e) (snd e) m) entries [].

(** [Array.from(m.values())] *)
Definition Map_values {V} (m : list (jsstring * V)) : list V := map snd m.

(** Optional chaining [o?.f] on a value that may be [undefined]. *)
Definition chain {A B} (o : option A) (f : A -> option B) : option B :=
  match o with
  | Some a => f a
  | None => None
  end.

(** [a[0]] *)
Definition first {A} (a : list A) : option A :=
  match a with
  | x :: _ => Some x
  | [] => None
  end.

(** [a.slice(0, n)] *)
Definition slice0 {A} (n : nat) (a : list A) : list A := take n a.

(** The text before the first comma, and what follows that comma if there
    is one. *)
Fixpoint untilComma (s : jsstring) : jsstring * option jsstring :=
  match s with
  | [] => ([], None)
  | c :: r =>
      if c =? 44 then ([], Some r)
      else let '(p, q) := untilComma r in (c :: p, q)
  end.

(** [s.split(',')[1]] *)
Definition split_comma_1 (s : jsstring) : option jsstring :=
  match snd (untilComma s) with
  | None => None
  | Some r => Some (fst (untilComma r))
  end.

End Js.

Import Js.
Infix "?>" := chain (at level 50, left associativity).

(** ** JSON values, [JSON.parse] and [JSON.stringify] *)

Module Json.

(** Numbers keep the text of their token; their value plays no part here. *)
Inductive JSON :=
| JNull
| JBool (b : bool)
| JNumber (raw : jsstring)
| JString (s : jsstring)
| JArray (items : list JSON)
| JObject (members : list (jsstring * JSON)).

(** [v[name]] for an object parsed from JSON: of two members with the same
    key the later one wins; [None] is [undefined]. *)
Definition get_prop (v : JSON) (name : jsstring) : option JSON :=
  match v with
  | JObject members =>
      snd <$> last (filter (fun kv => bool_decide (fst kv = name)) members)
  | _ => None
  end.

Definition isJsonSpace (c : N) : bool :=
  existsb (N.eqb c) [32; 9; 10; 13].

Fixpoint skipSpace (s : jsstring) : jsstring :=
  match s with
  | c :: s' => if isJsonSpace c then skipSpace s' else s
  | [] => []
  end.

Definition isDigit (c : N) : bool := (48 <=? c) && (c <=? 57).

Definition hexValue (c : N) : option N :=
  if isDigit c then Some (c - 48)
  else if (97 <=? c) && (c <=? 102) then Some (c - 87)
  else if (65 <=? c) && (c <=? 70) then Some (c - 55)
  else None.

Definition hex4 (a b c d : N) : option N :=
  match hexValue a, hexValue b, hexValue c, hexValue d with
  | Some x, Some y, Some z, Some w => Some (((x * 16 + y) * 16 + z) * 16 + w)
  | _, _, _, _ => None
  end.

(** The characters of a string token after its opening quote, up to the
    closing quote; [acc] holds what was read, last first. *)
Fixpoint parseStringBody (s acc : jsstring) : option (jsstring * jsstring) :=
  match s with
  | [] => None
  | c :: r =>
      if c =? 34 then Some (rev acc, r)
      else if c =? 92 then
        match r with
        | [] => None
        | e :: r1 =>
            if e =? 34 then parseStringBody r1 (34 :: acc)
            else if e =? 92 then parseStringBody r1 (92 :: acc)
            else if e =? 47 then parseStringBody r1 (47 :: acc)
            else if e =? 98 then parseStringBody r1 (8 :: acc)
            else if e =? 102 then parseStringBody r1 (12 :: acc)
            else if e =? 110 then parseStringBody r1 (10 :: acc)
            else if e =? 114 then parseStringBody r1 (13 :: acc)
            else if e =? 116 then parseStringBody r1 (9 :: acc)
            else if e =? 117 then
              match r1 with
              | h1 :: h2 :: h3 :: h4 :: r2 =>
                  match hex4 h1 h2 h3 h4 with
                  | Some u => parseStringBody r2 (u :: acc)
                  | None => None
                  end
              | _ => None
              end
            else None
        end
      else if c <? 32 then None
      else parseStringBody r (c :: acc)
  end.

Fixpoint spanDigits (s : jsstring) : jsstring * jsstring :=
  match s with
  | c :: r =>
      if isDigit c then let '(ds, r') := spanDigits r in (c :: ds, r')
      else ([], s)
  | [] => ([], [])
  end.

(** A number token: an optional minus sign, an integer part without
    leading zeros, an optional fraction and an optional exponent. *)
Definition parseNumber (s : jsstring) : option (jsstring * jsstring) :=
  let '(sign, s1) :=
    match s with
    | c :: r => if c =? 45 then ([45], r) else ([], s)
    | [] => ([], s)
    end in
  let int_part :=
    match s1 with
    | c :: r =>
        if c =? 48 then Some ([48], r)
        else if isDigit c then Some (spanDigits s1)
        else None
    | [] => None
    end in
  match int_part with
  | None => None
  | Some (ds, s2) =>
      let frac_part :=
        match s2 with
        | c :: r =>
            if c =? 46 then
              match spanDigits r with
              | ([], _) => None
              | (fs, r') => Some (46 :: fs, r')
              end
            else Some ([], s2)
        | [] => Some ([], s2)
        end in
      match frac_part with
      | None => None
      | Some (fs, s3) =>
          let exp_part :=
            match s3 with
            | c :: r =>
                if (c =? 101) || (c =? 69) then
                  let '(sg, r1) :=
                    match r with
                    | d :: r0 =>
                        if (d =? 43) || (d =? 45) then ([d], r0) else ([], r)
                    | [] => ([], r)
                    end in
                  match spanDigits r1 with
                  | ([], _) => None
                  | (es, r') => Some (c :: sg ++ es, r')
                  end
                else Some ([], s3)
            | [] => Some ([], s3)
            end in
          match exp_part with
          | None => None
          | Some (es, s4) => Some (sign ++ ds ++ fs ++ es, s4)
          end
      end
  end.

Definition literal (word : string) (v : JSON) (s : jsstring)
  : option (JSON * jsstring) :=
  if startsWith s (js word) then Some (v, drop (length (js word)) s) else None.

(** One JSON value at the head of [s], and what follows it.  Every nested
    call consumes fuel; [JSON_parse] supplies more than the text is long. *)
Fixpoint parseValue (fuel : nat) (s : jsstring) : option (JSON * jsstring) :=
  match fuel with
  | O => None
  | S fuel' =>
      match skipSpace s with
      | [] => None
      | c :: r =>
          if c =? 123 then
            match skipSpace r with
            | d :: r' =>
                if d =? 125 then Some (JObject [], r')
                else parseMembers fuel' r []
            | [] => None
            end
          else if c =? 91 then
            match skipSpace r with
            | d :: r' =>
                if d =? 93 then Some (JArray [], r')
                else parseElements fuel' r []
            | [] => None
            end
          else if c =? 34 then
            match parseStringBody r [] with
            | Some (str, r') => Some (JString str, r')
            | None => None
            end
          else if c =? 116 then literal "true" (JBool true) (c :: r)
          else if c =? 102 then literal "false" (JBool false) (c :: r)
          else if c =? 110 then literal "null" JNull (c :: r)
          else
            match parseNumber (c :: r) with
            | Some (raw, r') => Some (JNumber raw, r')
            | None => None
            end
      end
  end
with parseElements (fuel : nat) (s : jsstring) (acc : list JSON)
  : option (JSON * jsstring) :=
  match fuel with
  | O => None
  | S fuel' =>
      match parseValue fuel' s with
      | None => None
      | Some (v, r) =>
          match skipSpace r with
          | c :: r' =>
              if c =? 44 then parseElements fuel' r' (v :: acc)
              else if c =? 93 then Some (JArray (rev (v :: acc)), r')
              else None
          | [] => None
          end
      end
  end
with parseMembers (fuel : nat) (s : jsstring) (acc : list (jsstring * JSON))
  : option (JSON * jsstring) :=
  match fuel with
  | O => None
  | S fuel' =>
      match skipSpace s with
      | q :: r =>
          if q =? 34 then
            match parseStringBody r [] with
            | None => None
            | Some (k, r1) =>
                match skipSpace r1 with
                | c :: r2 =>
                    if c =? 58 then
                      match parseValue fuel' r2 with
                      | None => None
                      | Some (v, r3) =>
                          match skipSpace r3 with
                          | d :: r4 =>
                              if d =? 44 then
                                parseMembers fuel' r4 ((k, v) :: acc)
                              else if d =? 125 then
                                Some (JObject (rev ((k, v) :: acc)), r4)
                              else None
                          | [] => None
                          end
                      end
                    else None
                | [] => None
                end
            end
          else None
      | [] => None
      end
  end.

(** [JSON.parse(text)]; [None] stands for the [SyntaxError] it throws. *)
Definition JSON_parse (text : jsstring) : option JSON :=
  match parseValue (S (length text)) text with
  | Some (v, r) =>
      match skipSpace r with
      | [] => Some v
      | _ :: _ => None
      end
  | None => None
  end.

Definition hexDigit (n : N) : N := if n <? 10 then 48 + n else 87 + n.

(** The escape [\uXXXX] of a code unit. *)
Definition escapeUnit (c : N) : jsstring :=
  [92; 117; hexDigit (c / 4096 mod 16); hexDigit (c / 256 mod 16);
   hexDigit (c / 16 mod 16); hexDigit (c mod 16)].

Definition isHighSurrogate (c : N) : bool := (55296 <=? c) && (c <=? 56319).
Definition isLowSurrogate (c : N) : bool := (56320 <=? c) && (c <=? 57343).

Definition quoteUnit (c : N) : jsstring :=
  if c =? 34 then [92; 34]
  else if c =? 92 then [92; 92]
  else if c =? 8 then [92; 98]
  else if c =? 12 then [92; 102]
  else if c =? 10 then [92; 110]
  else if c =? 13 then [92; 114]
  else if c =? 9 then [92; 116]
  else if c <? 32 then escapeUnit c
  else if isHighSurrogate c || isLowSurrogate c then escapeUnit c
  else [c].

(** The body of a quoted string; a well-formed surrogate pair is copied,
    a lone surrogate is escaped. *)
Fixpoint quoteBody (s : jsstring) : jsstring :=
  match s with
  | [] => []
  | c :: r =>
      match r with
      | d :: r' =>
          if isHighSurrogate c && isLowSurrogate d
          then c :: d :: quoteBody r'
          else quoteUnit c ++ quoteBody r
      | [] => quoteUnit c
      end
  end.

Definition quote (s : jsstring) : jsstring := [34] ++ quoteBody s ++ [34].

Fixpoint joinComma (parts : list jsstring) : jsstring :=
  match parts with
  | [] => []
  | [p] => p
  | p :: rest => p ++ [44] ++ joinComma rest
  end.

(** [JSON.stringify(v)] *)
Fixpoint JSON_stringify (v : JSON) : jsstring :=
  match v with
  | JNull => js "null"
  | JBool true => js "true"
  | JBool false => js "false"
  | JNumber raw => raw
  | JString s => quote s
  | JArray items => [91] ++ joinComma (map JSON_stringify items) ++ [93]
  | JObject members =>
      [123]
      ++ joinComma
           (map (fun kv => quote (fst kv) ++ [58] ++ JSON_stringify (snd kv))
              members)
      ++ [125]
  end.

End Json.

Import Json.

(** ** The SDK boundary: values exchanged with the service, effects, monad *)

Module Sdk.

(** A thrown value [e], through what the handlers read from it. *)
Record JsError := {
  message : option jsstring;        (* e.message *)
  error_message : option jsstring;  (* e.error?.message *)
  json : jsstring                   (* JSON.stringify(e) *)
}.

(** [new Error(msg)]: [message] is not enumerable, so it stringifies to
    an empty object. *)
Definition Error (msg : jsstring) : JsError :=
  {| message := Some msg; error_message := None; json := js "{}" |}.

(** What [JSON.parse] throws: a [SyntaxError], an [Error] whose message is
    worded by the engine. *)
Definition JSON_SyntaxError (engineMessage : jsstring) : JsError :=
  Error engineMessage.

(** The event a [FileReader] passes to [onerror]. *)
Definition FileReadError : JsError :=
  {| message := None; error_message := None;
     json := JSON_stringify (JObject [(js "isTrusted", JBool true)]) |}.

(** *** Responses of [generateContent] *)

Record Web := { web_uri : option jsstring; web_title : option jsstring }.
Record GroundingChunk := { web : option Web }.
Record GroundingMetadata := { groundingChunks : option (list GroundingChunk) }.
Record Candidate := { groundingMetadata : option GroundingMetadata }.
Record GenerateContentResponse := {
  text : option jsstring;
  candidates : option (list Candidate)
}.

(** *** Video operations *)

Record Video := { video_uri : option jsstring }.
Record GeneratedVideo := { video : option Video }.
Record GenerateVideosResponse := {
  generatedVideos : option (list GeneratedVideo)
}.
Record Operation := {
  done : option bool;
  response : option GenerateVideosResponse
}.

(** *** Requests *)

Inductive Schema :=
| SchemaString (enum : option (list jsstring))
| SchemaObject (properties : list (jsstring * Schema))
    (required : list jsstring).

Record InlineData := { data : option jsstring; mimeType : jsstring }.

(** The [contents] of a request.  Each prompt is a fixed template of the
    source around the values kept here. *)
Inductive Contents :=
| SolveContents (imagePart : InlineData)
| SearchContents (query : jsstring)
| VerifyContents (query searchText : jsstring)
| TranslateContents (sourceText targetLanguage : jsstring).

Record Config := {
  responseMimeType : option jsstring;
  responseSchema : option Schema;
  thinkingBudget : option Z;
  googleSearch : bool
}.

Record GenerateContentParameters := {
  model : jsstring;
  contents : Contents;
  config : option Config
}.

Record GenerateVideosParameters := {
  video_model : jsstring;
  prompt : jsstring;
  numberOfVideos : Z;
  resolution : jsstring;
  aspectRatio : jsstring
}.

Record File := {
  file_type : jsstring;
  (* what [readAsDataURL] produces; [None] when the read fails *)
  file_dataURL : option jsstring
}.

(** *** Effects *)

Inductive Event :=
| EvReadAsDataURL (file : File)
| EvGenerateContent (apiKey : jsstring) (params : GenerateContentParameters)
| EvGenerateVideos (apiKey : jsstring) (params : GenerateVideosParameters)
| EvGetVideosOperation (apiKey : jsstring) (operation : Operation)
| EvSetTimeout (ms : Z)
| EvOpenSelectKey.

Record World := {
  API_KEY : option jsstring;               (* process.env.API_KEY *)
  localStorage : gmap jsstring jsstring;
  contentCalls : nat;
  videoCalls : nat;
  statusCalls : nat;
  selectCalls : nat;
  trace : list Event
}.

(** The inference service, the job endpoint, the host's credential
    capability and the JavaScript engine are collaborators outside the
    repository.  The k-th call of an endpoint is answered by the k-th reply;
    [openSelectKey] resolves to nothing and may leave another key in the
    environment; the engine words the message of the [SyntaxError] that
    [JSON.parse] throws from the text it was given. *)
Record Script := {
  generateContent_reply : nat -> JsError + GenerateContentResponse;
  generateVideos_reply : nat -> JsError + Operation;
  getVideosOperation_reply : nat -> JsError + Operation;
  (* window.aistudio && window.aistudio.openSelectKey *)
  openSelectKey_available : bool;
  openSelectKey_key : nat -> option jsstring;
  (* the message of the SyntaxError of JSON.parse(text) *)
  syntaxError_message : jsstring -> jsstring
}.

Definition record (ev : Event) (w : World) : World :=
  {| API_KEY := API_KEY w; localStorage := localStorage w;
     contentCalls := contentCalls w; videoCalls := videoCalls w;
     statusCalls := statusCalls w; selectCalls := selectCalls w;
     trace := trace w ++ [ev] |}.

Definition countContent (w : World) : World :=
  {| API_KEY := API_KEY w; localStorage := localStorage w;
     contentCalls := S (contentCalls w); videoCalls := videoCalls w;
     statusCalls := statusCalls w; selectCalls := selectCalls w;
     trace := trace w |}.

Definition countVideo (w : World) : World :=
  {| API_KEY := API_KEY w; localStorage := localStorage w;
     contentCalls := contentCalls w; videoCalls := S (videoCalls w);
     statusCalls := statusCalls w; selectCalls := selectCalls w;
     trace := trace w |}.

Definition countStatus (w : World) : World :=
  {| API_KEY := API_KEY w; localStorage := localStorage w;
     contentCalls := contentCalls w; videoCalls := videoCalls w;
     statusCalls := S (statusCalls w); selectCalls := selectCalls w;
     trace := trace w |}.

Definition selectKey (key : option jsstring) (w : World) : World :=
  {| API_KEY := key; localStorage := localStorage w;
     contentCalls := contentCalls w; videoCalls := videoCalls w;
     statusCalls := statusCalls w; selectCalls := S (selectCalls w);
     trace := trace w |}.

Definition setItem (key value : jsstring) (w : World) : World :=
  {| API_KEY := API_KEY w; localStorage := <[key := value]> (localStorage w);
     contentCalls := contentCalls w; videoCalls := videoCalls w;
     statusCalls := statusCalls w; selectCalls := selectCalls w;
     trace := trace w |}.

(** *** The monad of asynchronous code *)

(** A promise settles with a value or a thrown one; [Pending] is a promise
    that has not settled within the number of polls it was allowed. *)
Inductive Outcome (A : Type) :=
| Return (a : A)
| Throw (e : JsError)
| Pending.
Arguments Return {A} a.
Arguments Throw {A} e.
Arguments Pending {A}.

Definition M (St A : Type) : Type :=
  Script -> St * World -> Outcome A * (St * World).

Definition ret {St A} (a : A) : M St A := fun _ σ => (Return a, σ).

Definition bind {St A B} (m : M St A) (k : A -> M St B) : M St B :=
  fun sc σ =>
    match m sc σ with
    | (Return a, σ') => k a sc σ'
    | (Throw e, σ') => (Throw e, σ')
    | (Pending, σ') => (Pending, σ')
    end.

Definition throw {St A} (e : JsError) : M St A := fun _ σ => (Throw e, σ).

Definition pending {St A} : M St A := fun _ σ => (Pending, σ).

(** [try { m } catch (e) { handler e }] *)
Definition try_catch {St A} (m : M St A) (handler : JsError -> M St A)
  : M St A :=
  fun sc σ =>
    match m sc σ with
    | (Throw e, σ') => handler e sc σ'
    | r => r
    end.

(** [try { m } finally { fin }] where [fin] does not throw. *)
Definition try_finally {St A} (m : M St A) (fin : M St unit) : M St A :=
  fun sc σ =>
    match m sc σ with
    | (Pending, σ') => (Pending, σ')
    | (r, σ') => (r, snd (fin sc σ'))
    end.

Declare Scope async_scope.
Delimit Scope async_scope with async.
Notation "x <- m ;; k" := (bind m (fun x => k))
  (at level 20, m at level 99, k at level 200, only parsing) : async_scope.
Notation "m ;; k" := (bind m (fun _ => k))
  (at level 100, k at level 200, only parsing, right associativity)
  : async_scope.
Local Open Scope async_scope.

(** The state the closure of the current render sees. *)
Definition getState {St} : M St St := fun _ σ => (Return (fst σ), σ).

(** A React state setter. *)
Definition setState {St} (f : St -> St) : M St unit :=
  fun _ σ => (Return tt, (f (fst σ), snd σ)).

Definition onWorld {St} (f : World -> World) : M St unit :=
  fun _ σ => (Return tt, (fst σ, f (snd σ))).

Definition settle {St A} (r : JsError + A) : M St A :=
  match r with
  | inl e => throw e
  | inr a => ret a
  end.

(** [process.env.API_KEY] *)
Definition env_API_KEY {St} : M St (option jsstring) :=
  fun _ σ => (Return (API_KEY (snd σ)), σ).

(** [await ai.models.generateContent(params)] on a client made with
    [apiKey]. *)
Definition generateContent {St} (apiKey : jsstring)
    (params : GenerateContentParameters) : M St GenerateContentResponse :=
  fun sc σ =>
    let k := contentCalls (snd σ) in
    (onWorld (fun w => countContent (record (EvGenerateContent apiKey params) w)) ;;
     settle (generateContent_reply sc k)) sc σ.

(** [await ai.models.generateVideos(params)] *)
Definition generateVideos {St} (apiKey : jsstring)
    (params : GenerateVideosParameters) : M St Operation :=
  fun sc σ =>
    let k := videoCalls (snd σ) in
    (onWorld (fun w => countVideo (record (EvGenerateVideos apiKey params) w)) ;;
     settle (generateVideos_reply sc k)) sc σ.

(** [await ai.operations.getVideosOperation({ operation })] *)
Definition getVideosOperation {St} (apiKey : jsstring) (operation : Operation)
  : M St Operation :=
  fun sc σ =>
    let k := statusCalls (snd σ) in
    (onWorld (fun w =>
                countStatus (record (EvGetVideosOperation apiKey operation) w)) ;;
     settle (getVideosOperation_reply sc k)) sc σ.

(** [await new Promise(resolve => setTimeout(resolve, ms))] *)
Definition setTimeout {St} (ms : Z) : M St unit :=
  onWorld (record (EvSetTimeout ms)).

(** [await window.aistudio.openSelectKey()] *)
Definition openSelectKey {St} : M St unit :=
  fun sc σ =>
    let k := selectCalls (snd σ) in
    onWorld (fun w => selectKey (openSelectKey_key sc k) (record EvOpenSelectKey w))
      sc σ.

(** [reader.readAsDataURL(file)], settled by [onloadend] or [onerror]. *)
Definition readAsDataURL {St} (file : File) : M St jsstring :=
  onWorld (record (EvReadAsDataURL file)) ;;
  match file_dataURL file with
  | Some url => ret url
  | None => throw FileReadError
  end.

(** [localStorage.setItem(key, value)] *)
Definition localStorage_setItem {St} (key value : jsstring) : M St unit :=
  onWorld (setItem key value).

(** [JSON.parse(text)] on a text that is not JSON: it throws a
    [SyntaxError] with the message of the engine for that text. *)
Definition JSON_parse_throws {St A} (text : jsstring) : M St A :=
  fun sc => throw (JSON_SyntaxError (syntaxError_message sc text)) sc.

End Sdk.

Import Sdk.
Local Open Scope async_scope.

(** ** Shared types *)

Module Types.

(** The interfaces of [types.ts].  The union type of [confidence] is erased
    at run time: the field holds a string.  The translation cache is an
    object used as a map from string keys to text. *)
Record SolutionData := {
  solutionMarkdown : jsstring;
  visualPrompt : jsstring;
  confidence : jsstring
}.

Record Source := { uri : jsstring; title : jsstring }.

Record SearchResult := {
  sr_text : jsstring;
  sr_webSources : list Source;
  sr_verification : option jsstring
}.

Abbreviation TranslationCache := (gmap jsstring jsstring).

End Types.

Import Types.

(** ** services/geminiService *)

Module GeminiService.

(** [fileToGenerativePart]: the data URL without its prefix. *)
Definition fileToGenerativePart {St} (file : File) : M St InlineData :=
  base64String <- readAsDataURL file ;;
  ret {| data := split_comma_1 base64String; mimeType := file_type file |}.

(** The [responseSchema] of the solve request. *)
Definition solveSchema : Schema :=
  SchemaObject
    [(js "solutionMarkdown", SchemaString None);
     (js "visualPrompt", SchemaString None);
     (js "confidence", SchemaString (Some [js "High"; js "Medium"; js "Low"]))]
    [js "solutionMarkdown"; js "visualPrompt"; js "confidence"].

Definition solveParameters (imagePart : InlineData)
  : GenerateContentParameters :=
  {| model := js "gemini-3-pro-preview";
     contents := SolveContents imagePart;
     config := Some {| responseMimeType := Some (js "application/json");
                       responseSchema := Some solveSchema;
                       thinkingBudget := Some 4096%Z;
                       googleSearch := false |} |}.

(** [solveProblem]: the value of [JSON.parse(text)] is returned as it is;
    [as SolutionData] is erased at run time. *)
Definition solveProblem {St} (imageFile : File) : M St JSON :=
  key <- env_API_KEY ;;
  let apiKey := or_else key [] in
  if bool_decide (apiKey = []) then throw (Error (js "API Key not found"))
  else
    imagePart <- fileToGenerativePart imageFile ;;
    try_catch
      (response <- generateContent apiKey (solveParameters imagePart) ;;
       match text response with
       | Some (c :: t) =>
           match JSON_parse (c :: t) with
           | Some v => ret v
           | None => JSON_parse_throws (c :: t)
           end
       | _ => throw (Error (js "No response from AI"))
       end)
      (fun error => throw error).

Definition videoParameters (visualPrompt : jsstring)
  : GenerateVideosParameters :=
  {| video_model := js "veo-3.1-fast-generate-preview";
     prompt := visualPrompt;
     numberOfVideos := 1%Z;
     resolution := js "720p";
     aspectRatio := js "16:9" |}.

(** [operation.done], a boolean or [undefined], as a condition. *)
Definition isDone (operation : Operation) : bool :=
  match done operation with
  | Some true => true
  | _ => false
  end.

(** The loop [while (!operation.done) { wait 10 s; refresh the operation }].
    [fuel] bounds how many times the condition is evaluated; when it runs
    out the promise is still pending. *)
Fixpoint whileNotDone {St} (fuel : nat) (apiKey : jsstring)
    (operation : Operation) : M St Operation :=
  match fuel with
  | O => pending
  | S fuel' =>
      if isDone operation then ret operation
      else
        setTimeout 10000%Z ;;
        operation' <- getVideosOperation apiKey operation ;;
        whileNotDone fuel' apiKey operation'
  end.

(** [operation.response?.generatedVideos?.[0]?.video?.uri] *)
Definition firstVideoUri (operation : Operation) : option jsstring :=
  response operation ?> generatedVideos ?> first ?> video ?> video_uri.

(** [generateExplanationVideo] *)
Definition generateExplanationVideo {St} (fuel : nat) (visualPrompt : jsstring)
  : M St jsstring :=
  key <- env_API_KEY ;;
  let apiKey := or_else key [] in
  try_catch
    (operation <- generateVideos apiKey (videoParameters visualPrompt) ;;
     operation <- whileNotDone fuel apiKey operation ;;
     match firstVideoUri operation with
     | Some (c :: u) => ret ((c :: u) ++ js "&key=" ++ apiKey)
     | _ => throw (Error (js "Video generation failed or returned no URI"))
     end)
    (fun error => throw error).

(** [chunk.web?.uri && chunk.web?.title] *)
Definition hasUriAndTitle (chunk : GroundingChunk) : bool :=
  truthy (web chunk ?> web_uri) && truthy (web chunk ?> web_title).

Definition toSource (chunk : GroundingChunk) : Source :=
  {| uri := default [] (web chunk ?> web_uri);
     title := default [] (web chunk ?> web_title) |}.

(** [chunks.filter(...).map(...)] *)
Definition webSources (chunks : list GroundingChunk) : list Source :=
  map toSource (filter (fun chunk => hasUriAndTitle chunk) chunks).

(** [Array.from(new Map(webSources.map(s => [s.uri, s])).values())] *)
Definition uniqueSources (sources : list Source) : list Source :=
  Map_values (Map_new (map (fun s => (uri s, s)) sources)).

(** [searchResponse.candidates?.[0]?.groundingMetadata?.groundingChunks || []] *)
Definition groundingChunksOf (searchResponse : GenerateContentResponse)
  : list GroundingChunk :=
  default []
    (candidates searchResponse ?> first ?> groundingMetadata ?> groundingChunks).

Definition searchParameters (query : jsstring) : GenerateContentParameters :=
  {| model := js "gemini-2.5-flash";
     contents := SearchContents query;
     config := Some {| responseMimeType := None; responseSchema := None;
                       thinkingBudget := None; googleSearch := true |} |}.

Definition verifyParameters (query searchText : jsstring)
  : GenerateContentParameters :=
  {| model := js "gemini-3-pro-preview";
     contents := VerifyContents query searchText;
     config := None |}.

(** [performSearch] *)
Definition performSearch {St} (query : jsstring) : M St SearchResult :=
  key <- env_API_KEY ;;
  let apiKey := or_else key [] in
  if bool_decide (apiKey = []) then throw (Error (js "API Key not found"))
  else
    try_catch
      (searchResponse <- generateContent apiKey (searchParameters query) ;;
       let searchText := or_else (text searchResponse) (js "No results found.") in
       let chunks := groundingChunksOf searchResponse in
       let uniqueSources := uniqueSources (webSources chunks) in
       verificationText <-
         try_catch
           (verificationResponse <-
              generateContent apiKey (verifyParameters query searchText) ;;
            ret (or_else (text verificationResponse) []))
           (fun verifyError =>
              ret (js "Could not verify result at this time.")) ;;
       ret {| sr_text := searchText;
              sr_webSources := uniqueSources;
              sr_verification := Some verificationText |})
      (fun error => throw error).

Definition translateParameters (sourceText targetLanguage : jsstring)
  : GenerateContentParameters :=
  {| model := js "gemini-2.5-flash";
     contents := TranslateContents sourceText targetLanguage;
     config := None |}.

(** [translateText] *)
Definition translateText {St} (sourceText targetLanguage : jsstring)
  : M St jsstring :=
  key <- env_API_KEY ;;
  let apiKey := or_else key [] in
  if bool_decide (apiKey = []) then throw (Error (js "API Key not found"))
  else
    try_catch
      (response <- generateContent apiKey
                     (translateParameters sourceText targetLanguage) ;;
       ret (or_else (text response) sourceText))
      (fun error => throw error).

End GeminiService.

Import GeminiService.

(** ** App.tsx *)

Module App.

Inductive VideoStatus :=
| VideoIdle
| VideoGenerating
| VideoCompleted
| VideoError.

(** The React state the handlers below read or write. *)
Record AppState := {
  solution : option SolutionData;
  videoStatus : VideoStatus;
  videoUri : option jsstring;
  errorMsg : jsstring;
  apiKeySelected : bool;
  searchHistory : list jsstring
}.

Definition setVideoStatus (v : VideoStatus) (s : AppState) : AppState :=
  {| solution := solution s; videoStatus := v; videoUri := videoUri s;
     errorMsg := errorMsg s; apiKeySelected := apiKeySelected s;
     searchHistory := searchHistory s |}.

Definition setVideoUri (u : option jsstring) (s : AppState) : AppState :=
  {| solution := solution s; videoStatus := videoStatus s; videoUri := u;
     errorMsg := errorMsg s; apiKeySelected := apiKeySelected s;
     searchHistory := searchHistory s |}.

Definition setErrorMsg (m : jsstring) (s : AppState) : AppState :=
  {| solution := solution s; videoStatus := videoStatus s;
     videoUri := videoUri s; errorMsg := m;
     apiKeySelected := apiKeySelected s; searchHistory := searchHistory s |}.

Definition setApiKeySelected (b : bool) (s : AppState) : AppState :=
  {| solution := solution s; videoStatus := videoStatus s;
     videoUri := videoUri s; errorMsg := errorMsg s; apiKeySelected := b;
     searchHistory := searchHistory s |}.

Definition setSearchHistory (h : list jsstring) (s : AppState) : AppState :=
  {| solution := solution s; videoStatus := videoStatus s;
     videoUri := videoUri s; errorMsg := errorMsg s;
     apiKeySelected := apiKeySelected s; searchHistory := h |}.

(** [handleSelectKey], in the closure of the render whose state is [snap]. *)
Definition handleSelectKey (snap : AppState) : M AppState unit :=
  fun sc =>
    (if openSelectKey_available sc then
       openSelectKey ;;
       setState (setApiKeySelected true) ;;
       if includes (errorMsg snap) (js "API Key")
       then setState (setErrorMsg [])
       else ret tt
     else ret tt) sc.

(** The test of the [catch] block of [handleGenerateVideo]. *)
Definition entityNotFound (e : JsError) : bool :=
  let errorString := json e in
  let errorMessage := or_else (or_undefined (message e) (error_message e)) [] in
  includes errorMessage (js "Requested entity was not found")
  || includes errorString (js "Requested entity was not found")
  || includes errorString (js "404").

(** [solution?.visualPrompt] when it is truthy. *)
Definition visualPromptOf (sol : option SolutionData) : option jsstring :=
  match sol with
  | Some d =>
      match visualPrompt d with
      | c :: p => Some (c :: p)
      | [] => None
      end
  | None => None
  end.

(** The statements both [try] bodies of [handleGenerateVideo] share:
    await the video, store its URI, mark the video completed. *)
Definition attemptVideo (fuel : nat) (visualPrompt : jsstring)
  : M AppState unit :=
  uri <- generateExplanationVideo fuel visualPrompt ;;
  setState (setVideoUri (Some uri)) ;;
  setState (setVideoStatus VideoCompleted).

(** [handleGenerateVideo]; [fuel] bounds the polls of each attempt. *)
Definition handleGenerateVideo (fuel : nat) : M AppState unit :=
  snap <- getState ;;
  match visualPromptOf (solution snap) with
  | None => ret tt
  | Some visualPrompt =>
      (if apiKeySelected snap then ret tt else handleSelectKey snap) ;;
      setState (setVideoStatus VideoGenerating) ;;
      try_catch
        (attemptVideo fuel visualPrompt)
        (fun e =>
           returned <-
             (if entityNotFound e then
                setState (setApiKeySelected false) ;;
                handleSelectKey snap ;;
                try_catch
                  (setState (setVideoStatus VideoGenerating) ;;
                   attemptVideo fuel visualPrompt ;;
                   ret true)
                  (fun retryError => ret false)
              else ret false) ;;
           if returned : bool then ret tt
           else setState (setVideoStatus VideoError))
  end.

(** The updater passed to [setSearchHistory]. *)
Definition newHistory (cleanQuery : jsstring) (prev : list jsstring)
  : list jsstring :=
  slice0 5 (cleanQuery :: filter (fun q => q ≠ cleanQuery) prev).

(** [JSON.stringify] of an array of strings. *)
Definition historyJson (h : list jsstring) : jsstring :=
  JSON_stringify (JArray (map JString h)).

(** [addToHistory] *)
Definition addToHistory (query : jsstring) : M AppState unit :=
  let cleanQuery := trim query in
  if bool_decide (cleanQuery = []) then ret tt
  else
    prev <- getState ;;
    let newHistory := newHistory cleanQuery (searchHistory prev) in
    localStorage_setItem (js "dolphin_search_history") (historyJson newHistory) ;;
    setState (setSearchHistory newHistory).

(** [clearHistory] *)
Definition clearHistory : M AppState unit :=
  setState (setSearchHistory []) ;;
  onWorld (fun w =>
    {| API_KEY := API_KEY w;
       localStorage := delete (js "dolphin_search_history") (localStorage w);
       contentCalls := contentCalls w; videoCalls := videoCalls w;
       statusCalls := statusCalls w; selectCalls := selectCalls w;
       trace := trace w |}).

(** Queries added one after the other. *)
Fixpoint addAll (queries : list jsstring) : M AppState unit :=
  match queries with
  | [] => ret tt
  | q :: rest => addToHistory q ;; addAll rest
  end.

End App.

(** ** The two result views and their translation caches *)

Module View.

Inductive Language := English | Hindi.

#[global] Instance Language_eq_dec : EqDecision Language.
Proof. solve_decision. Defined.

(** The string a language value is. *)
Definition languageName (l : Language) : jsstring :=
  match l with
  | English => js "English"
  | Hindi => js "Hindi"
  end.

Record ViewState := {
  language : Language;
  translations : TranslationCache;
  isTranslating : bool
}.

Definition setLanguage (l : Language) (s : ViewState) : ViewState :=
  {| language := l; translations := translations s;
     isTranslating := isTranslating s |}.

Definition setTranslations (f : TranslationCache -> TranslationCache)
    (s : ViewState) : ViewState :=
  {| language := language s; translations := f (translations s);
     isTranslating := isTranslating s |}.

Definition setIsTranslating (b : bool) (s : ViewState) : ViewState :=
  {| language := language s; translations := translations s;
     isTranslating := b |}.

(** A freshly mounted view. *)
Definition mounted : ViewState :=
  {| language := English; translations := ∅; isTranslating := false |}.

End View.

Import View.

Module SolutionViewer.

(** [handleLanguageChange] of [SolutionViewer] *)
Definition handleLanguageChange (data : SolutionData) (newLang : Language)
  : M ViewState unit :=
  snap <- getState ;;
  if decide (newLang = language snap) then ret tt
  else
    setState (setLanguage newLang) ;;
    if decide (newLang = English) then ret tt
    else if truthy (translations snap !! languageName newLang) then ret tt
    else
      setState (setIsTranslating true) ;;
      try_finally
        (try_catch
           (translated <-
              translateText (solutionMarkdown data) (languageName newLang) ;;
            setState (setTranslations
                        (fun prev => <[languageName newLang := translated]> prev)))
           (fun error => setState (setLanguage English)))
        (setState (setIsTranslating false)).

(** [contentToDisplay] *)
Definition contentToDisplay (data : SolutionData) (s : ViewState) : jsstring :=
  match language s with
  | English => solutionMarkdown data
  | l => or_else (translations s !! languageName l) (solutionMarkdown data)
  end.

End SolutionViewer.

Module SearchResults.

Definition textKey (l : Language) : jsstring := languageName l ++ js "_text".
Definition verifyKey (l : Language) : jsstring := languageName l ++ js "_verify".

(** [handleLanguageChange] of [SearchResults] *)
Definition handleLanguageChange (data : SearchResult) (newLang : Language)
  : M ViewState unit :=
  snap <- getState ;;
  if decide (newLang = language snap) then ret tt
  else
    setState (setLanguage newLang) ;;
    if decide (newLang = English) then ret tt
    else if truthy (translations snap !! textKey newLang) then ret tt
    else
      setState (setIsTranslating true) ;;
      try_finally
        (try_catch
           (translatedMain <-
              translateText (sr_text data) (languageName newLang) ;;
            translatedVerify <-
              (match sr_verification data with
               | Some (c :: v) => translateText (c :: v) (languageName newLang)
               | _ => ret []
               end) ;;
            setState (setTranslations
                        (fun prev =>
                           let withMain := <[textKey newLang := translatedMain]> prev in
                           match translatedVerify with
                           | _ :: _ => <[verifyKey newLang := translatedVerify]> withMain
                           | [] => withMain
                           end)))
           (fun error => setState (setLanguage English)))
        (setState (setIsTranslating false)).

(** [currentText] *)
Definition currentText (data : SearchResult) (s : ViewState) : jsstring :=
  match language s with
  | English => sr_text data
  | l => or_else (translations s !! textKey l) (sr_text data)
  end.

(** [currentVerification] *)
Definition currentVerification (data : SearchResult) (s : ViewState)
  : option jsstring :=
  match language s with
  | English => sr_verification data
  | l => or_undefined (translations s !! verifyKey l) (sr_verification data)
  end.

End SearchResults.

(** The language buttons pressed one after the other, each press handled
    to its end before the next. *)
Fixpoint presses (handle : Language -> M ViewState unit)
    (buttons : list Language) : M ViewState unit :=
  match buttons with
  | [] => ret tt
  | l :: rest => handle l ;; presses handle rest
  end.

Import App.

(** ** App.tsx: the rest of the component *)

Module Screen.

Inductive AppStatus := IDLE | ANALYZING | SOLVED | ERROR | SEARCHING.

(** The file chosen and the image waiting in the cropper. *)
Record Upload := {
  file : option File;
  croppingSrc : option jsstring
}.

Record Search := {
  isSearchOpen : bool;
  searchQuery : jsstring;
  searchResult : option SearchResult;
  isSearching : bool
}.

(** [isDarkMode], and whether the document element carries the class
    [dark]. *)
Record Theme := {
  isDarkMode : bool;
  darkClass : bool
}.

(** All the state of [App]: the part of [AppState], and the rest. *)
Record ScreenState := {
  appState : AppState;
  status : AppStatus;
  upload : Upload;
  search : Search;
  theme : Theme
}.

Definition onApp (f : AppState -> AppState) (s : ScreenState) : ScreenState :=
  {| appState := f (appState s); status := status s; upload := upload s;
     search := search s; theme := theme s |}.

Definition setStatus (v : AppStatus) (s : ScreenState) : ScreenState :=
  {| appState := appState s; status := v; upload := upload s; search := search s;
     theme := theme s |}.

Definition onUpload (f : Upload -> Upload) (s : ScreenState) : ScreenState :=
  {| appState := appState s; status := status s; upload := f (upload s);
     search := search s; theme := theme s |}.

Definition onSearch (f : Search -> Search) (s : ScreenState) : ScreenState :=
  {| appState := appState s; status := status s; upload := upload s;
     search := f (search s); theme := theme s |}.

Definition onTheme (f : Theme -> Theme) (s : ScreenState) : ScreenState :=
  {| appState := appState s; status := status s; upload := upload s;
     search := search s; theme := f (theme s) |}.

Definition setFile (v : option File) (u : Upload) : Upload :=
  {| file := v; croppingSrc := croppingSrc u |}.

Definition setCroppingSrc (v : option jsstring) (u : Upload) : Upload :=
  {| file := file u; croppingSrc := v |}.

Definition setIsSearchOpen (v : bool) (q : Search) : Search :=
  {| isSearchOpen := v; searchQuery := searchQuery q;
     searchResult := searchResult q; isSearching := isSearching q |}.

Definition setSearchQuery (v : jsstring) (q : Search) : Search :=
  {| isSearchOpen := isSearchOpen q; searchQuery := v;
     searchResult := searchResult q; isSearching := isSearching q |}.

Definition setSearchResult (v : option SearchResult) (q : Search) : Search :=
  {| isSearchOpen := isSearchOpen q; searchQuery := searchQuery q;
     searchResult := v; isSearching := isSearching q |}.

Definition setIsSearching (v : bool) (q : Search) : Search :=
  {| isSearchOpen := isSearchOpen q; searchQuery := searchQuery q;
     searchResult := searchResult q; isSearching := v |}.

Definition setSolution (v : option SolutionData) (s : AppState) : AppState :=
  {| solution := v; videoStatus := videoStatus s; videoUri := videoUri s;
     errorMsg := errorMsg s; apiKeySelected := apiKeySelected s;
     searchHistory := searchHistory s |}.

(** A handler written on [AppState], run on the whole state. *)
Definition inApp {A} (m : M AppState A) : M ScreenState A :=
  fun sc σ =>
    let r := m sc (appState (fst σ), snd σ) in
    (fst r, (onApp (fun _ => fst (snd r)) (fst σ), snd (snd r))).

(** [localStorage.getItem(key)]; [None] is [null]. *)
Definition localStorage_getItem {St} (key : jsstring) : M St (option jsstring) :=
  fun _ σ => (Return (localStorage (snd σ) !! key), σ).

(** [e.message?.includes(needle)] as a condition. *)
Definition messageIncludes (e : JsError) (needle : jsstring) : bool :=
  match message e with
  | Some m => includes m needle
  | None => false
  end.

(** The test of the [catch] block of [handleAnalyze]. *)
Definition keyOrAuthError (e : JsError) : bool :=
  messageIncludes e (js "403") || messageIncludes e (js "API Key")
  || messageIncludes e (js "not found").

(** [handleAnalyze].  [cast] is the reading [as SolutionData] of the value
    [solveProblem] resolves to, [None] for [null]: the state is written at
    the declared type. *)
Definition handleAnalyze (cast : JSON -> option SolutionData)
  : M ScreenState unit :=
  snap <- getState ;;
  match file (upload snap) with
  | None => ret tt
  | Some imageFile =>
      (if apiKeySelected (appState snap) then ret tt
       else inApp (handleSelectKey (appState snap))) ;;
      setState (setStatus ANALYZING) ;;
      setState (onApp (setErrorMsg [])) ;;
      setState (onApp (setSolution None)) ;;
      setState (onApp (setVideoStatus VideoIdle)) ;;
      setState (onApp (setVideoUri None)) ;;
      try_catch
        (result <- solveProblem imageFile ;;
         setState (onApp (setSolution (cast result))) ;;
         setState (setStatus SOLVED))
        (fun e =>
           setState
             (onApp
                (setErrorMsg
                   (or_else (message e)
                      (js "Failed to analyze image. Please try again.")))) ;;
           setState (setStatus ERROR) ;;
           if keyOrAuthError e then setState (onApp (setApiKeySelected false))
           else ret tt)
  end.

(** [handleReset] *)
Definition handleReset : M ScreenState unit :=
  setState (setStatus IDLE) ;;
  setState (onUpload (setFile None)) ;;
  setState (onApp (setSolution None)) ;;
  setState (onApp (setVideoStatus VideoIdle)) ;;
  setState (onApp (setVideoUri None)) ;;
  setState (onApp (setErrorMsg [])) ;;
  setState (onUpload (setCroppingSrc None)).

(** [handleFileSelect]: an image goes to the cropper once it is read, with
    no handler for a failed read; any other file is taken as it is. *)
Definition handleFileSelect (selectedFile : File) : M ScreenState unit :=
  if startsWith (file_type selectedFile) (js "image/") then
    try_catch
      (url <- readAsDataURL selectedFile ;;
       setState (onUpload (setCroppingSrc (Some url))))
      (fun _ => ret tt)
  else setState (onUpload (setFile (Some selectedFile))).

(** [handleCropComplete] *)
Definition handleCropComplete (croppedFile : File) : M ScreenState unit :=
  setState (onUpload (setFile (Some croppedFile))) ;;
  setState (onUpload (setCroppingSrc None)).

(** [handleCropCancel] *)
Definition handleCropCancel : M ScreenState unit :=
  setState (onUpload (setCroppingSrc None)).

(** [executeSearch(e, queryOverride)]; [e?.preventDefault()] acts on the
    form only. *)
Definition executeSearch (queryOverride : option jsstring)
  : M ScreenState unit :=
  snap <- getState ;;
  let queryToUse := or_else queryOverride (searchQuery (search snap)) in
  if bool_decide (trim queryToUse = []) then ret tt
  else
    (if apiKeySelected (appState snap) then ret tt
     else inApp (handleSelectKey (appState snap))) ;;
    (if truthy queryOverride
     then setState (onSearch (setSearchQuery (or_else queryOverride [])))
     else ret tt) ;;
    inApp (addToHistory queryToUse) ;;
    setState (onSearch (setIsSearching true)) ;;
    setState (onSearch (setSearchResult None)) ;;
    try_finally
      (try_catch
         (result <- performSearch queryToUse ;;
          setState (onSearch (setSearchResult (Some result))))
         (fun e =>
            setState
              (onApp (setErrorMsg (js "Search failed. Please try again.")))))
      (setState (onSearch (setIsSearching false))).

(** [handleSearchSuggestionClick] *)
Definition handleSearchSuggestionClick (topic : jsstring)
  : M ScreenState unit :=
  setState (onSearch (setSearchQuery topic)) ;;
  setState (onSearch (setSearchResult None)) ;;
  setState (onSearch (setIsSearchOpen true)).

(** [closeSearch] *)
Definition closeSearch : M ScreenState unit :=
  setState (onSearch (setIsSearchOpen false)) ;;
  setState (onSearch (setSearchResult None)) ;;
  setState (onSearch (setSearchQuery [])).

(** The body of [toggleTheme] and of the theme effect for a mode. *)
Definition applyTheme (dark : bool) (t : Theme) : Theme :=
  {| isDarkMode := dark; darkClass := dark |}.

(** [toggleTheme] *)
Definition toggleTheme : M ScreenState unit :=
  snap <- getState ;;
  let newMode := negb (isDarkMode (theme snap)) in
  setState (onTheme (applyTheme newMode)) ;;
  if newMode then localStorage_setItem (js "color-theme") (js "dark")
  else localStorage_setItem (js "color-theme") (js "light").

(** The effect that sets the theme when the component mounts;
    [prefersDark] is what the media query [prefers-color-scheme: dark]
    answers. *)
Definition initTheme (prefersDark : bool) : M ScreenState unit :=
  stored <- localStorage_getItem (js "color-theme") ;;
  let isDark :=
    bool_decide (stored = Some (js "dark"))
    || (negb (bool_decide (is_Some stored)) && prefersDark) in
  setState (onTheme (applyTheme isDark)).

(** The effect that loads the search history when the component mounts.
    [cast] is the reading of the parsed value at the type [string[]] of the
    state. *)
Definition loadSearchHistory (cast : JSON -> list jsstring)
  : M ScreenState unit :=
  savedHistory <- localStorage_getItem (js "dolphin_search_history") ;;
  match savedHistory with
  | Some (c :: t) =>
      match JSON_parse (c :: t) with
      | Some v => setState (onApp (setSearchHistory (cast v)))
      | None => ret tt
      end
  | _ => ret tt
  end.

(** A value of the declared type [SolutionData] read as such: an object
    with its three string properties; [null] is [None]. *)
Definition textProp (v : JSON) (name : jsstring) : jsstring :=
  match get_prop v name with
  | Some (JString str) => str
  | _ => []
  end.

Definition asSolutionData (v : JSON) : option SolutionData :=
  match v with
  | JObject _ =>
      Some {| solutionMarkdown := textProp v (js "solutionMarkdown");
              visualPrompt := textProp v (js "visualPrompt");
              confidence := textProp v (js "confidence") |}
  | _ => None
  end.

(** An array of strings read as the list of its strings. *)
Definition asStrings (v : JSON) : list jsstring :=
  match v with
  | JArray items =>
      flat_map (fun x => match x with JString str => [str] | _ => [] end) items
  | _ => []
  end.

(** The component as it mounts. *)
Definition initialApp : AppState :=
  {| solution := None; videoStatus := VideoIdle; videoUri := None;
     errorMsg := []; apiKeySelected := false; searchHistory := [] |}.

Definition initialScreen : ScreenState :=
  {| appState := initialApp; status := IDLE;
     upload := {| file := None; croppingSrc := None |};
     search := {| isSearchOpen := false; searchQuery := [];
                  searchResult := None; isSearching := false |};
     theme := {| isDarkMode := false; darkClass := false |} |}.

End Screen.

Import Screen.

(** ** What a run is observed to do *)

Module Observations.

(** The k-th status a run of [generateExplanationVideo] started in [w]
    reads: the reply to its submission, then the replies to its status
    requests. *)
Definition statusRead (sc : Script) (w : World) (k : nat)
  : JsError + Operation :=
  match k with
  | O => generateVideos_reply sc (videoCalls w)
  | S j => getVideosOperation_reply sc (statusCalls w + j)
  end.

(** One turn of the polling loop on the operation [operation]. *)
Definition pollCycle (apiKey : jsstring) (operation : Operation) (w : World)
  : World :=
  countStatus
    (record (EvGetVideosOperation apiKey operation)
       (record (EvSetTimeout 10000%Z) w)).

(** The world after [n] turns, where [ops k] is the operation the k-th
    turn sends back. *)
Fixpoint cycles (apiKey : jsstring) (ops : nat -> Operation) (n : nat)
    (w : World) : World :=
  match n with
  | O => w
  | S m => pollCycle apiKey (ops m) (cycles apiKey ops m w)
  end.

Definition cycleEvents (apiKey : jsstring) (ops : nat -> Operation) (n : nat)
  : list Event :=
  flat_map
    (fun k => [EvSetTimeout 10000%Z; EvGetVideosOperation apiKey (ops k)])
    (seq 0 n).

(** What the service promises of a response made under a response schema:
    a value matches a string schema when it is a string, one of [enum] if
    there is one; it matches an object schema when it is an object that has
    every [required] property and whose properties match their schemas. *)
Fixpoint conforms (schema : Schema) (v : JSON) : bool :=
  match schema, v with
  | SchemaString None, JString _ => true
  | SchemaString (Some enum), JString str => bool_decide (str ∈ enum)
  | SchemaObject properties required, JObject _ =>
      forallb (fun name => bool_decide (is_Some (get_prop v name))) required
      && forallb
           (fun p : jsstring * Schema =>
              match get_prop v (fst p) with
              | Some x => conforms (snd p) x
              | None => true
              end)
           properties
  | _, _ => false
  end.

Definition isTenSecondWait (ev : Event) : bool :=
  match ev with
  | EvSetTimeout ms => Z.eqb ms 10000
  | _ => false
  end.

Definition isStatusRequest (ev : Event) : bool :=
  match ev with
  | EvGetVideosOperation _ _ => true
  | _ => false
  end.

Definition isSubmit (ev : Event) : bool :=
  match ev with
  | EvGenerateVideos _ _ => true
  | _ => false
  end.

Definition isSelect (ev : Event) : bool :=
  match ev with
  | EvOpenSelectKey => true
  | _ => false
  end.

Definition isTranslate (ev : Event) : bool :=
  match ev with
  | EvGenerateContent _ p =>
      match contents p with
      | TranslateContents _ _ => true
      | _ => false
      end
  | _ => false
  end.

Definition count (p : Event -> bool) (tr : list Event) : nat :=
  length (List.filter p tr).

(** The history after one call of [addToHistory]. *)
Definition historyAfter (h : list jsstring) (query : jsstring)
  : list jsstring :=
  if bool_decide (trim query = []) then h else newHistory (trim query) h.

(** A list without the later occurrences of its elements. *)
Fixpoint nub (l : list jsstring) : list jsstring :=
  match l with
  | [] => []
  | x :: l' => x :: filter (fun y => y ≠ x) (nub l')
  end.

(** The entries a list of queries stands for: trimmed, blank ones left
    out. *)
Definition cleaned (queries : list jsstring) : list jsstring :=
  filter (fun q => q ≠ []) (map trim queries).

End Observations.

Import Observations.

(** ** Sample environments, used to run the definitions on concrete inputs *)

Module Samples.

(** An engine that words its syntax errors by quoting the text. *)
Definition sampleEngine (text : jsstring) : jsstring :=
  js "Unexpected token in JSON: " ++ text.

(** A script that answers from three lists of replies; a call beyond the
    end of its list is refused. *)
Definition scripted
    (content : list (JsError + GenerateContentResponse))
    (videos status : list (JsError + Operation))
    (available : bool) : Script :=
  {| generateContent_reply k := nth k content (inl (Error (js "refused")));
     generateVideos_reply k := nth k videos (inl (Error (js "refused")));
     getVideosOperation_reply k := nth k status (inl (Error (js "refused")));
     openSelectKey_available := available;
     openSelectKey_key _ := Some (js "selected-key");
     syntaxError_message := sampleEngine |}.

Definition worldWith (key : option jsstring) : World :=
  {| API_KEY := key; localStorage := ∅; contentCalls := 0; videoCalls := 0;
     statusCalls := 0; selectCalls := 0; trace := [] |}.

Definition keyedWorld : World := worldWith (Some (js "k3y")).
Definition keylessWorld : World := worldWith None.

Definition textResponse (t : option jsstring) : GenerateContentResponse :=
  {| text := t; candidates := None |}.

Definition cited (u t : string) : GroundingChunk :=
  {| web := Some {| web_uri := Some (js u); web_title := Some (js t) |} |}.

Definition groundedResponse (t : string) (chunks : list GroundingChunk)
  : GenerateContentResponse :=
  {| text := Some (js t);
     candidates :=
       Some [ {| groundingMetadata :=
                   Some {| groundingChunks := Some chunks |} |} ] |}.

(** A translation that comes back without text. *)
Definition emptyTranslation : Script :=
  scripted [inr (textResponse None)] [] [] true.

(** A search that succeeds, followed by a verification that fails. *)
Definition onceCited : GenerateContentResponse :=
  groundedResponse "42" [cited "https://a.example" "A"].

Definition unverified : Script :=
  scripted [inr onceCited; inl (Error (js "503"))] [] [] true.

Definition running : Operation := {| done := Some false; response := None |}.

Definition finished (u : option jsstring) : Operation :=
  {| done := Some true;
     response :=
       Some {| generatedVideos :=
                 Some [ {| video := Some {| video_uri := u |} |} ] |} |}.

(** A job that is done as soon as it is submitted. *)
Definition readyScript : Script :=
  scripted [] [inr (finished (Some (js "https://v.example/1?alt=media")))] []
    true.

(** A search answer citing one page twice, under two titles. *)
Definition twiceCited : GenerateContentResponse :=
  groundedResponse "It is 42."
    [cited "https://a.example" "first"; cited "https://b.example" "second";
     cited "https://a.example" "third"].

Definition twiceCitedScript : Script :=
  scripted [inr twiceCited; inr (textResponse (Some (js "Accurate.")))] [] []
    true.

Definition source (u t : string) : Source := {| uri := js u; title := js t |}.

(** A job that never reports done. *)
Definition neverDoneScript : Script :=
  {| generateContent_reply _ := inl (Error (js "refused"));
     generateVideos_reply _ := inr running;
     getVideosOperation_reply _ := inr running;
     openSelectKey_available := true;
     openSelectKey_key _ := Some (js "selected-key");
     syntaxError_message := sampleEngine |}.

Definition notFound : JsError :=
  {| message := Some (js "Requested entity was not found.");
     error_message := None;
     json := js "{}" |}.

Definition pngFile : File :=
  {| file_type := js "image/png";
     file_dataURL := Some (js "data:image/png;base64,iVBORw0KGgo=") |}.

(** A solve response with the given confidence, as a value and as the
    text the service sends. *)
Definition solveValue (conf : string) : JSON :=
  JObject [(js "solutionMarkdown", JString (js "**Step 1: Given**"));
           (js "visualPrompt", JString (js "A ball on an inclined plane"));
           (js "confidence", JString (js conf))].

Definition solveScript (conf : string) : Script :=
  scripted [inr (textResponse (Some (JSON_stringify (solveValue conf))))] [] []
    true.

Definition solved (markdown : string) : SolutionData :=
  {| solutionMarkdown := js markdown;
     visualPrompt := js "A ball rolling down an inclined plane";
     confidence := js "High" |}.

Definition fiveQueries : list jsstring :=
  [js "e"; js "d"; js "c"; js "b"; js "a"].

Definition silent : Script := scripted [] [] [] true.

Definition appWith (selected : bool) (history : list jsstring) : AppState :=
  {| solution := Some (solved "**Step 1: Given**");
     videoStatus := VideoIdle; videoUri := None; errorMsg := [];
     apiKeySelected := selected; searchHistory := history |}.

(** A solution whose text is empty, and a service whose answers have no
    text. *)
Definition emptySolution : SolutionData :=
  {| solutionMarkdown := [];
     visualPrompt := js "A ball rolling down an inclined plane";
     confidence := js "Low" |}.

Definition mute : Script :=
  {| generateContent_reply _ := inr (textResponse None);
     generateVideos_reply _ := inl (Error (js "refused"));
     getVideosOperation_reply _ := inl (Error (js "refused"));
     openSelectKey_available := true;
     openSelectKey_key _ := Some (js "selected-key");
     syntaxError_message := sampleEngine |}.

Definition viewerRun (buttons : list Language)
  : Outcome unit * (ViewState * World) :=
  presses (SolutionViewer.handleLanguageChange emptySolution) buttons mute
    (mounted, keyedWorld).

(** A job whose first submission is refused as not found and whose second
    is done at once; the host offers a credential selection or not. *)
Definition retryScript (available : bool) : Script :=
  scripted []
    [inl notFound; inr (finished (Some (js "https://v.example/1?alt=media")))]
    [] available.

Definition retryRun (available : bool) : Outcome unit * (AppState * World) :=
  handleGenerateVideo 1 (retryScript available) (appWith true [], keyedWorld).

End Samples.

Import Samples.

(** ** Further vocabulary and samples *)

Module Further.

Definition isContent (ev : Event) : bool :=
  match ev with
  | EvGenerateContent _ _ => true
  | _ => false
  end.

(** [needle] occurs in [s]. *)
Definition occursIn (needle s : jsstring) : Prop :=
  exists before after, s = before ++ needle ++ after.

(** A file whose read fails. *)
Definition unreadable : File :=
  {| file_type := js "image/png"; file_dataURL := None |}.

(** A service that refuses every request with one error. *)
Definition refusing (e : JsError) : Script :=
  {| generateContent_reply _ := inl e;
     generateVideos_reply _ := inl e;
     getVideosOperation_reply _ := inl e;
     openSelectKey_available := true;
     openSelectKey_key _ := Some (js "selected-key");
     syntaxError_message := sampleEngine |}.

Definition quotaError : JsError :=
  {| message := Some (js "quota exceeded"); error_message := None;
     json := js "{}" |}.

(** A job that is not done when submitted and whose first status request
    fails. *)
Definition brokenPoll : Script :=
  scripted [] [inr running] [inl quotaError] true.

(** The screen with a solution on it, a file or none, and a text in the
    search field. *)
Definition screenWith (selected : bool) (f : option File) (query : string)
  : ScreenState :=
  {| appState := appWith selected [];
     status := IDLE;
     upload := {| file := f; croppingSrc := None |};
     search := {| isSearchOpen := true; searchQuery := js query;
                  searchResult := None; isSearching := false |};
     theme := {| isDarkMode := false; darkClass := false |} |}.

(** A search result with a verification and no sources. *)
Definition answered : SearchResult :=
  {| sr_text := js "It is 42."; sr_webSources := [];
     sr_verification := Some (js "Accurate.") |}.

(** A job done at its third read, with two videos. *)
Definition twoVideos : Operation :=
  {| done := Some true;
     response :=
       Some {| generatedVideos :=
                 Some [ {| video :=
                             Some {| video_uri :=
                                       Some (js "https://v.example/1?alt=media") |} |};
                        {| video :=
                             Some {| video_uri :=
                                       Some (js "https://v.example/2?alt=media") |} |} ] |} |}.

Definition twoVideosOps : nat -> Operation :=
  fun k => nth k [running; running] twoVideos.

Definition twoVideosScript : Script :=
  scripted [] [inr (twoVideosOps 0)]
    [inr (twoVideosOps 1); inr (twoVideosOps 2)] true.

(** A status whose property [done] is [undefined], and a job that only
    ever reports such statuses. *)
Definition unreported : Operation := {| done := None; response := None |}.

Definition undefinedDoneScript : Script :=
  {| generateContent_reply _ := inl (Error (js "refused"));
     generateVideos_reply _ := inr unreported;
     getVideosOperation_reply _ := inr unreported;
     openSelectKey_available := true;
     openSelectKey_key _ := Some (js "selected-key");
     syntaxError_message := sampleEngine |}.

(** A job whose every status request is answered, done from its fourth
    read on. *)
Definition doneLater : nat -> Operation :=
  fun k => if (k <? 3)%nat then running else twoVideos.

Definition doneLaterScript : Script :=
  {| generateContent_reply _ := inl (Error (js "refused"));
     generateVideos_reply _ := inr (doneLater 0);
     getVideosOperation_reply k := inr (doneLater (S k));
     openSelectKey_available := true;
     openSelectKey_key _ := Some (js "selected-key");
     syntaxError_message := sampleEngine |}.

(** The value of a solve response with the given three strings. *)
Definition solutionObject (markdown prompt conf : jsstring) : JSON :=
  JObject [(js "solutionMarkdown", JString markdown);
           (js "visualPrompt", JString prompt);
           (js "confidence", JString conf)].

(** A solve response whose text is not JSON. *)
Definition garbled : Script :=
  scripted [inr (textResponse (Some (js "[oops")))] [] [] true.

(*SAMPLES*)
End Further.

Import Further.

(** * Properties *)

Local Close Scope N_scope.
Local Open Scope nat_scope.

(** ** Running the monad *)

Lemma or_else_falsy (a : option jsstring) (b : jsstring) :
  truthy a = false -> or_else a b = b.
Proof. destruct a as [[|c s]|]; simpl; congruence. Qed.

Lemma or_else_truthy (a : option jsstring) (b : jsstring) :
  truthy a = true -> a = Some (or_else a b) /\ or_else a b <> [].
Proof. destruct a as [[|c s]|]; simpl; try congruence. auto. Qed.

(** Unfold the operations of the monad in the goal. *)
Ltac run_async :=
  cbv beta iota zeta delta
    [bind ret throw pending try_catch try_finally getState setState onWorld
     settle env_API_KEY generateContent generateVideos getVideosOperation
     setTimeout openSelectKey readAsDataURL localStorage_setItem
     JSON_parse_throws fst snd].

(** Rethrowing in a [catch] block changes nothing. *)
Lemma try_catch_rethrow {St A} (m : M St A) sc σ :
  try_catch m (fun error => throw error) sc σ = m sc σ.
Proof.
  unfold try_catch, throw. destruct (m sc σ) as [[a|e|] σ']; reflexivity.
Qed.

(** ** C9: an empty translation falls back to the source text *)

(** C9. When the translation request succeeds with an empty or absent text
    body, [translateText] returns the source text as it was given, having
    made that one request. *)
Theorem translateText_empty_body_returns_source :
  forall (St : Type) (sourceText targetLanguage : jsstring) (sc : Script)
         (s : St) (w : World) (resp : GenerateContentResponse),
    truthy (API_KEY w) = true ->
    generateContent_reply sc (contentCalls w) = inr resp ->
    truthy (text resp) = false ->
    translateText sourceText targetLanguage sc (s, w)
    = (Return sourceText,
       (s, countContent
             (record (EvGenerateContent (or_else (API_KEY w) [])
                        (translateParameters sourceText targetLanguage)) w))).
Proof.
  intros St sourceText targetLanguage sc s w resp Hkey Hreply Hempty.
  destruct (or_else_truthy _ [] Hkey) as [_ Hne].
  unfold translateText, bind at 1, env_API_KEY. simpl.
  rewrite bool_decide_eq_false_2 by exact Hne.
  rewrite try_catch_rethrow.
  unfold bind, generateContent, onWorld, ret. simpl.
  rewrite Hreply. simpl. now rewrite (or_else_falsy _ _ Hempty).
Qed.

Lemma translateText_empty_body_witness :
  truthy (API_KEY keyedWorld) = true
  /\ generateContent_reply emptyTranslation (contentCalls keyedWorld)
     = inr (textResponse None)
  /\ truthy (text (textResponse None)) = false
  /\ translateText (js "$x = 1$") (js "Hindi") emptyTranslation (tt, keyedWorld)
     = (Return (js "$x = 1$"),
        (tt, countContent
               (record (EvGenerateContent (or_else (API_KEY keyedWorld) [])
                          (translateParameters (js "$x = 1$") (js "Hindi")))
                  keyedWorld))).
Proof.
  split; [reflexivity|]. split; [reflexivity|]. split; [reflexivity|].
  apply (translateText_empty_body_returns_source unit (js "$x = 1$")
           (js "Hindi") emptyTranslation tt keyedWorld (textResponse None));
    reflexivity.
Defined.

(** ** C2: a failed verification does not fail the search *)

(** C2. When the search request succeeds and the verification request
    throws, [performSearch] returns the text and the sources of the search
    response together with the fixed fallback notice. *)
Theorem performSearch_verification_failure_absorbed :
  forall (St : Type) (query : jsstring) (sc : Script) (s : St) (w : World)
         (searchResponse : GenerateContentResponse) (verifyError : JsError),
    truthy (API_KEY w) = true ->
    generateContent_reply sc (contentCalls w) = inr searchResponse ->
    generateContent_reply sc (S (contentCalls w)) = inl verifyError ->
    let apiKey := or_else (API_KEY w) [] in
    let searchText := or_else (text searchResponse) (js "No results found.") in
    performSearch query sc (s, w)
    = (Return
         {| sr_text := searchText;
            sr_webSources :=
              uniqueSources (webSources (groundingChunksOf searchResponse));
            sr_verification :=
              Some (js "Could not verify result at this time.") |},
       (s, countContent
             (record (EvGenerateContent apiKey (verifyParameters query searchText))
                (countContent
                   (record (EvGenerateContent apiKey (searchParameters query))
                      w))))).
Proof.
  intros St query sc s w searchResponse verifyError Hkey Hsearch Hverify.
  destruct (or_else_truthy _ [] Hkey) as [_ Hne].
  unfold performSearch, bind at 1, env_API_KEY. simpl.
  rewrite bool_decide_eq_false_2 by exact Hne.
  rewrite try_catch_rethrow.
  unfold bind, try_catch, generateContent, onWorld, ret. simpl.
  rewrite Hsearch. simpl. rewrite Hverify. reflexivity.
Qed.

Lemma performSearch_verification_failure_witness :
  truthy (API_KEY keyedWorld) = true
  /\ generateContent_reply unverified (contentCalls keyedWorld) = inr onceCited
  /\ generateContent_reply unverified (S (contentCalls keyedWorld))
     = inl (Error (js "503"))
  /\ performSearch (js "meaning of life") unverified (tt, keyedWorld)
     = (Return
          {| sr_text := js "42";
             sr_webSources := [ {| uri := js "https://a.example"; title := js "A" |} ];
             sr_verification :=
               Some (js "Could not verify result at this time.") |},
        (tt, countContent
               (record (EvGenerateContent (js "k3y")
                          (verifyParameters (js "meaning of life") (js "42")))
                  (countContent
                     (record (EvGenerateContent (js "k3y")
                                (searchParameters (js "meaning of life")))
                        keyedWorld))))).
Proof.
  split; [reflexivity|]. split; [reflexivity|]. split; [reflexivity|].
  apply (performSearch_verification_failure_absorbed unit
           (js "meaning of life") unverified tt keyedWorld onceCited
           (Error (js "503")));
    reflexivity.
Defined.

(** ** The polling loop *)

Section Polling.

Context {St : Type}.
Variables (apiKey : jsstring) (sc : Script) (s : St).

Lemma statusCalls_cycles ops n w :
  statusCalls (cycles apiKey ops n w) = (statusCalls w + n)%nat.
Proof. induction n as [|n IH]; simpl; [lia | rewrite IH; lia]. Qed.

Lemma trace_cycles ops n w :
  trace (cycles apiKey ops n w) = trace w ++ cycleEvents apiKey ops n.
Proof.
  unfold cycleEvents. induction n as [|n IH].
  - simpl. now rewrite app_nil_r.
  - cbn [cycles]. unfold pollCycle, countStatus, record. cbn [trace].
    rewrite IH, seq_S, flat_map_app. simpl.
    rewrite <- !app_assoc. reflexivity.
Qed.

(** One turn of the loop on an operation that is not done. *)
Lemma whileNotDone_step fuel operation operation' w :
  isDone operation = false ->
  getVideosOperation_reply sc (statusCalls w) = inr operation' ->
  whileNotDone (S fuel) apiKey operation sc (s, w)
  = whileNotDone fuel apiKey operation' sc (s, pollCycle apiKey operation w).
Proof.
  intros Hnd Hreply. simpl. rewrite Hnd.
  unfold bind, setTimeout, getVideosOperation, onWorld, ret. simpl.
  rewrite Hreply. reflexivity.
Qed.

(** [n] turns in a row. *)
Lemma whileNotDone_cycles ops n fuel w :
  (forall k, (k < n)%nat ->
     getVideosOperation_reply sc (statusCalls w + k) = inr (ops (S k))) ->
  (forall k, (k < n)%nat -> isDone (ops k) = false) ->
  whileNotDone (n + fuel) apiKey (ops O) sc (s, w)
  = whileNotDone fuel apiKey (ops n) sc (s, cycles apiKey ops n w).
Proof.
  revert fuel. induction n as [|n IH]; intros fuel Hreply Hnd.
  - reflexivity.
  - replace (S n + fuel)%nat with (n + S fuel)%nat by lia.
    rewrite IH by (intros; first [apply Hreply | apply Hnd]; lia).
    rewrite (whileNotDone_step fuel (ops n) (ops (S n))).
    + reflexivity.
    + apply Hnd. lia.
    + rewrite statusCalls_cycles. apply Hreply. lia.
Qed.

Lemma whileNotDone_done fuel operation w :
  isDone operation = true ->
  whileNotDone (S fuel) apiKey operation sc (s, w) = (Return operation, (s, w)).
Proof. intros Hd. simpl. now rewrite Hd. Qed.

End Polling.

Lemma count_app p tr1 tr2 : count p (tr1 ++ tr2) = (count p tr1 + count p tr2)%nat.
Proof. unfold count. now rewrite List.filter_app, length_app. Qed.

Lemma count_cycleEvents apiKey ops n :
  count isTenSecondWait (cycleEvents apiKey ops n) = n
  /\ count isStatusRequest (cycleEvents apiKey ops n) = n
  /\ count isSubmit (cycleEvents apiKey ops n) = O
  /\ count isSelect (cycleEvents apiKey ops n) = O.
Proof.
  unfold cycleEvents. induction n as [|n (IH1 & IH2 & IH3 & IH4)].
  - repeat split.
  - rewrite seq_S, flat_map_app, !count_app, IH1, IH2, IH3, IH4.
    cbn. repeat split; lia.
Qed.

(** ** Runs of [generateExplanationVideo] *)

Section VideoRuns.

Context {St : Type}.
Variables (visualPrompt : jsstring) (sc : Script) (s : St) (w : World).
Variable ops : nat -> Operation.

Let apiKey := or_else (API_KEY w) [].
Let submit := EvGenerateVideos apiKey (videoParameters visualPrompt).
Let submitted := countVideo (record submit w).

(** The job is done at read [n] and at none before: the run settles. *)
Lemma generateExplanationVideo_done n fuel :
  (forall k, (k <= n)%nat -> statusRead sc w k = inr (ops k)) ->
  (forall k, (k < n)%nat -> isDone (ops k) = false) ->
  isDone (ops n) = true ->
  (n < fuel)%nat ->
  generateExplanationVideo fuel visualPrompt sc (s, w)
  = (match firstVideoUri (ops n) with
     | Some (c :: u) => Return ((c :: u) ++ js "&key=" ++ apiKey)
     | _ => Throw (Error (js "Video generation failed or returned no URI"))
     end, (s, cycles apiKey ops n submitted)).
Proof.
  intros Hreads Hnd Hd Hfuel.
  unfold generateExplanationVideo, bind at 1, env_API_KEY. simpl.
  fold apiKey. rewrite try_catch_rethrow.
  unfold bind at 1, generateVideos, bind at 1, onWorld, settle. simpl.
  pose proof (Hreads O ltac:(lia)) as H0. simpl in H0. rewrite H0.
  unfold ret at 1. fold submit. fold submitted.
  replace fuel with (n + S (fuel - n - 1))%nat by lia.
  unfold bind at 1.
  rewrite (whileNotDone_cycles apiKey sc s ops n).
  - rewrite whileNotDone_done by exact Hd.
    destruct (firstVideoUri (ops n)) as [[|c u]|]; reflexivity.
  - intros k Hk. exact (Hreads (S k) ltac:(lia)).
  - exact Hnd.
Qed.

(** The job is not done at any of the first [fuel] reads: the run is still
    polling after [fuel] turns. *)
Lemma generateExplanationVideo_pending fuel :
  (forall k, (k <= fuel)%nat -> statusRead sc w k = inr (ops k)) ->
  (forall k, (k < fuel)%nat -> isDone (ops k) = false) ->
  generateExplanationVideo fuel visualPrompt sc (s, w)
  = (Pending, (s, cycles apiKey ops fuel submitted)).
Proof.
  intros Hreads Hnd.
  unfold generateExplanationVideo, bind at 1, env_API_KEY. simpl.
  fold apiKey. rewrite try_catch_rethrow.
  unfold bind at 1, generateVideos, bind at 1, onWorld, settle. simpl.
  pose proof (Hreads O ltac:(lia)) as H0. simpl in H0. rewrite H0.
  unfold ret at 1. fold submit. fold submitted.
  replace fuel with (fuel + 0)%nat at 1 by lia.
  unfold bind at 1.
  rewrite (whileNotDone_cycles apiKey sc s ops fuel).
  - reflexivity.
  - intros k Hk. exact (Hreads (S k) ltac:(lia)).
  - exact Hnd.
Qed.

Lemma trace_submitted_cycles n :
  trace (cycles apiKey ops n submitted)
  = trace w ++ submit :: cycleEvents apiKey ops n.
Proof.
  rewrite trace_cycles. unfold submitted, countVideo, record. simpl.
  now rewrite <- app_assoc.
Qed.

End VideoRuns.

(** Among the first [n] values of a flag, either one is set, and then one
    is the first to be, or none is. *)
Lemma first_set (f : nat -> bool) (n : nat) :
  (exists k, (k < n)%nat /\ f k = true /\ forall j, (j < k)%nat -> f j = false)
  \/ (forall k, (k < n)%nat -> f k = false).
Proof.
  induction n as [|n [(k & Hk & Hf & Hmin)|Hnone]].
  - right. intros k Hk. lia.
  - left. exists k. split; [lia|]. auto.
  - destruct (f n) eqn:Hn.
    + left. exists n. split; [lia|]. auto.
    + right. intros k Hk. destruct (decide (k = n)) as [->|]; [exact Hn|].
      apply Hnone. lia.
Qed.

(** [operation.done] as the condition of the loop: it holds when the
    property is [true], and fails when it is [false] or [undefined]. *)
Lemma isDone_true (operation : Operation) :
  isDone operation = true <-> done operation = Some true.
Proof.
  unfold isDone. destruct (done operation) as [[|]|]; split;
    congruence.
Qed.

Lemma isDone_false (operation : Operation) :
  isDone operation = false <-> done operation <> Some true.
Proof.
  unfold isDone. destruct (done operation) as [[|]|]; split;
    congruence.
Qed.

(** [operation.response?.generatedVideos?.[0]?.video?.uri], read off the
    operation itself: the URI of the first element of the list of videos,
    when every step on the way to it is there. *)
Lemma firstVideoUri_first (operation : Operation) :
  firstVideoUri operation
  = match response operation with
    | Some {| generatedVideos :=
                Some ({| video := Some {| video_uri := videoUri |} |} :: _) |} =>
        videoUri
    | _ => None
    end.
Proof.
  unfold firstVideoUri.
  destruct (response operation) as [[[[|[[[videoUri]|]] rest]|]]|];
    reflexivity.
Qed.

(** ** C3: the poller waits, rechecks, and returns the keyed URI *)

(** C3. When the property [done] of the statuses read is not [true] for
    the first [n] reads and [true] at the next one,
    [generateExplanationVideo] makes exactly [n] turns of a ten-second wait
    followed by a status request.  It then returns the URI of the first of
    the videos of that last status, followed by [&key=] and the key; when
    the status has no response, no list of videos, an empty list, a first
    element without video, or a first video whose URI is absent or empty,
    it throws [Video generation failed or returned no URI]. *)
Theorem generateExplanationVideo_polls_until_done :
  forall (St : Type) (visualPrompt : jsstring) (sc : Script) (s : St)
         (w : World) (n : nat) (ops : nat -> Operation),
    (forall k, (k <= n)%nat -> statusRead sc w k = inr (ops k)) ->
    (forall k, (k < n)%nat -> done (ops k) <> Some true) ->
    done (ops n) = Some true ->
    forall fuel, (n < fuel)%nat ->
    let apiKey := or_else (API_KEY w) [] in
    let submit := EvGenerateVideos apiKey (videoParameters visualPrompt) in
    let w' := cycles apiKey ops n (countVideo (record submit w)) in
    generateExplanationVideo fuel visualPrompt sc (s, w)
    = (match response (ops n) with
       | Some {| generatedVideos :=
                   Some ({| video :=
                              Some {| video_uri := Some (c :: u) |} |} :: _) |} =>
           Return ((c :: u) ++ js "&key=" ++ apiKey)
       | _ => Throw (Error (js "Video generation failed or returned no URI"))
       end, (s, w'))
    /\ trace w' = trace w ++ submit :: cycleEvents apiKey ops n
    /\ count isTenSecondWait (cycleEvents apiKey ops n) = n
    /\ count isStatusRequest (cycleEvents apiKey ops n) = n.
Proof.
  intros St visualPrompt sc s w n ops Hreads Hnd Hd fuel Hfuel apiKey submit w'.
  split; [|split].
  - rewrite (generateExplanationVideo_done visualPrompt sc s w ops n fuel);
      [|exact Hreads | intros k Hk; now apply isDone_false, Hnd
       |now apply isDone_true | exact Hfuel].
    rewrite firstVideoUri_first. fold apiKey submit w'.
    destruct (response (ops n)) as [[[[|[[[[[|c u]|]]|]] rest]|]]|];
      reflexivity.
  - apply trace_submitted_cycles.
  - pose proof (count_cycleEvents apiKey ops n) as (H1 & H2 & _). auto.
Qed.

Lemma generateExplanationVideo_polls_witness :
  (forall k, (k <= 2)%nat ->
     statusRead twoVideosScript keyedWorld k = inr (twoVideosOps k))
  /\ (forall k, (k < 2)%nat -> done (twoVideosOps k) <> Some true)
  /\ done (twoVideosOps 2) = Some true
  /\ (2 < 3)%nat
  /\ generateExplanationVideo 3 (js "a ball") twoVideosScript (tt, keyedWorld)
     = (Return (js "https://v.example/1?alt=media&key=k3y"),
        (tt, cycles (js "k3y") twoVideosOps 2
               (countVideo
                  (record (EvGenerateVideos (js "k3y")
                             (videoParameters (js "a ball"))) keyedWorld))))
  /\ count isTenSecondWait (cycleEvents (js "k3y") twoVideosOps 2) = 2%nat
  /\ count isStatusRequest (cycleEvents (js "k3y") twoVideosOps 2) = 2%nat.
Proof.
  assert (H1 : forall k, (k <= 2)%nat ->
                 statusRead twoVideosScript keyedWorld k
                 = inr (twoVideosOps k)).
  { intros k Hk. destruct k as [|[|[|k]]]; [reflexivity .. | lia]. }
  assert (H2 : forall k, (k < 2)%nat -> done (twoVideosOps k) <> Some true).
  { intros k Hk. destruct k as [|[|k]]; [discriminate .. | lia]. }
  assert (H3 : done (twoVideosOps 2) = Some true) by reflexivity.
  assert (H4 : (2 < 3)%nat) by lia.
  pose proof (generateExplanationVideo_polls_until_done unit (js "a ball")
                twoVideosScript tt keyedWorld 2 twoVideosOps H1 H2 H3 3%nat H4)
    as (Hrun & _ & Hwaits & Hrequests).
  split; [exact H1|]. split; [exact H2|]. split; [exact H3|].
  split; [exact H4|]. split; [exact Hrun|]. split; [exact Hwaits|].
  exact Hrequests.
Defined.

(** ** C8: the loop ends only when the job is done *)

(** C8. When every status request is answered, a run of
    [generateExplanationVideo] settles exactly when the property [done] of
    some status read is [true]; when it is [true] at none, be it [false] or
    [undefined], the run is still pending after any number [fuel] of turns,
    each a ten-second wait followed by a status request: no bound on the
    number of turns, no other delay. *)
Theorem polling_terminates_iff_done :
  forall (St : Type) (visualPrompt : jsstring) (sc : Script) (s : St)
         (w : World) (ops : nat -> Operation),
    (forall k, statusRead sc w k = inr (ops k)) ->
    ((exists fuel,
         fst (generateExplanationVideo fuel visualPrompt sc (s, w)) <> Pending)
     <-> (exists k, done (ops k) = Some true))
    /\ ((forall k, done (ops k) <> Some true) ->
        forall fuel,
          let apiKey := or_else (API_KEY w) [] in
          let submit := EvGenerateVideos apiKey (videoParameters visualPrompt) in
          let w' := cycles apiKey ops fuel (countVideo (record submit w)) in
          generateExplanationVideo fuel visualPrompt sc (s, w)
          = (Pending, (s, w'))
          /\ trace w' = trace w ++ submit :: cycleEvents apiKey ops fuel
          /\ count isTenSecondWait (cycleEvents apiKey ops fuel) = fuel
          /\ count isStatusRequest (cycleEvents apiKey ops fuel) = fuel).
Proof.
  intros St visualPrompt sc s w ops Hreads. split; [split|].
  - intros [fuel Hsettled].
    destruct (first_set (fun k => isDone (ops k)) fuel)
      as [(k & _ & Hk & _)|Hnone]; [exists k; now apply isDone_true|].
    exfalso. apply Hsettled.
    now rewrite (generateExplanationVideo_pending visualPrompt sc s w ops fuel).
  - intros [k Hk]. apply isDone_true in Hk.
    destruct (first_set (fun k => isDone (ops k)) (S k))
      as [(n & _ & Hn & Hmin)|Hnone].
    + exists (S n).
      rewrite (generateExplanationVideo_done visualPrompt sc s w ops n (S n))
        by (auto; lia).
      simpl. destruct (firstVideoUri (ops n)) as [[|c u]|]; discriminate.
    + rewrite Hnone in Hk by lia. discriminate.
  - intros Hnever fuel apiKey submit w'. split; [|split].
    + apply generateExplanationVideo_pending; [now auto|].
      intros k _. now apply isDone_false.
    + apply trace_submitted_cycles.
    + pose proof (count_cycleEvents apiKey ops fuel) as (H1 & H2 & _). auto.
Qed.

Lemma polling_terminates_iff_done_witness :
  (forall k, statusRead neverDoneScript keyedWorld k = inr running)
  /\ (forall k, statusRead undefinedDoneScript keyedWorld k = inr unreported)
  /\ (forall k, statusRead doneLaterScript keyedWorld k = inr (doneLater k))
  /\ (forall fuel,
        fst (generateExplanationVideo fuel (js "a ball") neverDoneScript
               (tt, keyedWorld)) = Pending
        /\ count isTenSecondWait
             (cycleEvents (js "k3y") (fun _ => running) fuel) = fuel)
  /\ (forall fuel,
        fst (generateExplanationVideo fuel (js "a ball") undefinedDoneScript
               (tt, keyedWorld)) = Pending)
  /\ exists fuel,
       fst (generateExplanationVideo fuel (js "a ball") doneLaterScript
              (tt, keyedWorld)) <> Pending.
Proof.
  assert (H1 : forall k, statusRead neverDoneScript keyedWorld k = inr running).
  { intros k. destruct k; reflexivity. }
  assert (H2 : forall k,
             statusRead undefinedDoneScript keyedWorld k = inr unreported).
  { intros k. destruct k; reflexivity. }
  assert (H3 : forall k,
             statusRead doneLaterScript keyedWorld k = inr (doneLater k)).
  { intros k. destruct k; reflexivity. }
  split; [exact H1|]. split; [exact H2|]. split; [exact H3|].
  split; [|split].
  - intros fuel.
    destruct (polling_terminates_iff_done unit (js "a ball") neverDoneScript tt
                keyedWorld (fun _ => running) H1) as [_ Hnever].
    destruct (Hnever (fun _ => ltac:(discriminate)) fuel)
      as (Hrun & _ & Hwaits & _).
    split; [now rewrite Hrun | exact Hwaits].
  - intros fuel.
    destruct (polling_terminates_iff_done unit (js "a ball")
                undefinedDoneScript tt keyedWorld (fun _ => unreported) H2)
      as [_ Hnever].
    destruct (Hnever (fun _ => ltac:(discriminate)) fuel) as (Hrun & _).
    now rewrite Hrun.
  - destruct (polling_terminates_iff_done unit (js "a ball") doneLaterScript tt
                keyedWorld doneLater H3) as [[_ Hsettles] _].
    apply Hsettles. exists 3%nat. reflexivity.
Defined.

(** ** Whatever the service answers *)

Section AnyScript.

Context {St : Type}.
Variables (sc : Script) (s : St).

(** The loop leaves the component state alone, performs waits and status
    requests only, and returns only an operation that is done. *)
Lemma whileNotDone_effects apiKey fuel :
  forall operation w,
  exists o w' evs,
    whileNotDone fuel apiKey operation sc (s, w) = (o, (s, w'))
    /\ trace w' = trace w ++ evs
    /\ count isSubmit evs = O
    /\ count isSelect evs = O
    /\ videoCalls w' = videoCalls w
    /\ selectCalls w' = selectCalls w
    /\ API_KEY w' = API_KEY w
    /\ (forall operation', o = Return operation' -> isDone operation' = true).
Proof.
  induction fuel as [|fuel IH]; intros operation w.
  - exists Pending, w, []. simpl. rewrite app_nil_r.
    repeat split; auto. discriminate.
  - simpl. destruct (isDone operation) eqn:Hd.
    + exists (Return operation), w, []. unfold ret. rewrite app_nil_r.
      repeat split; auto. now intros ? [= <-].
    + unfold bind at 1, setTimeout, onWorld. simpl.
      unfold bind at 1, getVideosOperation, bind at 1, onWorld, settle. simpl.
      destruct (getVideosOperation_reply sc (statusCalls w)) as [e|operation'].
      * exists (Throw e), (pollCycle apiKey operation w),
          [EvSetTimeout 10000; EvGetVideosOperation apiKey operation].
        unfold throw. simpl. rewrite <- app_assoc.
        repeat split; auto. discriminate.
      * unfold ret at 1.
        destruct (IH operation'
                    (countStatus
                       (record (EvGetVideosOperation apiKey operation)
                          (record (EvSetTimeout 10000) w))))
          as (o & w' & evs & Hrun & Htr & Hsub & Hsel & Hv & Hs & Hk & Hret).
        exists o, w',
          (EvSetTimeout 10000 :: EvGetVideosOperation apiKey operation :: evs).
        rewrite Hrun, Htr. simpl. rewrite <- !app_assoc. simpl.
        repeat split; auto.
Qed.

(** A run of [generateExplanationVideo] leaves the component state alone,
    submits one job with the key of the environment, be it empty, and asks
    for no credential; the URI it returns ends with [&key=] and that key. *)
Lemma generateExplanationVideo_effects fuel visualPrompt w :
  let apiKey := or_else (API_KEY w) [] in
  exists o w' evs,
    generateExplanationVideo fuel visualPrompt sc (s, w) = (o, (s, w'))
    /\ trace w'
       = trace w ++ EvGenerateVideos apiKey (videoParameters visualPrompt) :: evs
    /\ count isSubmit evs = O
    /\ count isSelect evs = O
    /\ videoCalls w' = S (videoCalls w)
    /\ selectCalls w' = selectCalls w
    /\ API_KEY w' = API_KEY w
    /\ (forall r, o = Return r ->
          exists videoUri, videoUri <> [] /\ r = videoUri ++ js "&key=" ++ apiKey).
Proof.
  intros apiKey.
  unfold generateExplanationVideo, bind at 1, env_API_KEY. simpl.
  fold apiKey. rewrite try_catch_rethrow.
  unfold bind at 1, generateVideos, bind at 1, onWorld, settle. simpl.
  destruct (generateVideos_reply sc (videoCalls w)) as [e|operation].
  - exists (Throw e),
      (countVideo
         (record (EvGenerateVideos apiKey (videoParameters visualPrompt)) w)),
      [].
    unfold throw. simpl. repeat split; auto. discriminate.
  - unfold ret at 1.
    destruct (whileNotDone_effects apiKey fuel operation
                (countVideo
                   (record (EvGenerateVideos apiKey (videoParameters visualPrompt))
                      w)))
      as (o & w' & evs & Hrun & Htr & Hsub & Hsel & Hv & Hs & Hk & Hret).
    unfold bind. rewrite Hrun.
    destruct o as [operation'|e|].
    + destruct (firstVideoUri operation') as [[|c u]|] eqn:Huri.
      * eexists (Throw _), w', evs. unfold throw. rewrite Htr. simpl.
        rewrite <- app_assoc.
        repeat split; auto. discriminate.
      * eexists (Return _), w', evs. unfold ret. rewrite Htr. simpl.
        rewrite <- app_assoc.
        repeat split; auto. intros r [= <-]. exists (c :: u). split; [discriminate|reflexivity].
      * eexists (Throw _), w', evs. unfold throw. rewrite Htr. simpl.
        rewrite <- app_assoc.
        repeat split; auto. discriminate.
    + exists (Throw e), w', evs. rewrite Htr. simpl. rewrite <- app_assoc.
      repeat split; auto. discriminate.
    + exists Pending, w', evs. rewrite Htr. simpl. rewrite <- app_assoc.
      repeat split; auto. discriminate.
Qed.

End AnyScript.

(** ** C10: only the video path lacks the missing-key check *)

(** C10. With no key in the environment (absent or empty), [solveProblem],
    [performSearch] and [translateText] throw [API Key not found] without
    any effect, hence before any remote call, whereas
    [generateExplanationVideo] submits its job with the empty key and, when
    it returns, returns the video's URI followed by [&key=] and nothing. *)
Theorem only_video_lacks_key_precheck :
  forall (St : Type) (sc : Script) (s : St) (w : World),
    truthy (API_KEY w) = false ->
    (forall imageFile,
        solveProblem imageFile sc (s, w)
        = (Throw (Error (js "API Key not found")), (s, w)))
    /\ (forall query,
           performSearch query sc (s, w)
           = (Throw (Error (js "API Key not found")), (s, w)))
    /\ (forall sourceText targetLanguage,
           translateText sourceText targetLanguage sc (s, w)
           = (Throw (Error (js "API Key not found")), (s, w)))
    /\ (forall fuel visualPrompt,
           exists o w' evs,
             generateExplanationVideo fuel visualPrompt sc (s, w) = (o, (s, w'))
             /\ trace w'
                = trace w ++ EvGenerateVideos [] (videoParameters visualPrompt) :: evs
             /\ (forall r, o = Return r ->
                   exists videoUri, videoUri <> [] /\ r = videoUri ++ js "&key=")).
Proof.
  intros St sc s w Hkey.
  pose proof (or_else_falsy _ [] Hkey) as Hempty.
  split; [|split; [|split]].
  - intros imageFile. unfold solveProblem, bind at 1, env_API_KEY. simpl.
    rewrite Hempty. reflexivity.
  - intros query. unfold performSearch, bind at 1, env_API_KEY. simpl.
    rewrite Hempty. reflexivity.
  - intros sourceText targetLanguage.
    unfold translateText, bind at 1, env_API_KEY. simpl.
    rewrite Hempty. reflexivity.
  - intros fuel visualPrompt.
    destruct (generateExplanationVideo_effects sc s fuel visualPrompt w)
      as (o & w' & evs & Hrun & Htr & _ & _ & _ & _ & _ & Hret).
    rewrite Hempty in Htr, Hret.
    exists o, w', evs. split; [exact Hrun|]. split; [exact Htr|].
    intros r Hr. destruct (Hret r Hr) as (videoUri & Hne & ->).
    exists videoUri. split; [exact Hne|]. now rewrite app_nil_r.
Qed.

Lemma only_video_lacks_key_precheck_witness :
  truthy (API_KEY keylessWorld) = false
  /\ solveProblem pngFile readyScript (tt, keylessWorld)
     = (Throw (Error (js "API Key not found")), (tt, keylessWorld))
  /\ generateExplanationVideo 1 (js "a ball") readyScript (tt, keylessWorld)
     = (Return (js "https://v.example/1?alt=media&key="),
        (tt, countVideo
               (record (EvGenerateVideos [] (videoParameters (js "a ball")))
                  keylessWorld))).
Proof.
  destruct (only_video_lacks_key_precheck unit readyScript tt keylessWorld
              eq_refl) as (Hsolve & _ & _ & _).
  split; [reflexivity|]. split; [apply Hsolve | reflexivity].
Defined.

(** ** Lists without repetitions *)

Lemma elem_of_nub (x : jsstring) (l : list jsstring) : x ∈ nub l <-> x ∈ l.
Proof.
  induction l as [|y l IH]; simpl; [reflexivity|].
  rewrite !elem_of_cons, list_elem_of_filter, IH.
  destruct (decide (x = y)); tauto.
Qed.

Lemma NoDup_nub (l : list jsstring) : NoDup (nub l).
Proof.
  induction l as [|y l IH]; simpl; [constructor|].
  apply NoDup_cons. split.
  - rewrite list_elem_of_filter. tauto.
  - now apply NoDup_filter.
Qed.

Lemma filter_ne_absent (x : jsstring) (l : list jsstring) :
  x ∉ l -> filter (fun y => y ≠ x) l = l.
Proof.
  induction l as [|y l IH]; intros Hx; [reflexivity|].
  rewrite not_elem_of_cons in Hx. destruct Hx as [Hxy Hx].
  rewrite filter_cons_True by congruence. now rewrite IH.
Qed.

Lemma nub_NoDup (l : list jsstring) : NoDup l -> nub l = l.
Proof.
  induction 1 as [|x l Hx Hl IH]; simpl; [reflexivity|].
  rewrite IH. now rewrite filter_ne_absent.
Qed.

Lemma nub_snoc (l : list jsstring) (k : jsstring) :
  nub (l ++ [k]) = nub l ++ (if decide (k ∈ l) then [] else [k]).
Proof.
  induction l as [|x l IH].
  - destruct (decide (k ∈ [])) as [Hin|_]; [inversion Hin | reflexivity].
  - cbn [app nub]. rewrite IH, filter_app. cbn [app]. f_equal. f_equal.
    destruct (decide (k = x)) as [->|Hkx].
    + rewrite (decide_True (P := x ∈ x :: l)) by left.
      case_decide; [reflexivity|].
      now rewrite filter_cons_False by tauto.
    + destruct (decide (k ∈ l)) as [Hin|Hnin].
      * rewrite (decide_True (P := k ∈ x :: l)) by now right. reflexivity.
      * rewrite (decide_False (P := k ∈ x :: l))
          by (rewrite elem_of_cons; tauto).
        now rewrite filter_cons_True by congruence.
Qed.

(** ** JavaScript maps built from entries *)

Section JsMap.

Context {V : Type}.
Implicit Types (m entries : list (jsstring * V)) (k : jsstring) (v : V).

Lemma Map_new_snoc entries k v :
  Map_new (entries ++ [(k, v)]) = Map_set k v (Map_new entries).
Proof. unfold Map_new. now rewrite fold_left_app. Qed.

Lemma keys_Map_set k v m :
  map fst (Map_set k v m)
  = map fst m ++ (if decide (k ∈ map fst m) then [] else [k]).
Proof.
  induction m as [|[k' v'] m IH].
  - destruct (decide (k ∈ map fst [])) as [Hin|_];
      [inversion Hin | reflexivity].
  - cbn [Map_set map fst]. destruct (decide (k' = k)) as [->|Hne].
    + cbn [map fst]. rewrite (decide_True (P := k ∈ k :: map fst m)) by left.
      now rewrite app_nil_r.
    + cbn [map fst app]. rewrite IH. f_equal.
      destruct (decide (k ∈ map fst m)) as [Hin|Hnin].
      * now rewrite (decide_True (P := k ∈ k' :: map fst m)) by now right.
      * now rewrite (decide_False (P := k ∈ k' :: map fst m))
          by (rewrite elem_of_cons; intros [?|?]; auto).
Qed.

(** The keys of a map are those of its entries, each at its first place. *)
Lemma keys_Map_new entries : map fst (Map_new entries) = nub (map fst entries).
Proof.
  induction entries as [|[k v] entries IH] using rev_ind; [reflexivity|].
  rewrite Map_new_snoc, keys_Map_set, IH, map_app. cbn [map fst].
  rewrite nub_snoc.
  f_equal. destruct (decide (k ∈ nub (map fst entries))) as [Hin|Hnin].
  - now rewrite (decide_True (P := k ∈ map fst entries))
      by now apply elem_of_nub.
  - now rewrite (decide_False (P := k ∈ map fst entries))
      by now rewrite <- elem_of_nub.
Qed.

Lemma elem_of_Map_set k v m k' v' :
  NoDup (map fst m) ->
  (k', v') ∈ Map_set k v m ->
  (k' = k /\ v' = v) \/ (k' <> k /\ (k', v') ∈ m).
Proof.
  induction m as [|[k0 v0] m IH]; simpl; intros Hnd Hin.
  - apply list_elem_of_singleton in Hin. left. now inversion Hin.
  - apply NoDup_cons in Hnd. destruct Hnd as [Hk0 Hnd].
    destruct (decide (k0 = k)) as [->|Hne].
    + apply elem_of_cons in Hin. destruct Hin as [Heq|Hin].
      * left. now inversion Heq.
      * right. split; [|now right].
        intros ->. apply Hk0.
        change k with (fst (k, v')). apply list_elem_of_In, in_map.
        now apply list_elem_of_In.
    + apply elem_of_cons in Hin. destruct Hin as [Heq|Hin].
      * right. inversion Heq; subst. split; [congruence|left].
      * destruct (IH Hnd Hin) as [?|[? ?]]; [now left|].
        right. split; [assumption|now right].
Qed.

(** The value under a key is that of the last entry with this key. *)
Lemma last_entry_Map_new entries k v :
  (k, v) ∈ Map_new entries ->
  last (filter (fun e => fst e = k) entries) = Some (k, v).
Proof.
  revert k v.
  induction entries as [|[k0 v0] entries IH] using rev_ind; intros k v Hin.
  - inversion Hin.
  - rewrite Map_new_snoc in Hin.
    apply elem_of_Map_set in Hin.
    + rewrite filter_app. destruct Hin as [[-> ->]|[Hne Hin]].
      * rewrite (filter_cons_True _ (k0, v0)) by reflexivity.
        rewrite filter_nil. apply last_snoc.
      * rewrite (filter_cons_False _ (k0, v0)) by (simpl; congruence).
        rewrite filter_nil, app_nil_r. now apply IH.
    + rewrite keys_Map_new. apply NoDup_nub.
Qed.

End JsMap.

(** ** C1: which citations [performSearch] keeps *)

Lemma filter_entries (u : jsstring) (sources : list Source) :
  filter (fun e : jsstring * Source => fst e = u)
    (map (fun s => (uri s, s)) sources)
  = map (fun s => (uri s, s)) (filter (fun s => uri s = u) sources).
Proof.
  induction sources as [|s0 sources IH]; [reflexivity|].
  cbn [map]. destruct (decide (uri s0 = u)) as [Hu|Hu].
  - rewrite !filter_cons_True by assumption. cbn [map]. now rewrite IH.
  - now rewrite !filter_cons_False by assumption.
Qed.

Lemma last_map {A B} (f : A -> B) (l : list A) : last (map f l) = f <$> last l.
Proof. exact (fmap_last f l). Qed.

(** Of the sources with one URI, the map keeps the last. *)
Lemma last_uniqueSources (sources : list Source) (src : Source) :
  src ∈ uniqueSources sources ->
  last (filter (fun s' => uri s' = uri src) sources) = Some src.
Proof.
  unfold uniqueSources, Map_values. intros Hin.
  apply list_elem_of_In, in_map_iff in Hin. destruct Hin as ([k v] & <- & Hin).
  apply list_elem_of_In, last_entry_Map_new in Hin.
  rewrite filter_entries, last_map in Hin.
  destruct (last (filter (fun s => uri s = k) sources)) as [s0|] eqn:Hlast;
    [|discriminate].
  simpl in Hin. injection Hin as Hk ->. subst k. exact Hlast.
Qed.

(** The URIs kept are those cited, each once, in the order in which they
    first occur. *)
Lemma uris_uniqueSources (sources : list Source) :
  map uri (uniqueSources sources) = nub (map uri sources).
Proof.
  unfold uniqueSources, Map_values.
  replace (map uri sources)
    with (map fst (map (fun s => (uri s, s)) sources))
    by (now rewrite map_map).
  rewrite <- keys_Map_new, map_map. apply map_ext_in. intros [k v] Hin.
  apply list_elem_of_In, last_entry_Map_new in Hin.
  rewrite filter_entries, last_map in Hin.
  destruct (last (filter (fun s => uri s = k) sources)); [|discriminate].
  simpl in Hin. injection Hin as <- <-. reflexivity.
Qed.

(** The sources of a chunk list are its citations with a URI and a title,
    both non-empty. *)
Lemma elem_of_webSources (chunks : list GroundingChunk) (src : Source) :
  src ∈ webSources chunks
  <-> exists chunk wb,
        chunk ∈ chunks /\ web chunk = Some wb
        /\ web_uri wb = Some (uri src) /\ web_title wb = Some (title src)
        /\ uri src <> [] /\ title src <> [].
Proof.
  unfold webSources. rewrite list_elem_of_In, in_map_iff. split.
  - intros (chunk & <- & Hin).
    apply list_elem_of_In, list_elem_of_filter in Hin. destruct Hin as [Hp Hin].
    unfold hasUriAndTitle in Hp. apply Is_true_true, andb_true_iff in Hp.
    destruct Hp as [Hu Ht]. unfold toSource.
    destruct (web chunk) as [[wu wt]|] eqn:Hweb; [|discriminate].
    simpl in Hu, Ht |- *.
    destruct wu as [[|c u]|]; try discriminate.
    destruct wt as [[|d t]|]; try discriminate.
    exists chunk, {| web_uri := Some (c :: u); web_title := Some (d :: t) |}.
    simpl. repeat split; auto; discriminate.
  - intros (chunk & wb & Hin & Hweb & Hu & Ht & Hune & Htne).
    exists chunk. split.
    + unfold toSource. rewrite Hweb. simpl. rewrite Hu, Ht. simpl.
      now destruct src.
    + apply list_elem_of_In, list_elem_of_filter. split; [|exact Hin].
      unfold hasUriAndTitle. rewrite Hweb. simpl. rewrite Hu, Ht.
      destruct (uri src), (title src); try congruence. exact I.
Qed.

(** What a successful search returns as sources. *)
Lemma performSearch_sources {St} query sc (s : St) w searchResponse r σ' :
  generateContent_reply sc (contentCalls w) = inr searchResponse ->
  performSearch query sc (s, w) = (Return r, σ') ->
  sr_webSources r = uniqueSources (webSources (groundingChunksOf searchResponse)).
Proof.
  intros Hreply. unfold performSearch, bind at 1, env_API_KEY. simpl.
  case_bool_decide; [discriminate|].
  rewrite try_catch_rethrow.
  unfold bind, try_catch, generateContent, onWorld, settle, ret, throw. simpl.
  rewrite Hreply. simpl.
  destruct (generateContent_reply sc (S (contentCalls w))); simpl;
    intros Hrun; inversion Hrun; reflexivity.
Qed.




(** ** What [JSON.stringify] writes of strings, [JSON.parse] reads back *)

Local Open Scope N_scope.

Lemma hexValue_hexDigit (d : N) : d < 16 -> hexValue (hexDigit d) = Some d.
Proof.
  intros Hd. unfold hexValue, hexDigit, isDigit.
  destruct (N.ltb_spec d 10).
  - replace (48 <=? 48 + d) with true by (symmetry; apply N.leb_le; lia).
    replace (48 + d <=? 57) with true by (symmetry; apply N.leb_le; lia).
    cbn [andb]. f_equal. lia.
  - replace (87 + d <=? 57) with false by (symmetry; apply N.leb_gt; lia).
    rewrite andb_false_r.
    replace (97 <=? 87 + d) with true by (symmetry; apply N.leb_le; lia).
    replace (87 + d <=? 102) with true by (symmetry; apply N.leb_le; lia).
    cbn [andb]. f_equal. lia.
Qed.

Lemma hex4_escapeUnit (c : N) :
  c < 65536 ->
  hex4 (hexDigit (c / 4096 mod 16)) (hexDigit (c / 256 mod 16))
       (hexDigit (c / 16 mod 16)) (hexDigit (c mod 16)) = Some c.
Proof.
  intros Hc. unfold hex4.
  rewrite !hexValue_hexDigit by (apply N.mod_lt; lia). f_equal.
  replace (c / 4096) with (c / 16 / 16 / 16)
    by (rewrite !N.Div0.div_div; reflexivity).
  replace (c / 256) with (c / 16 / 16)
    by (rewrite !N.Div0.div_div; reflexivity).
  pose proof (N.div_mod c 16 ltac:(lia)) as H0.
  pose proof (N.div_mod (c / 16) 16 ltac:(lia)) as H1.
  pose proof (N.div_mod (c / 16 / 16) 16 ltac:(lia)) as H2.
  assert (Htop : c / 16 / 16 / 16 < 16).
  { rewrite !N.Div0.div_div. apply N.Div0.div_lt_upper_bound. simpl. lia. }
  rewrite (N.mod_small (c / 16 / 16 / 16)) by assumption.
  generalize dependent (c / 16 / 16 / 16). generalize dependent (c mod 16).
  generalize dependent ((c / 16) mod 16).
  generalize dependent ((c / 16 / 16) mod 16).
  generalize dependent (c / 16 / 16). generalize dependent (c / 16).
  intros. lia.
Qed.

Lemma parseStringBody_u (h1 h2 h3 h4 : N) (r acc : jsstring) :
  parseStringBody (92 :: 117 :: h1 :: h2 :: h3 :: h4 :: r) acc
  = match hex4 h1 h2 h3 h4 with
    | Some u => parseStringBody r (u :: acc)
    | None => None
    end.
Proof. reflexivity. Qed.

Lemma parseStringBody_plain (c : N) (r acc : jsstring) :
  c <> 34 -> c <> 92 -> 32 <= c ->
  parseStringBody (c :: r) acc = parseStringBody r (c :: acc).
Proof.
  intros H34 H92 H32. cbn [parseStringBody].
  rewrite (proj2 (N.eqb_neq c 34)), (proj2 (N.eqb_neq c 92)) by assumption.
  now rewrite (proj2 (N.ltb_ge c 32)) by assumption.
Qed.

Lemma parseStringBody_escapeUnit (c : N) (tail acc : jsstring) :
  c < 65536 ->
  parseStringBody (escapeUnit c ++ tail) acc = parseStringBody tail (c :: acc).
Proof.
  intros Hc. unfold escapeUnit. cbn [app].
  now rewrite parseStringBody_u, hex4_escapeUnit.
Qed.

Lemma surrogate_bounds (c : N) :
  isHighSurrogate c || isLowSurrogate c = true -> 55296 <= c < 57344.
Proof.
  unfold isHighSurrogate, isLowSurrogate.
  rewrite orb_true_iff, !andb_true_iff, !N.leb_le. lia.
Qed.

Lemma parseStringBody_quoteUnit (c : N) (tail acc : jsstring) :
  parseStringBody (quoteUnit c ++ tail) acc = parseStringBody tail (c :: acc).
Proof.
  unfold quoteUnit.
  destruct (N.eqb_spec c 34) as [->|H34]; [reflexivity|].
  destruct (N.eqb_spec c 92) as [->|H92]; [reflexivity|].
  destruct (N.eqb_spec c 8) as [->|H8]; [reflexivity|].
  destruct (N.eqb_spec c 12) as [->|H12]; [reflexivity|].
  destruct (N.eqb_spec c 10) as [->|H10]; [reflexivity|].
  destruct (N.eqb_spec c 13) as [->|H13]; [reflexivity|].
  destruct (N.eqb_spec c 9) as [->|H9]; [reflexivity|].
  destruct (N.ltb_spec c 32) as [Hlow|Hhigh].
  { apply parseStringBody_escapeUnit. lia. }
  destruct (isHighSurrogate c || isLowSurrogate c) eqn:Hsur.
  { apply parseStringBody_escapeUnit. apply surrogate_bounds in Hsur. lia. }
  cbn [app]. now apply parseStringBody_plain.
Qed.

Lemma quoteBody_pair (c d : N) (r : jsstring) :
  quoteBody (c :: d :: r)
  = if isHighSurrogate c && isLowSurrogate d
    then c :: d :: quoteBody r
    else quoteUnit c ++ quoteBody (d :: r).
Proof. reflexivity. Qed.

Lemma parseStringBody_quoteBody_le (n : nat) :
  forall s tail acc : jsstring,
    (length s <= n)%nat ->
    parseStringBody (quoteBody s ++ 34 :: tail) acc = Some (rev acc ++ s, tail).
Proof.
  induction n as [|n IH]; intros s tail acc Hlen.
  - destruct s; [|simpl in Hlen; lia]. cbn. now rewrite app_nil_r.
  - destruct s as [|c [|d r]].
    + cbn. now rewrite app_nil_r.
    + cbn [quoteBody]. rewrite parseStringBody_quoteUnit. reflexivity.
    + rewrite quoteBody_pair.
      destruct (isHighSurrogate c && isLowSurrogate d) eqn:Hpair.
      * apply andb_true_iff in Hpair. destruct Hpair as [Hc Hd].
        assert (Hcb : 55296 <= c < 57344)
          by (apply surrogate_bounds; rewrite Hc; reflexivity).
        assert (Hdb : 55296 <= d < 57344)
          by (apply surrogate_bounds; rewrite Hd; apply orb_true_r).
        cbn [app]. rewrite !parseStringBody_plain by lia.
        rewrite IH by (simpl in Hlen |- *; lia).
        cbn [rev]. now rewrite <- !app_assoc.
      * rewrite <- app_assoc, parseStringBody_quoteUnit.
        rewrite IH by (simpl in Hlen |- *; lia).
        cbn [rev]. now rewrite <- !app_assoc.
Qed.

Lemma parseValue_string (f : nat) (r : jsstring) :
  parseValue (S f) (34 :: r)
  = match parseStringBody r [] with
    | Some (str, r') => Some (JString str, r')
    | None => None
    end.
Proof. reflexivity. Qed.

Lemma parseValue_quote (f : nat) (s tail : jsstring) :
  parseValue (S f) (quote s ++ tail) = Some (JString s, tail).
Proof.
  unfold quote. cbn [app]. rewrite <- app_assoc. cbn [app].
  rewrite parseValue_string.
  now rewrite (parseStringBody_quoteBody_le (length s) s tail []) by lia.
Qed.

(** The text of an object whose values are strings. *)
Lemma parseMembers_string_key (f : nat) (r : jsstring)
    (acc : list (jsstring * JSON)) :
  parseMembers (S f) (34 :: r) acc
  = match parseStringBody r [] with
    | None => None
    | Some (k, r1) =>
        match skipSpace r1 with
        | c :: r2 =>
            if c =? 58 then
              match parseValue f r2 with
              | None => None
              | Some (v, r3) =>
                  match skipSpace r3 with
                  | d :: r4 =>
                      if d =? 44 then parseMembers f r4 ((k, v) :: acc)
                      else if d =? 125 then
                        Some (JObject (rev ((k, v) :: acc)), r4)
                      else None
                  | [] => None
                  end
              end
            else None
        | [] => None
        end
    end.
Proof. reflexivity. Qed.

Lemma parseMembers_strings (members : list (jsstring * jsstring)) :
  forall (k v : jsstring) (fuel : nat) (tail : jsstring)
         (acc : list (jsstring * JSON)),
    (length members + 2 <= fuel)%nat ->
    parseMembers fuel
      (joinComma (map (fun kv => quote (fst kv) ++ [58] ++ quote (snd kv))
                    ((k, v) :: members))
       ++ 125 :: tail) acc
    = Some (JObject (rev acc
                     ++ map (fun kv => (fst kv, JString (snd kv)))
                          ((k, v) :: members)), tail).
Proof.
  induction members as [|[k' v'] members IH]; intros k v fuel tail acc Hfuel;
    destruct fuel as [|[|f]]; try (simpl in Hfuel; lia).
  - cbn [map joinComma fst snd]. unfold quote at 1.
    rewrite <- !app_assoc. cbn [app].
    rewrite parseMembers_string_key.
    rewrite (parseStringBody_quoteBody_le (length k) k _ []) by lia.
    cbn [rev app]. change (skipSpace (58 :: ?r)) with (58 :: r).
    change (58 =? 58) with true. cbv iota.
    rewrite parseValue_quote. reflexivity.
  - change (joinComma
              (map (fun kv => quote (fst kv) ++ [58] ++ quote (snd kv))
                 ((k, v) :: (k', v') :: members)))
      with ((quote k ++ [58] ++ quote v) ++ [44]
            ++ joinComma
                 (map (fun kv => quote (fst kv) ++ [58] ++ quote (snd kv))
                    ((k', v') :: members))).
    unfold quote at 1. rewrite <- !app_assoc. cbn [app].
    rewrite parseMembers_string_key.
    rewrite (parseStringBody_quoteBody_le (length k) k _ []) by lia.
    cbn [rev app]. change (skipSpace (58 :: ?r)) with (58 :: r).
    change (58 =? 58) with true. cbv iota.
    rewrite parseValue_quote.
    change (skipSpace (44 :: ?r)) with (44 :: r).
    change (44 =? 44) with true. cbv iota.
    rewrite IH by (simpl in Hfuel |- *; lia).
    cbn [rev map fst snd]. now rewrite <- app_assoc.
Qed.

Lemma length_quote (str : jsstring) : (2 <= length (quote str))%nat.
Proof. unfold quote. rewrite !length_app. simpl. lia. Qed.

(** The text of a solution object parses to that object. *)
Lemma JSON_parse_solutionObject (markdown prompt conf : jsstring) :
  JSON_parse (JSON_stringify (solutionObject markdown prompt conf))
  = Some (solutionObject markdown prompt conf).
Proof.
  unfold solutionObject.
  set (members := [(js "visualPrompt", prompt); (js "confidence", conf)]).
  assert (Htext :
    JSON_stringify
      (JObject [(js "solutionMarkdown", JString markdown);
                (js "visualPrompt", JString prompt);
                (js "confidence", JString conf)])
    = 123 :: 34 :: quoteBody (js "solutionMarkdown") ++ [34] ++ [58]
        ++ quote markdown ++ [44]
        ++ joinComma
             (map (fun kv => quote (fst kv) ++ [58] ++ quote (snd kv)) members)
        ++ [125]).
  { cbn [JSON_stringify map joinComma fst snd members]. unfold quote at 1.
    rewrite <- !app_assoc. reflexivity. }
  assert (Hrest :
    joinComma
      (map (fun kv => quote (fst kv) ++ [58] ++ quote (snd kv))
         ((js "solutionMarkdown", markdown) :: members))
    ++ [125]
    = 34 :: quoteBody (js "solutionMarkdown") ++ [34] ++ [58]
        ++ quote markdown ++ [44]
        ++ joinComma
             (map (fun kv => quote (fst kv) ++ [58] ++ quote (snd kv)) members)
        ++ [125]).
  { cbn [map joinComma fst snd members]. unfold quote at 1.
    rewrite <- !app_assoc. reflexivity. }
  rewrite Htext, <- Hrest. unfold JSON_parse.
  set (text := 123 :: _).
  assert (Hfuel : (4 <= length text)%nat).
  { unfold text. rewrite Hrest. cbn [length]. rewrite !length_app.
    cbn [length]. lia. }
  destruct (length text) as [|[|[|[|f]]]] eqn:Hlength; try lia.
  unfold text. rewrite Hrest at 1.
  change (parseValue (S (S (S (S (S f))))) (123 :: 34 :: ?r))
    with (parseMembers (S (S (S (S f)))) (34 :: r) []).
  rewrite <- Hrest.
  rewrite (parseMembers_strings members (js "solutionMarkdown") markdown
             (S (S (S (S f)))) [] []) by (simpl; lia).
  reflexivity.
Qed.

Local Close Scope N_scope.

(** ** C5: the confidence of a solve response *)

(** C5, as the code has it.  [solveProblem] asks the service for a response
    whose confidence is one of High, Medium and Low, under a schema that
    requires the three fields, and checks nothing of what comes back: with a
    key and a readable image, whatever value the text of the response parses
    to is returned as it is, after the one request.  In particular, for
    every string, the response whose text is the JSON text of a solution
    with that string as its confidence is returned with that confidence. *)
Theorem solveProblem_returns_any_confidence :
  forall (St : Type) (imageFile : File) (url : jsstring) (sc : Script)
         (s : St) (w : World) (response : GenerateContentResponse),
    truthy (API_KEY w) = true ->
    file_dataURL imageFile = Some url ->
    generateContent_reply sc (contentCalls w) = inr response ->
    let imagePart :=
      {| data := split_comma_1 url; mimeType := file_type imageFile |} in
    let request :=
      EvGenerateContent (or_else (API_KEY w) []) (solveParameters imagePart) in
    let w' :=
      countContent (record request (record (EvReadAsDataURL imageFile) w)) in
    (config (solveParameters imagePart) ?> responseSchema)
    = Some
        (SchemaObject
           [(js "solutionMarkdown", SchemaString None);
            (js "visualPrompt", SchemaString None);
            (js "confidence",
             SchemaString (Some [js "High"; js "Medium"; js "Low"]))]
           [js "solutionMarkdown"; js "visualPrompt"; js "confidence"])
    /\ (forall (t : jsstring) (v : JSON),
          text response = Some t -> t <> [] -> JSON_parse t = Some v ->
          solveProblem imageFile sc (s, w) = (Return v, (s, w')))
    /\ (forall markdown prompt conf : jsstring,
          text response
          = Some (JSON_stringify (solutionObject markdown prompt conf)) ->
          solveProblem imageFile sc (s, w)
          = (Return (solutionObject markdown prompt conf), (s, w'))
          /\ get_prop (solutionObject markdown prompt conf) (js "confidence")
             = Some (JString conf)).
Proof.
  intros St imageFile url sc s w response Hkey Hurl Hreply imagePart request w'.
  destruct (or_else_truthy _ [] Hkey) as [_ Hne].
  assert (Hparsed : forall (t : jsstring) (v : JSON),
             text response = Some t -> t <> [] -> JSON_parse t = Some v ->
             solveProblem imageFile sc (s, w) = (Return v, (s, w'))).
  { intros t v Htext Hfull Hparse.
    unfold solveProblem, fileToGenerativePart. run_async.
    rewrite bool_decide_eq_false_2 by exact Hne. rewrite Hurl.
    cbn [contentCalls record]. rewrite Hreply, Htext.
    destruct t as [|c t]; [contradiction|]. now rewrite Hparse. }
  split; [reflexivity|]. split; [exact Hparsed|].
  intros markdown prompt conf Htext. split; [|reflexivity].
  apply (Hparsed _ _ Htext); [discriminate|].
  apply JSON_parse_solutionObject.
Qed.

Lemma solveProblem_returns_any_confidence_witness :
  truthy (API_KEY keyedWorld) = true
  /\ file_dataURL pngFile = Some (js "data:image/png;base64,iVBORw0KGgo=")
  /\ generateContent_reply (solveScript "Perhaps") (contentCalls keyedWorld)
     = inr (textResponse (Some (JSON_stringify (solveValue "Perhaps"))))
  /\ fst (solveProblem pngFile (solveScript "Perhaps") (tt, keyedWorld))
     = Return (solveValue "Perhaps")
  /\ get_prop (solveValue "Perhaps") (js "confidence")
     = Some (JString (js "Perhaps"))
  /\ (js "Perhaps" ∉ [js "High"; js "Medium"; js "Low"]).
Proof.
  assert (H1 : truthy (API_KEY keyedWorld) = true) by reflexivity.
  assert (H2 : file_dataURL pngFile
               = Some (js "data:image/png;base64,iVBORw0KGgo="))
    by reflexivity.
  assert (H3 : generateContent_reply (solveScript "Perhaps")
                 (contentCalls keyedWorld)
               = inr (textResponse
                        (Some (JSON_stringify (solveValue "Perhaps")))))
    by reflexivity.
  split; [exact H1|]. split; [exact H2|]. split; [exact H3|].
  destruct (solveProblem_returns_any_confidence unit pngFile _
              (solveScript "Perhaps") tt keyedWorld _ H1 H2 H3)
    as (_ & _ & Hany).
  destruct (Hany (js "**Step 1: Given**") (js "A ball on an inclined plane")
              (js "Perhaps") eq_refl) as (Hrun & Hconfidence).
  split; [now rewrite Hrun|]. split; [exact Hconfidence|].
  rewrite !elem_of_cons, elem_of_nil.
  intros [H|[H|[H|H]]]; [discriminate H .. | exact H].
Defined.

(** C5 as stated fails: a response whose confidence is a fourth value is
    parsed and returned like any other. *)
Lemma solveProblem_returns_fourth_confidence :
  fst (solveProblem pngFile (solveScript "Certain") (tt, keyedWorld))
  = Return (solveValue "Certain")
  /\ get_prop (solveValue "Certain") (js "confidence")
     = Some (JString (js "Certain"))
  /\ (js "Certain" ∉ [js "High"; js "Medium"; js "Low"])
  /\ conforms solveSchema (solveValue "Certain") = false.
Proof.
  split; [vm_compute; reflexivity|]. split; [reflexivity|].
  split; [|reflexivity].
  rewrite !elem_of_cons. intros [H|[H|[H|H]]]; try discriminate. inversion H.
Qed.

(** ** C7: the search history *)

Lemma addToHistory_run sc (s : AppState) w query :
  exists w',
    addToHistory query sc (s, w)
    = (Return tt, (setSearchHistory (historyAfter (searchHistory s) query) s, w'))
    /\ trace w' = trace w.
Proof.
  unfold addToHistory, historyAfter. case_bool_decide.
  - exists w. run_async. destruct s; auto.
  - eexists. run_async. split; reflexivity.
Qed.

Lemma addAll_run sc queries :
  forall (s : AppState) w,
  exists w',
    addAll queries sc (s, w)
    = (Return tt,
       (setSearchHistory (fold_left historyAfter queries (searchHistory s)) s,
        w'))
    /\ trace w' = trace w.
Proof.
  induction queries as [|q queries IH]; intros s w.
  - exists w. simpl. destruct s; auto.
  - destruct (addToHistory_run sc s w q) as (w1 & Hq & Htr1).
    destruct (IH (setSearchHistory (historyAfter (searchHistory s) q) s) w1)
      as (w2 & Hrest & Htr2).
    exists w2. cbn [addAll fold_left]. unfold bind. rewrite Hq, Hrest.
    split; [reflexivity | congruence].
Qed.

Lemma length_filter_ne (c : jsstring) (l : list jsstring) :
  NoDup l -> length l <= S (length (filter (fun q => q ≠ c) l)).
Proof.
  induction 1 as [|x l Hx Hl IH]; simpl; [lia|].
  destruct (decide (x = c)) as [->|Hne].
  - rewrite filter_cons_False by tauto.
    rewrite filter_ne_absent by assumption. lia.
  - rewrite filter_cons_True by assumption. simpl. lia.
Qed.

(** Cutting a duplicate-free list to [n + 1] entries before an entry is
    removed does not change the first [n] entries that remain. *)
Lemma take_filter_ne_take (c : jsstring) (n : nat) (l : list jsstring) :
  NoDup l ->
  take n (filter (fun q => q ≠ c) (take (S n) l))
  = take n (filter (fun q => q ≠ c) l).
Proof.
  intros Hl. destruct (decide (length l <= S n)) as [Hshort|Hlong].
  - now rewrite (take_ge l (S n)) by exact Hshort.
  - rewrite <- (take_drop (S n) l) at 2. rewrite filter_app.
    rewrite take_app_le; [reflexivity|].
    pose proof (length_filter_ne c (take (S n) l)
                  (sublist_NoDup _ _ Hl (sublist_take l (S n)))) as Hlen.
    rewrite length_take_le in Hlen by lia. lia.
Qed.

Lemma cleaned_snoc queries q :
  cleaned (queries ++ [q])
  = cleaned queries ++ (if bool_decide (trim q = []) then [] else [trim q]).
Proof.
  unfold cleaned. rewrite map_app, filter_app. f_equal. simpl.
  case_bool_decide.
  - now rewrite filter_cons_False by tauto.
  - now rewrite filter_cons_True by assumption.
Qed.

(** The history is the trimmed non-blank queries, latest first and each
    once, followed by what was there, cut to five entries. *)
Lemma fold_historyAfter queries h0 :
  NoDup h0 -> length h0 <= 5 ->
  fold_left historyAfter queries h0
  = take 5 (nub (rev (cleaned queries) ++ h0)).
Proof.
  intros Hnd Hlen. induction queries as [|q queries IH] using rev_ind.
  - simpl. rewrite nub_NoDup by assumption. now rewrite take_ge.
  - rewrite fold_left_app, cleaned_snoc, rev_app_distr. cbn [fold_left].
    rewrite IH. unfold historyAfter. case_bool_decide; [reflexivity|].
    cbn [rev app nub]. unfold newHistory, slice0. cbn [take]. f_equal.
    apply (take_filter_ne_take (trim q) 4). apply NoDup_nub.
Qed.

(** C7, as the code has it.  Queries are trimmed before they are stored and
    blank ones are ignored.  Whatever queries are added to a history without
    duplicates and of at most five entries, the history holds the trimmed
    non-blank queries latest first, each once, then what remains of the
    earlier entries, cut to five: it has no duplicates and at most five
    entries.  Adding to a history of five a query whose trimmed text is not
    empty and is none of the five entries puts that text first and drops the
    last entry only. *)
Theorem searchHistory_invariant :
  forall (sc : Script) (s : AppState) (w : World) (queries : list jsstring),
    NoDup (searchHistory s) ->
    length (searchHistory s) <= 5 ->
    let h0 := searchHistory s in
    let h := searchHistory (fst (snd (addAll queries sc (s, w)))) in
    fst (addAll queries sc (s, w)) = Return tt
    /\ h = take 5 (nub (rev (cleaned queries) ++ h0))
    /\ NoDup h
    /\ length h <= 5
    /\ (forall q,
           length h0 = 5 -> trim q <> [] -> trim q ∉ h0 ->
           exists oldest,
             h0 = take 4 h0 ++ [oldest]
             /\ searchHistory (fst (snd (addToHistory q sc (s, w))))
                = trim q :: take 4 h0).
Proof.
  intros sc s w queries Hnd Hlen h0 h.
  destruct (addAll_run sc queries s w) as (w' & Hrun & _).
  assert (Hh : h = take 5 (nub (rev (cleaned queries) ++ h0))).
  { unfold h. rewrite Hrun. simpl. now apply fold_historyAfter. }
  split; [now rewrite Hrun|]. split; [exact Hh|]. split; [|split].
  - rewrite Hh. eapply sublist_NoDup; [apply NoDup_nub | apply sublist_take].
  - rewrite Hh, length_take. lia.
  - intros q Hfive Hne Hnew.
    destruct (addToHistory_run sc s w q) as (w1 & Hq & _).
    rewrite Hq. simpl. unfold historyAfter.
    rewrite bool_decide_eq_false_2 by exact Hne.
    unfold newHistory, slice0. fold h0. rewrite filter_ne_absent by exact Hnew.
    destruct (last h0) as [oldest|] eqn:Hlast.
    + exists oldest. split; [|reflexivity].
      apply last_Some in Hlast. destruct Hlast as [l' ->].
      rewrite length_app in Hfive. simpl in Hfive.
      now rewrite take_app_length' by lia.
    + apply last_None in Hlast. rewrite Hlast in Hfive. discriminate.
Qed.

Lemma searchHistory_invariant_witness :
  NoDup (searchHistory (appWith true []))
  /\ length (searchHistory (appWith true [])) <= 5
  /\ searchHistory
       (fst (snd (addAll (fiveQueries ++ [js "  f "; js "   "; js "b"]) silent
                    (appWith true [], keyedWorld))))
     = take 5
         (nub (rev (cleaned (fiveQueries ++ [js "  f "; js "   "; js "b"]))
               ++ []))
  /\ take 5
       (nub (rev (cleaned (fiveQueries ++ [js "  f "; js "   "; js "b"]))
             ++ []))
     = [js "b"; js "f"; js "a"; js "c"; js "d"].
Proof.
  assert (H1 : NoDup (searchHistory (appWith true []))) by constructor.
  assert (H2 : length (searchHistory (appWith true [])) <= 5) by (simpl; lia).
  destruct (searchHistory_invariant silent (appWith true []) keyedWorld
              (fiveQueries ++ [js "  f "; js "   "; js "b"]) H1 H2)
    as (_ & Hh & _).
  split; [exact H1|]. split; [exact H2|]. split; [exact Hh|].
  vm_compute. reflexivity.
Defined.

(** C7 as stated fails: a sixth query that differs from each of the five
    entries, from one of them by a leading space only, is trimmed to that
    entry, and no entry is dropped: the oldest one is still there. *)
Lemma addToHistory_padded_query_drops_nothing :
  length (rev fiveQueries) = 5
  /\ NoDup (rev fiveQueries)
  /\ (js " a" ∉ rev fiveQueries)
  /\ last (rev fiveQueries) = Some (js "e")
  /\ searchHistory
       (fst (snd (addToHistory (js " a") silent
                    (appWith true (rev fiveQueries), keyedWorld))))
     = [js "a"; js "b"; js "c"; js "d"; js "e"].
Proof.
  split; [reflexivity|]. split; [compute_done|]. split; [compute_done|].
  split; reflexivity.
Qed.

(** ** C4: one re-prompt and one retry *)

(** A submission that is refused makes the whole call throw at once. *)
Lemma generateExplanationVideo_refused {St} fuel visualPrompt sc (s : St) w e :
  generateVideos_reply sc (videoCalls w) = inl e ->
  generateExplanationVideo fuel visualPrompt sc (s, w)
  = (Throw e,
     (s, countVideo
           (record (EvGenerateVideos (or_else (API_KEY w) [])
                      (videoParameters visualPrompt)) w))).
Proof.
  intros Hreply. unfold generateExplanationVideo. run_async.
  now rewrite Hreply.
Qed.

(** What [handleSelectKey] does, exactly. *)
Lemma handleSelectKey_exact snap sc (s : AppState) w :
  handleSelectKey snap sc (s, w)
  = (Return tt,
     if openSelectKey_available sc then
       (if includes (errorMsg snap) (js "API Key")
        then setErrorMsg [] (setApiKeySelected true s)
        else setApiKeySelected true s,
        selectKey (openSelectKey_key sc (selectCalls w))
          (record EvOpenSelectKey w))
     else (s, w)).
Proof.
  unfold handleSelectKey. destruct (openSelectKey_available sc);
    [|reflexivity].
  run_async. destruct (includes (errorMsg snap) (js "API Key")); reflexivity.
Qed.

(** C4, as the code has it.  When the first submission of a video is
    refused with an error of the entity-not-found kind, [handleGenerateVideo]
    clears the credential flag and runs [handleSelectKey] once, which opens
    the host's credential selection once and sets the flag again if the host
    offers that selection and does nothing if it does not; it then submits
    the job once more, and only once.  From the start of the handler the
    events are, in this order: the selection before the first attempt, if
    the flag was not set and the host offers one; the first submission; the
    one selection of the retry, if the host offers one; the second
    submission, with the key then in the environment; and the waits and
    status requests of the retry, among which there is neither a submission
    nor a selection.  The video ends completed with the URI of the retry if
    the retry returns, and in error if the retry throws. *)
Theorem handleGenerateVideo_retries_once :
  forall (fuel : nat) (sc : Script) (s : AppState) (w : World)
         (visualPrompt : jsstring) (e : JsError),
    visualPromptOf (solution s) = Some visualPrompt ->
    generateVideos_reply sc (videoCalls w) = inl e ->
    entityNotFound e = true ->
    let available := openSelectKey_available sc in
    let preselected := negb (apiKeySelected s) && available in
    let opened (b : bool) := if b then [EvOpenSelectKey] else [] in
    let key0 :=
      if preselected then openSelectKey_key sc (selectCalls w)
      else API_KEY w in
    let selections0 :=
      if preselected then S (selectCalls w) else selectCalls w in
    let key1 := if available then openSelectKey_key sc selections0 else key0 in
    let submit (key : option jsstring) :=
      EvGenerateVideos (or_else key []) (videoParameters visualPrompt) in
    exists (sr : AppState) (wr : World) (o2 : Outcome jsstring) (w2 : World)
           (polls : list Event),
      trace wr
      = trace w ++ opened preselected ++ [submit key0] ++ opened available
      /\ API_KEY wr = key1
      /\ apiKeySelected sr = available
      /\ videoStatus sr = VideoGenerating
      /\ generateExplanationVideo fuel visualPrompt sc (sr, wr) = (o2, (sr, w2))
      /\ trace w2
         = trace w ++ opened preselected ++ [submit key0] ++ opened available
           ++ submit key1 :: polls
      /\ count isSubmit polls = 0
      /\ count isSelect polls = 0
      /\ handleGenerateVideo fuel sc (s, w)
         = match o2 with
           | Return uri =>
               (Return tt,
                (setVideoStatus VideoCompleted (setVideoUri (Some uri) sr), w2))
           | Throw _ => (Return tt, (setVideoStatus VideoError sr, w2))
           | Pending => (Pending, (sr, w2))
           end.
Proof.
  intros fuel sc s w visualPrompt e Hprompt Hreply Hnf
    available preselected opened key0 selections0 key1 submit.
  (* the optional selection before the first attempt *)
  set (σ0 := if preselected
             then (if includes (errorMsg s) (js "API Key")
                   then setErrorMsg [] (setApiKeySelected true s)
                   else setApiKeySelected true s,
                   selectKey (openSelectKey_key sc (selectCalls w))
                     (record EvOpenSelectKey w))
             else (s, w)).
  assert (Hpre :
    (if apiKeySelected s then ret tt else handleSelectKey s) sc (s, w)
    = (Return tt, σ0)).
  { unfold σ0, preselected, available.
    destruct (apiKeySelected s); [reflexivity|].
    rewrite handleSelectKey_exact.
    now destruct (openSelectKey_available sc). }
  assert (Hw0 : trace (snd σ0) = trace w ++ opened preselected
                /\ API_KEY (snd σ0) = key0
                /\ selectCalls (snd σ0) = selections0
                /\ videoCalls (snd σ0) = videoCalls w).
  { unfold σ0, key0, selections0, opened. destruct preselected; cbn.
    - repeat split; reflexivity.
    - rewrite app_nil_r. repeat split; reflexivity. }
  destruct σ0 as [s0 w0]. cbn [snd] in Hw0.
  destruct Hw0 as (Htr0 & Hkey0 & Hsel0 & Hv0).
  set (sg := setVideoStatus VideoGenerating s0).
  set (w1 := countVideo (record (submit key0) w0)).
  assert (Hfirst : generateExplanationVideo fuel visualPrompt sc (sg, w0)
                   = (Throw e, (sg, w1))).
  { unfold w1, submit. rewrite <- Hkey0.
    apply generateExplanationVideo_refused. now rewrite Hv0. }
  (* the selection of the retry *)
  pose proof (handleSelectKey_exact s sc (setApiKeySelected false sg) w1)
    as Hsel.
  set (σr := if openSelectKey_available sc then
               (if includes (errorMsg s) (js "API Key")
                then setErrorMsg []
                       (setApiKeySelected true (setApiKeySelected false sg))
                else setApiKeySelected true (setApiKeySelected false sg),
                selectKey (openSelectKey_key sc (selectCalls w1))
                  (record EvOpenSelectKey w1))
             else (setApiKeySelected false sg, w1)) in Hsel.
  assert (Hwr : trace (snd σr) = trace w1 ++ opened available
                /\ API_KEY (snd σr) = key1
                /\ apiKeySelected (fst σr) = available
                /\ videoStatus (fst σr) = VideoGenerating).
  { unfold σr, key1, opened, available.
    destruct (openSelectKey_available sc);
      [destruct (includes (errorMsg s) (js "API Key"))|];
      cbn [fst snd trace API_KEY selectKey record apiKeySelected videoStatus
           setErrorMsg setApiKeySelected setVideoStatus sg].
    - rewrite <- Hsel0. repeat split; reflexivity.
    - rewrite <- Hsel0. repeat split; reflexivity.
    - rewrite app_nil_r. unfold w1, countVideo, record. cbn [API_KEY].
      rewrite Hkey0. repeat split; reflexivity. }
  destruct σr as [s' wr]. cbn [fst snd] in Hwr.
  destruct Hwr as (Htrr & Hkeyr & Hflag & Hstatus).
  set (sr := setVideoStatus VideoGenerating s').
  destruct (generateExplanationVideo_effects sc sr fuel visualPrompt wr)
    as (o2 & w2 & polls & Hretry & Htr2 & Hsub2 & Hsel2 & _).
  assert (Htrace_r :
    trace wr
    = trace w ++ opened preselected ++ [submit key0] ++ opened available).
  { rewrite Htrr. unfold w1, countVideo, record. cbn [trace].
    rewrite Htr0, <- !app_assoc. reflexivity. }
  exists sr, wr, o2, w2, polls.
  split; [exact Htrace_r|]. split; [exact Hkeyr|]. split; [exact Hflag|].
  split; [reflexivity|]. split; [exact Hretry|].
  split; [|split; [exact Hsub2|split; [exact Hsel2|]]].
  - rewrite Htr2, Htrace_r, Hkeyr, <- !app_assoc. reflexivity.
  - unfold handleGenerateVideo, attemptVideo. run_async.
    rewrite Hprompt. fold (@ret AppState unit tt).
    rewrite Hpre. fold sg. rewrite Hfirst, Hnf, Hsel. fold sr.
    rewrite Hretry. destruct o2; reflexivity.
Qed.

Lemma handleGenerateVideo_retries_once_witness :
  visualPromptOf (solution (appWith true []))
  = Some (js "A ball rolling down an inclined plane")
  /\ generateVideos_reply (retryScript true) (videoCalls keyedWorld)
     = inl notFound
  /\ entityNotFound notFound = true
  /\ (exists sr wr o2 w2 polls,
         generateExplanationVideo 1
           (js "A ball rolling down an inclined plane") (retryScript true)
           (sr, wr) = (o2, (sr, w2))
         /\ trace w2
            = [EvGenerateVideos (js "k3y")
                 (videoParameters (js "A ball rolling down an inclined plane"));
               EvOpenSelectKey;
               EvGenerateVideos (js "selected-key")
                 (videoParameters (js "A ball rolling down an inclined plane"))]
              ++ polls
         /\ count isSubmit polls = 0
         /\ count isSelect polls = 0
         /\ apiKeySelected sr = true)
  /\ fst (retryRun true) = Return tt
  /\ videoStatus (fst (snd (retryRun true))) = VideoCompleted
  /\ videoUri (fst (snd (retryRun true)))
     = Some (js "https://v.example/1?alt=media&key=selected-key")
  /\ trace (snd (snd (retryRun true)))
     = [EvGenerateVideos (js "k3y")
          (videoParameters (js "A ball rolling down an inclined plane"));
        EvOpenSelectKey;
        EvGenerateVideos (js "selected-key")
          (videoParameters (js "A ball rolling down an inclined plane"))].
Proof.
  assert (H1 : visualPromptOf (solution (appWith true []))
               = Some (js "A ball rolling down an inclined plane"))
    by reflexivity.
  assert (H2 : generateVideos_reply (retryScript true) (videoCalls keyedWorld)
               = inl notFound) by reflexivity.
  assert (H3 : entityNotFound notFound = true) by reflexivity.
  split; [exact H1|]. split; [exact H2|]. split; [exact H3|]. split.
  - destruct (handleGenerateVideo_retries_once 1 (retryScript true)
                (appWith true []) keyedWorld _ notFound H1 H2 H3)
      as (sr & wr & o2 & w2 & polls & _ & _ & Hflag & _ & Hretry & Htrace
          & Hsubmits & Hselects & _).
    exists sr, wr, o2, w2, polls. split; [exact Hretry|].
    split; [exact Htrace|]. split; [exact Hsubmits|].
    split; [exact Hselects|exact Hflag].
  - split; [reflexivity|]. split; [reflexivity|]. split; reflexivity.
Defined.

(** C4 as stated fails where the host offers no credential selection: the
    flag is cleared and the job is submitted again, but no selection takes
    place. *)
Lemma handleGenerateVideo_no_reprompt_without_host :
  generateVideos_reply (retryScript false) (videoCalls keyedWorld) = inl notFound
  /\ entityNotFound notFound = true
  /\ fst (retryRun false) = Return tt
  /\ count isSelect (trace (snd (snd (retryRun false)))) = 0
  /\ count isSubmit (trace (snd (snd (retryRun false)))) = 2
  /\ apiKeySelected (fst (snd (retryRun false))) = false
  /\ videoStatus (fst (snd (retryRun false))) = VideoCompleted.
Proof. repeat split. Qed.

(** ** C6: the translation cache *)

(** A translation that is cached and not empty is not asked for again, and
    is what the view shows. *)
Lemma SolutionViewer_cache_hit (data : SolutionData) (newLang : Language)
    (sc : Script) (st : ViewState) (w : World) (cached : jsstring) :
  newLang <> English ->
  newLang <> language st ->
  translations st !! languageName newLang = Some cached ->
  cached <> [] ->
  SolutionViewer.handleLanguageChange data newLang sc (st, w)
  = (Return tt, (setLanguage newLang st, w))
  /\ SolutionViewer.contentToDisplay data (setLanguage newLang st) = cached.
Proof.
  intros Hne Hchange Hcached Hfull.
  unfold SolutionViewer.handleLanguageChange, SolutionViewer.contentToDisplay.
  run_async. rewrite decide_False by exact Hchange.
  rewrite (decide_False (P := newLang = English)) by exact Hne.
  rewrite Hcached. destruct cached as [|c t]; [contradiction|]. simpl.
  destruct newLang; [contradiction|]. simpl in *. now rewrite Hcached.
Qed.

(** A successful translation is stored under its language. *)
Lemma SolutionViewer_stores_translation (data : SolutionData) (sc : Script)
    (w : World) (resp : GenerateContentResponse) :
  truthy (API_KEY w) = true ->
  generateContent_reply sc (contentCalls w) = inr resp ->
  exists w',
    SolutionViewer.handleLanguageChange data Hindi sc (mounted, w)
    = (Return tt,
       ({| language := Hindi;
           translations :=
             {[ js "Hindi" := or_else (text resp) (solutionMarkdown data) ]};
           isTranslating := false |}, w'))
    /\ count isTranslate (trace w') = count isTranslate (trace w) + 1.
Proof.
  intros Hkey Hreply.
  destruct (API_KEY w) as [[|c k]|] eqn:Hk; try discriminate.
  unfold SolutionViewer.handleLanguageChange, translateText. run_async.
  rewrite (decide_False (P := Hindi = language mounted)) by discriminate.
  rewrite (decide_False (P := Hindi = English)) by discriminate.
  cbn [translations mounted]. rewrite lookup_empty.
  cbv beta iota delta [truthy]. rewrite Hk. cbn [or_else]. rewrite bool_decide_eq_false_2 by discriminate.
  cbv beta iota. cbn [contentCalls record]. rewrite Hreply.
  eexists. split; [reflexivity|].
  simpl. rewrite count_app. reflexivity.
Qed.

(** The same holds in [SearchResults], whose cache is looked up under the
    key of the main text. *)
Lemma SearchResults_cache_hit (data : SearchResult) (newLang : Language)
    (sc : Script) (st : ViewState) (w : World) (cached : jsstring) :
  newLang <> English ->
  newLang <> language st ->
  translations st !! SearchResults.textKey newLang = Some cached ->
  cached <> [] ->
  SearchResults.handleLanguageChange data newLang sc (st, w)
  = (Return tt, (setLanguage newLang st, w))
  /\ SearchResults.currentText data (setLanguage newLang st) = cached.
Proof.
  intros Hne Hchange Hcached Hfull.
  unfold SearchResults.handleLanguageChange, SearchResults.currentText.
  run_async. rewrite decide_False by exact Hchange.
  rewrite (decide_False (P := newLang = English)) by exact Hne.
  rewrite Hcached. destruct cached as [|c t]; [contradiction|]. simpl.
  destruct newLang; [contradiction|]. simpl in *. now rewrite Hcached.
Qed.

(** The translation of a text that is not empty is not empty, and the text
    of a search result never is: an empty translation can only be cached
    for an empty solution. *)
Lemma translateText_not_empty {St} sourceText targetLanguage sc (s : St) w t σ' :
  translateText sourceText targetLanguage sc (s, w) = (Return t, σ') ->
  sourceText <> [] -> t <> [].
Proof.
  unfold translateText. run_async. case_bool_decide; [discriminate|].
  cbn [contentCalls record].
  destruct (generateContent_reply sc (contentCalls w)) as [e|resp];
    [discriminate|].
  intros Hrun Hsrc. inversion Hrun; subst.
  destruct (text resp) as [[|c u]|]; simpl; try assumption. discriminate.
Qed.

Lemma performSearch_text_not_empty {St} query sc (s : St) w r σ' :
  performSearch query sc (s, w) = (Return r, σ') -> sr_text r <> [].
Proof.
  unfold performSearch. run_async. case_bool_decide; [discriminate|].
  cbn [contentCalls record].
  destruct (generateContent_reply sc (contentCalls w)) as [e|resp];
    [discriminate|].
  destruct (generateContent_reply sc _);
    intros Hrun; inversion Hrun; subst; simpl;
    destruct (text resp) as [[|c u]|]; discriminate.
Qed.

(** C6 on the input where it fails.  The solution text is empty and the
    translation comes back empty: the first press of Hindi asks for the
    translation and stores the empty result under Hindi; after a press of
    English, the next press of Hindi finds that entry, takes it for missing
    because it is empty, and asks the service again. *)
Theorem SolutionViewer_retranslates_empty_translation :
  fst (viewerRun [Hindi]) = Return tt
  /\ translations (fst (snd (viewerRun [Hindi]))) !! js "Hindi" = Some []
  /\ count isTranslate (trace (snd (snd (viewerRun [Hindi])))) = 1
  /\ fst (viewerRun [Hindi; English; Hindi]) = Return tt
  /\ count isTranslate (trace (snd (snd (viewerRun [Hindi; English; Hindi]))))
     = 2
  /\ trace (snd (snd (viewerRun [Hindi; English; Hindi])))
     = [EvGenerateContent (js "k3y") (translateParameters [] (js "Hindi"));
        EvGenerateContent (js "k3y") (translateParameters [] (js "Hindi"))].
Proof.
  split; [reflexivity|]. split; [vm_compute; reflexivity|].
  split; [reflexivity|]. split; [reflexivity|]. split; reflexivity.
Qed.

(** * Further properties of the code *)

Local Open Scope N_scope.

(** ** [fileToGenerativePart] *)

Lemma untilComma_no_comma (s : jsstring) :
  44 ∉ s -> untilComma s = (s, None).
Proof.
  induction s as [|c s IH]; intros Hc; [reflexivity|].
  rewrite not_elem_of_cons in Hc. destruct Hc as [Hne Hc].
  simpl. destruct (c =? 44) eqn:Heq.
  - apply N.eqb_eq in Heq. congruence.
  - now rewrite IH.
Qed.

Lemma untilComma_first_comma (s rest : jsstring) :
  44 ∉ s -> untilComma (s ++ 44 :: rest) = (s, Some rest).
Proof.
  induction s as [|c s IH]; intros Hc; [reflexivity|].
  rewrite not_elem_of_cons in Hc. destruct Hc as [Hne Hc].
  simpl. destruct (c =? 44) eqn:Heq.
  - apply N.eqb_eq in Heq. congruence.
  - now rewrite IH.
Qed.

(** X1. For a file read as a data URL made of a prefix, a comma and a
    payload, neither holding a comma (no character of base64 is one),
    [fileToGenerativePart] returns the payload alone with the type of the
    file; when the read fails it throws what the reader reports. *)
Theorem fileToGenerativePart_strips_prefix :
  forall (St : Type) (f : File) (sc : Script) (s : St) (w : World),
    (forall prefix payload,
        44 ∉ prefix -> 44 ∉ payload ->
        file_dataURL f = Some (prefix ++ 44 :: payload) ->
        fileToGenerativePart f sc (s, w)
        = (Return {| data := Some payload; mimeType := file_type f |},
           (s, record (EvReadAsDataURL f) w)))
    /\ (file_dataURL f = None ->
        fileToGenerativePart f sc (s, w)
        = (Throw FileReadError, (s, record (EvReadAsDataURL f) w))).
Proof.
  intros St f sc s w. split.
  - intros prefix payload Hp Hq Hurl.
    unfold fileToGenerativePart. run_async. rewrite Hurl.
    unfold split_comma_1. rewrite untilComma_first_comma by exact Hp.
    simpl. now rewrite untilComma_no_comma by exact Hq.
  - intros Hurl. unfold fileToGenerativePart. run_async. now rewrite Hurl.
Qed.

Lemma fileToGenerativePart_strips_prefix_witness :
  (44 ∉ js "data:image/png;base64")
  /\ (44 ∉ js "iVBORw0KGgo=")
  /\ file_dataURL pngFile = Some (js "data:image/png;base64" ++ 44 :: js "iVBORw0KGgo=")
  /\ fileToGenerativePart pngFile silent (tt, keyedWorld)
     = (Return {| data := Some (js "iVBORw0KGgo="); mimeType := js "image/png" |},
        (tt, record (EvReadAsDataURL pngFile) keyedWorld)).
Proof.
  assert (H1 : 44 ∉ js "data:image/png;base64") by compute_done.
  assert (H2 : 44 ∉ js "iVBORw0KGgo=") by compute_done.
  assert (H3 : file_dataURL pngFile
               = Some (js "data:image/png;base64" ++ 44 :: js "iVBORw0KGgo="))
    by reflexivity.
  split; [exact H1|]. split; [exact H2|]. split; [exact H3|].
  exact (proj1 (fileToGenerativePart_strips_prefix unit pngFile silent tt
                  keyedWorld) _ _ H1 H2 H3).
Defined.

(** ** [solveProblem]: what it throws *)

(** X2. When the image cannot be read, [solveProblem] throws what the
    reader reports and sends no request: the read is the only effect. *)
Theorem solveProblem_unreadable_file_sends_nothing :
  forall (St : Type) (imageFile : File) (sc : Script) (s : St) (w : World),
    truthy (API_KEY w) = true ->
    file_dataURL imageFile = None ->
    solveProblem imageFile sc (s, w)
    = (Throw FileReadError, (s, record (EvReadAsDataURL imageFile) w))
    /\ count isContent (trace (record (EvReadAsDataURL imageFile) w))
       = count isContent (trace w).
Proof.
  intros St imageFile sc s w Hkey Hurl.
  destruct (or_else_truthy _ [] Hkey) as [_ Hne]. split.
  - unfold solveProblem, fileToGenerativePart. run_async.
    rewrite bool_decide_eq_false_2 by exact Hne. now rewrite Hurl.
  - unfold record. simpl. rewrite count_app. unfold count. simpl. lia.
Qed.

Lemma solveProblem_unreadable_file_witness :
  truthy (API_KEY keyedWorld) = true
  /\ file_dataURL unreadable = None
  /\ solveProblem unreadable (solveScript "High") (tt, keyedWorld)
     = (Throw FileReadError, (tt, record (EvReadAsDataURL unreadable) keyedWorld)).
Proof.
  split; [reflexivity|]. split; [reflexivity|].
  exact (proj1 (solveProblem_unreadable_file_sends_nothing unit unreadable
                  (solveScript "High") tt keyedWorld eq_refl eq_refl)).
Defined.

(** X3. With a key and a readable image, [solveProblem] makes exactly one
    request and surfaces each way in which it fails: the error of the
    service as it is, an empty or absent text as [No response from AI], a
    text that is not JSON as the [SyntaxError] of [JSON.parse], an error
    whose message is the one the engine words for that text. *)
Theorem solveProblem_failures :
  forall (St : Type) (imageFile : File) (url : jsstring) (sc : Script)
         (s : St) (w : World),
    truthy (API_KEY w) = true ->
    file_dataURL imageFile = Some url ->
    let request :=
      EvGenerateContent (or_else (API_KEY w) [])
        (solveParameters {| data := split_comma_1 url;
                            mimeType := file_type imageFile |}) in
    let w' := countContent (record request (record (EvReadAsDataURL imageFile) w)) in
    (forall e,
        generateContent_reply sc (contentCalls w) = inl e ->
        solveProblem imageFile sc (s, w) = (Throw e, (s, w')))
    /\ (forall response,
           generateContent_reply sc (contentCalls w) = inr response ->
           truthy (text response) = false ->
           solveProblem imageFile sc (s, w)
           = (Throw (Error (js "No response from AI")), (s, w')))
    /\ (forall response t,
           generateContent_reply sc (contentCalls w) = inr response ->
           text response = Some t -> t <> [] -> JSON_parse t = None ->
           solveProblem imageFile sc (s, w)
           = (Throw {| message := Some (syntaxError_message sc t);
                       error_message := None;
                       json := js "{}" |}, (s, w'))).
Proof.
  intros St imageFile url sc s w Hkey Hurl request w'.
  destruct (or_else_truthy _ [] Hkey) as [_ Hne].
  assert (Hstart : forall r,
             generateContent_reply sc (contentCalls w) = r ->
             solveProblem imageFile sc (s, w)
             = match r with
               | inl e => (Throw e, (s, w'))
               | inr response =>
                   match text response with
                   | Some (c :: t) =>
                       match JSON_parse (c :: t) with
                       | Some v => (Return v, (s, w'))
                       | None =>
                           (Throw (JSON_SyntaxError
                                     (syntaxError_message sc (c :: t))),
                            (s, w'))
                       end
                   | _ => (Throw (Error (js "No response from AI")), (s, w'))
                   end
               end).
  { intros r Hr. unfold solveProblem, fileToGenerativePart. run_async.
    rewrite bool_decide_eq_false_2 by exact Hne. rewrite Hurl.
    cbn [contentCalls record]. rewrite Hr.
    destruct r as [e|response]; [reflexivity|].
    destruct (text response) as [[|c t]|]; try reflexivity.
    destruct (JSON_parse (c :: t)); reflexivity. }
  split; [|split].
  - intros e Hr. now rewrite (Hstart _ Hr).
  - intros response Hr Hempty. rewrite (Hstart _ Hr).
    destruct (text response) as [[|c t]|]; try reflexivity. discriminate.
  - intros response t Hr Htext Hfull Hparse. rewrite (Hstart _ Hr), Htext.
    destruct t as [|c t]; [contradiction|]. now rewrite Hparse.
Qed.

Lemma solveProblem_failures_witness :
  truthy (API_KEY keyedWorld) = true
  /\ file_dataURL pngFile = Some (js "data:image/png;base64,iVBORw0KGgo=")
  /\ generateContent_reply emptyTranslation (contentCalls keyedWorld)
     = inr (textResponse None)
  /\ truthy (text (textResponse None)) = false
  /\ fst (solveProblem pngFile emptyTranslation (tt, keyedWorld))
     = Throw (Error (js "No response from AI"))
  /\ generateContent_reply garbled (contentCalls keyedWorld)
     = inr (textResponse (Some (js "[oops")))
  /\ JSON_parse (js "[oops") = None
  /\ fst (solveProblem pngFile garbled (tt, keyedWorld))
     = Throw (Error (sampleEngine (js "[oops"))).
Proof.
  assert (H1 : truthy (API_KEY keyedWorld) = true) by reflexivity.
  assert (H2 : file_dataURL pngFile
               = Some (js "data:image/png;base64,iVBORw0KGgo=")) by reflexivity.
  assert (H3 : generateContent_reply emptyTranslation (contentCalls keyedWorld)
               = inr (textResponse None)) by reflexivity.
  assert (H4 : truthy (text (textResponse None)) = false) by reflexivity.
  split; [exact H1|]. split; [exact H2|]. split; [exact H3|]. split; [exact H4|].
  destruct (solveProblem_failures unit pngFile _ emptyTranslation tt keyedWorld
              H1 H2) as (_ & Hempty & _).
  split; [now rewrite (Hempty _ H3 H4)|].
  assert (H5 : generateContent_reply garbled (contentCalls keyedWorld)
               = inr (textResponse (Some (js "[oops")))) by reflexivity.
  assert (H6 : JSON_parse (js "[oops") = None) by (vm_compute; reflexivity).
  split; [exact H5|]. split; [exact H6|].
  destruct (solveProblem_failures unit pngFile _ garbled tt keyedWorld H1 H2)
    as (_ & _ & Hsyntax).
  rewrite (Hsyntax _ (js "[oops") H5 eq_refl ltac:(discriminate) H6).
  reflexivity.
Defined.

(** ** [performSearch] and [translateText] *)

(** X4. When the search request itself fails, [performSearch] throws that
    error and never asks for a verification: one request is made. *)
Theorem performSearch_search_failure_is_fatal :
  forall (St : Type) (query : jsstring) (sc : Script) (s : St) (w : World)
         (e : JsError),
    truthy (API_KEY w) = true ->
    generateContent_reply sc (contentCalls w) = inl e ->
    performSearch query sc (s, w)
    = (Throw e,
       (s, countContent
             (record (EvGenerateContent (or_else (API_KEY w) [])
                        (searchParameters query)) w))).
Proof.
  intros St query sc s w e Hkey Hreply.
  destruct (or_else_truthy _ [] Hkey) as [_ Hne].
  unfold performSearch. run_async.
  rewrite bool_decide_eq_false_2 by exact Hne.
  cbn [contentCalls record]. now rewrite Hreply.
Qed.

Lemma performSearch_search_failure_witness :
  truthy (API_KEY keyedWorld) = true
  /\ generateContent_reply (refusing quotaError) (contentCalls keyedWorld)
     = inl quotaError
  /\ performSearch (js "gravity") (refusing quotaError) (tt, keyedWorld)
     = (Throw quotaError,
        (tt, countContent
               (record (EvGenerateContent (js "k3y")
                          (searchParameters (js "gravity"))) keyedWorld))).
Proof.
  split; [reflexivity|]. split; [reflexivity|].
  exact (performSearch_search_failure_is_fatal unit (js "gravity")
           (refusing quotaError) tt keyedWorld quotaError eq_refl eq_refl).
Defined.

Lemma performSearch_requests {St} query sc (s : St) w r σ' :
  performSearch query sc (s, w) = (Return r, σ') ->
  exists searchResponse verification,
    generateContent_reply sc (contentCalls w) = inr searchResponse
    /\ sr_verification r = Some verification
    /\ fst σ' = s
    /\ trace (snd σ')
       = trace w
         ++ [EvGenerateContent (or_else (API_KEY w) []) (searchParameters query);
             EvGenerateContent (or_else (API_KEY w) [])
               (verifyParameters query (sr_text r))].
Proof.
  unfold performSearch. run_async. case_bool_decide; [discriminate|].
  cbn [contentCalls record].
  destruct (generateContent_reply sc (contentCalls w)) as [e|resp];
    [discriminate|].
  destruct (generateContent_reply sc _);
    intros Hrun; inversion Hrun; subst; simpl; exists resp; eexists;
    rewrite <- app_assoc; auto.
Qed.

(** X5. Whatever the service answers, a result [performSearch] returns has
    a text that is not empty, sources whose URIs are all different and none
    of which has an empty URI or title, and a verification text; it was
    obtained with exactly two requests, the second one quoting the query and
    the text returned. *)
Theorem performSearch_result_well_formed :
  forall (St : Type) (query : jsstring) (sc : Script) (s : St) (w : World)
         (r : SearchResult) (σ' : St * World),
    performSearch query sc (s, w) = (Return r, σ') ->
    sr_text r <> []
    /\ NoDup (map uri (sr_webSources r))
    /\ (forall src, src ∈ sr_webSources r -> uri src <> [] /\ title src <> [])
    /\ is_Some (sr_verification r)
    /\ fst σ' = s
    /\ trace (snd σ')
       = trace w
         ++ [EvGenerateContent (or_else (API_KEY w) []) (searchParameters query);
             EvGenerateContent (or_else (API_KEY w) [])
               (verifyParameters query (sr_text r))].
Proof.
  intros St query sc s w r σ' Hrun.
  destruct (performSearch_requests query sc s w r σ' Hrun)
    as (resp & v & Hreply & Hv & Hs & Htr).
  pose proof (performSearch_sources query sc s w resp r σ' Hreply Hrun) as Hsrc.
  split; [exact (performSearch_text_not_empty query sc s w r σ' Hrun)|].
  split; [rewrite Hsrc, uris_uniqueSources; apply NoDup_nub|].
  split; [|split; [rewrite Hv; eauto | split; assumption]].
  intros src Hin. rewrite Hsrc in Hin.
  apply last_uniqueSources, last_Some_elem_of, list_elem_of_filter in Hin.
  destruct Hin as [_ Hin]. apply elem_of_webSources in Hin.
  destruct Hin as (_ & _ & _ & _ & _ & _ & Hu & Ht). auto.
Qed.

Lemma performSearch_result_well_formed_witness :
  performSearch (js "answer") twiceCitedScript (tt, keyedWorld)
  = (Return
       {| sr_text := js "It is 42.";
          sr_webSources :=
            [source "https://a.example" "third";
             source "https://b.example" "second"];
          sr_verification := Some (js "Accurate.") |},
     snd (performSearch (js "answer") twiceCitedScript (tt, keyedWorld)))
  /\ NoDup
       (map uri
          [source "https://a.example" "third";
           source "https://b.example" "second"]).
Proof.
  assert (Hrun : performSearch (js "answer") twiceCitedScript (tt, keyedWorld)
                 = (Return
                      {| sr_text := js "It is 42.";
                         sr_webSources :=
                           [source "https://a.example" "third";
                            source "https://b.example" "second"];
                         sr_verification := Some (js "Accurate.") |},
                    snd (performSearch (js "answer") twiceCitedScript
                           (tt, keyedWorld))))
    by (vm_compute; reflexivity).
  split; [exact Hrun|].
  exact (proj1 (proj2 (performSearch_result_well_formed unit _ _ _ _ _ _ Hrun))).
Defined.

Lemma Map_set_fresh {V} (k : jsstring) (v : V) (m : list (jsstring * V)) :
  k ∉ map fst m -> Map_set k v m = m ++ [(k, v)].
Proof.
  induction m as [|[k' v'] m IH]; intros Hk; [reflexivity|].
  cbn [map fst] in Hk. rewrite not_elem_of_cons in Hk. destruct Hk as [Hne Hk].
  cbn [Map_set]. destruct (decide (k' = k)) as [|_]; [congruence|].
  now rewrite IH.
Qed.

Lemma Map_new_distinct {V} (entries : list (jsstring * V)) :
  NoDup (map fst entries) -> Map_new entries = entries.
Proof.
  induction entries as [|[k v] entries IH] using rev_ind; intros Hnd;
    [reflexivity|].
  rewrite map_app in Hnd. apply NoDup_app in Hnd.
  destruct Hnd as (Hnd & Hfresh & _).
  rewrite Map_new_snoc, IH by exact Hnd.
  apply Map_set_fresh. intros Hin. apply (Hfresh k Hin). simpl. left.
Qed.

Lemma uniqueSources_distinct (sources : list Source) :
  NoDup (map uri sources) -> uniqueSources sources = sources.
Proof.
  intros Hnd. unfold uniqueSources, Map_values.
  rewrite Map_new_distinct.
  - rewrite map_map. simpl. apply map_id.
  - now rewrite map_map.
Qed.

(** X6. The deduplication of sources leaves alone a list whose URIs are
    all different, so doing it twice is doing it once; it never adds a URI
    nor loses one, and never lengthens the list. *)
Theorem uniqueSources_idempotent :
  forall sources : list Source,
    uniqueSources (uniqueSources sources) = uniqueSources sources
    /\ (NoDup (map uri sources) -> uniqueSources sources = sources)
    /\ (forall u, u ∈ map uri (uniqueSources sources) <-> u ∈ map uri sources)
    /\ (length (uniqueSources sources) <= length sources)%nat.
Proof.
  intros sources. split; [|split; [|split]].
  - apply uniqueSources_distinct. rewrite uris_uniqueSources. apply NoDup_nub.
  - apply uniqueSources_distinct.
  - intros u. rewrite uris_uniqueSources. apply elem_of_nub.
  - rewrite <- (length_map uri (uniqueSources sources)), uris_uniqueSources.
    rewrite <- (length_map uri sources).
    generalize (map uri sources). intros l.
    induction l as [|x l IH]; simpl; [lia|].
    pose proof (length_filter (fun y => y ≠ x) (nub l)). lia.
Qed.

(** X7. A translation of a text that is not empty is never empty, be the
    answer of the service empty or not; and when the request fails,
    [translateText] throws the error of the service as it is. *)
Theorem translateText_result :
  forall (St : Type) (sourceText targetLanguage : jsstring) (sc : Script)
         (s : St) (w : World),
    (forall t σ',
        translateText sourceText targetLanguage sc (s, w) = (Return t, σ') ->
        (sourceText <> [] -> t <> [])
        /\ exists response,
             generateContent_reply sc (contentCalls w) = inr response
             /\ t = or_else (text response) sourceText)
    /\ (forall e,
           truthy (API_KEY w) = true ->
           generateContent_reply sc (contentCalls w) = inl e ->
           fst (translateText sourceText targetLanguage sc (s, w)) = Throw e).
Proof.
  intros St sourceText targetLanguage sc s w. split.
  - intros t σ' Hrun. split.
    + exact (translateText_not_empty _ _ _ _ _ _ _ Hrun).
    + revert Hrun. unfold translateText. run_async.
      case_bool_decide; [discriminate|]. cbn [contentCalls record].
      destruct (generateContent_reply sc (contentCalls w)) as [e|resp];
        [discriminate|].
      intros Hrun. inversion Hrun. eauto.
  - intros e Hkey Hreply. destruct (or_else_truthy _ [] Hkey) as [_ Hne].
    unfold translateText. run_async.
    rewrite bool_decide_eq_false_2 by exact Hne.
    cbn [contentCalls record]. now rewrite Hreply.
Qed.

(** ** [generateExplanationVideo]: a status request that fails *)

(** X8. When the job is not done at its first [k + 1] reads and the next
    status request fails, [generateExplanationVideo] throws that error after
    exactly [k + 1] turns of a ten-second wait and a status request: a
    failing request ends the polling. *)
Theorem generateExplanationVideo_status_failure :
  forall (St : Type) (visualPrompt : jsstring) (sc : Script) (s : St)
         (w : World) (k : nat) (ops : nat -> Operation) (e : JsError),
    (forall j, (j <= k)%nat -> statusRead sc w j = inr (ops j)) ->
    (forall j, (j <= k)%nat -> isDone (ops j) = false) ->
    statusRead sc w (S k) = inl e ->
    forall fuel, (k < fuel)%nat ->
    let apiKey := or_else (API_KEY w) [] in
    let submit := EvGenerateVideos apiKey (videoParameters visualPrompt) in
    let w' := cycles apiKey ops (S k) (countVideo (record submit w)) in
    generateExplanationVideo fuel visualPrompt sc (s, w) = (Throw e, (s, w'))
    /\ trace w' = trace w ++ submit :: cycleEvents apiKey ops (S k)
    /\ count isTenSecondWait (cycleEvents apiKey ops (S k)) = S k
    /\ count isStatusRequest (cycleEvents apiKey ops (S k)) = S k.
Proof.
  intros St visualPrompt sc s w k ops e Hreads Hnd Hfail fuel Hfuel
    apiKey submit w'.
  split; [|split].
  - unfold generateExplanationVideo. unfold bind at 1, env_API_KEY. simpl.
    fold apiKey. rewrite try_catch_rethrow.
    unfold bind at 1, generateVideos, bind at 1, onWorld, settle. simpl.
    pose proof (Hreads O ltac:(lia)) as H0. simpl in H0. rewrite H0.
    unfold ret at 1. fold submit.
    replace fuel with (k + S (fuel - k - 1))%nat by lia.
    unfold bind at 1.
    rewrite (whileNotDone_cycles apiKey sc s ops k).
    + cbn [whileNotDone]. rewrite (Hnd k) by lia.
      unfold bind, setTimeout, getVideosOperation, onWorld, settle. simpl.
      rewrite statusCalls_cycles. simpl in Hfail. simpl. rewrite Hfail.
      reflexivity.
    + intros j Hj. exact (Hreads (S j) ltac:(lia)).
    + intros j Hj. apply Hnd. lia.
  - apply trace_submitted_cycles.
  - pose proof (count_cycleEvents apiKey ops (S k)) as (H1 & H2 & _). auto.
Qed.

Lemma generateExplanationVideo_status_failure_witness :
  (forall j, (j <= 0)%nat -> statusRead brokenPoll keyedWorld j = inr running)
  /\ (forall j, (j <= 0)%nat -> isDone running = false)
  /\ statusRead brokenPoll keyedWorld 1 = inl quotaError
  /\ (0 < 1)%nat
  /\ fst (generateExplanationVideo 1 (js "a ball") brokenPoll (tt, keyedWorld))
     = Throw quotaError.
Proof.
  assert (H1 : forall j, (j <= 0)%nat ->
                 statusRead brokenPoll keyedWorld j = inr running).
  { intros j Hj. destruct j; [reflexivity | lia]. }
  assert (H2 : forall j : nat, (j <= 0)%nat -> isDone running = false)
    by reflexivity.
  assert (H3 : statusRead brokenPoll keyedWorld 1 = inl quotaError)
    by reflexivity.
  assert (H4 : (0 < 1)%nat) by lia.
  split; [exact H1|]. split; [exact H2|]. split; [exact H3|]. split; [exact H4|].
  destruct (generateExplanationVideo_status_failure unit (js "a ball")
              brokenPoll tt keyedWorld 0 (fun _ => running) quotaError
              H1 H2 H3 1%nat H4) as (Hrun & _).
  now rewrite Hrun.
Defined.

(** ** Substrings *)

Lemma startsWith_spec (s needle : jsstring) :
  startsWith s needle = true <-> exists after, s = needle ++ after.
Proof.
  revert s. induction needle as [|n needle IH]; intros s.
  - destruct s; simpl; split; eauto.
  - destruct s as [|c s]; simpl.
    + split; [discriminate | intros [? ?]; discriminate].
    + destruct (n =? c) eqn:Heq.
      * apply N.eqb_eq in Heq. subst c. rewrite IH. split.
        -- intros [after ->]. eauto.
        -- intros [after Hafter]. injection Hafter as ->. eauto.
      * apply N.eqb_neq in Heq. split; [discriminate|].
        intros [after Hafter]. injection Hafter as <- _. contradiction.
Qed.

Lemma includes_spec (s needle : jsstring) :
  includes s needle = true <-> occursIn needle s.
Proof.
  unfold occursIn. split.
  - induction s as [|c s IH]; cbn [includes].
    + destruct (startsWith [] needle) eqn:Hsw; [|discriminate].
      intros _. apply startsWith_spec in Hsw. destruct Hsw as [after Hafter].
      exists [], after. exact Hafter.
    + destruct (startsWith (c :: s) needle) eqn:Hsw.
      * intros _. apply startsWith_spec in Hsw. destruct Hsw as [after Hafter].
        exists [], after. exact Hafter.
      * intros Hin. destruct (IH Hin) as (before & after & ->).
        exists (c :: before), after. reflexivity.
  - intros (before & after & ->).
    induction before as [|c before IH].
    + assert (Hsw : startsWith (needle ++ after) needle = true)
        by (apply startsWith_spec; eauto).
      cbn [app]. destruct (needle ++ after); cbn [includes]; now rewrite Hsw.
    + cbn [app includes]. destruct (startsWith _ needle); [reflexivity | exact IH].
Qed.

(** ** [handleGenerateVideo]: its other paths *)

(** X9. The test of [handleGenerateVideo] for an entity-not-found error is
    a search for a substring: it holds exactly when the phrase [Requested
    entity was not found] occurs in the message of the error (or, failing a
    message, in that of its [error] property) or in its JSON form, or when
    [404] occurs anywhere in its JSON form. *)
Theorem entityNotFound_spec :
  forall e : JsError,
    entityNotFound e = true
    <-> occursIn (js "Requested entity was not found")
          (or_else (or_undefined (message e) (error_message e)) [])
        \/ occursIn (js "Requested entity was not found") (json e)
        \/ occursIn (js "404") (json e).
Proof.
  intros e. unfold entityNotFound.
  rewrite !orb_true_iff, !includes_spec. tauto.
Qed.

(** X10. With the credential flag set, a failure of the video that is not
    of the entity-not-found kind is final at once: the video is in error,
    the job was submitted once, no credential selection was opened and the
    flag is still set. *)
Theorem handleGenerateVideo_other_failure_is_final :
  forall (fuel : nat) (sc : Script) (s : AppState) (w : World)
         (visualPrompt : jsstring) (e : JsError),
    visualPromptOf (solution s) = Some visualPrompt ->
    apiKeySelected s = true ->
    fst (generateExplanationVideo fuel visualPrompt sc
           (setVideoStatus VideoGenerating s, w)) = Throw e ->
    entityNotFound e = false ->
    let w' := snd (snd (generateExplanationVideo fuel visualPrompt sc
                          (setVideoStatus VideoGenerating s, w))) in
    handleGenerateVideo fuel sc (s, w)
    = (Return tt, (setVideoStatus VideoError s, w'))
    /\ count isSubmit (trace w') = (count isSubmit (trace w) + 1)%nat
    /\ count isSelect (trace w') = count isSelect (trace w)
    /\ apiKeySelected (setVideoStatus VideoError s) = true.
Proof.
  intros fuel sc s w visualPrompt e Hprompt Hflag Hthrow Hother w'.
  destruct (generateExplanationVideo_effects sc
              (setVideoStatus VideoGenerating s) fuel visualPrompt w)
    as (o & w1 & evs & Hrun & Htr & Hsub & Hsel & _).
  unfold w'. rewrite Hrun in Hthrow |- *. simpl in Hthrow |- *. subst o.
  split; [|split; [|split]].
  - unfold handleGenerateVideo, attemptVideo. run_async.
    rewrite Hprompt, Hflag. fold (setVideoStatus VideoGenerating s).
    rewrite Hrun, Hother. reflexivity.
  - rewrite Htr, count_app.
    change (_ :: evs) with ([EvGenerateVideos (or_else (API_KEY w) [])
                               (videoParameters visualPrompt)] ++ evs).
    rewrite count_app, Hsub. unfold count. simpl. lia.
  - rewrite Htr, count_app.
    change (_ :: evs) with ([EvGenerateVideos (or_else (API_KEY w) [])
                               (videoParameters visualPrompt)] ++ evs).
    rewrite count_app, Hsel. unfold count. simpl. lia.
  - exact Hflag.
Qed.

Lemma handleGenerateVideo_other_failure_witness :
  visualPromptOf (solution (appWith true []))
  = Some (js "A ball rolling down an inclined plane")
  /\ apiKeySelected (appWith true []) = true
  /\ fst (generateExplanationVideo 1 (js "A ball rolling down an inclined plane")
            (refusing quotaError)
            (setVideoStatus VideoGenerating (appWith true []), keyedWorld))
     = Throw quotaError
  /\ entityNotFound quotaError = false
  /\ fst (handleGenerateVideo 1 (refusing quotaError) (appWith true [], keyedWorld))
     = Return tt
  /\ videoStatus
       (fst (snd (handleGenerateVideo 1 (refusing quotaError)
                    (appWith true [], keyedWorld)))) = VideoError.
Proof.
  assert (H1 : visualPromptOf (solution (appWith true []))
               = Some (js "A ball rolling down an inclined plane"))
    by reflexivity.
  assert (H2 : apiKeySelected (appWith true []) = true) by reflexivity.
  assert (H3 : fst (generateExplanationVideo 1
                      (js "A ball rolling down an inclined plane")
                      (refusing quotaError)
                      (setVideoStatus VideoGenerating (appWith true []),
                       keyedWorld)) = Throw quotaError) by reflexivity.
  assert (H4 : entityNotFound quotaError = false) by reflexivity.
  split; [exact H1|]. split; [exact H2|]. split; [exact H3|]. split; [exact H4|].
  destruct (handleGenerateVideo_other_failure_is_final 1 (refusing quotaError)
              (appWith true []) keyedWorld _ quotaError H1 H2 H3 H4)
    as (Hrun & _).
  rewrite Hrun. split; reflexivity.
Defined.

(** X11. Without a solution, or with one whose visual prompt is empty,
    [handleGenerateVideo] does nothing at all.  With a prompt and the
    credential flag set, a video that is returned ends completed with its
    URI, after one submission and no credential selection. *)
Theorem handleGenerateVideo_guard_and_success :
  forall (fuel : nat) (sc : Script) (s : AppState) (w : World),
    (visualPromptOf (solution s) = None ->
     handleGenerateVideo fuel sc (s, w) = (Return tt, (s, w)))
    /\ (forall visualPrompt uri,
           visualPromptOf (solution s) = Some visualPrompt ->
           apiKeySelected s = true ->
           fst (generateExplanationVideo fuel visualPrompt sc
                  (setVideoStatus VideoGenerating s, w)) = Return uri ->
           let w' := snd (snd (generateExplanationVideo fuel visualPrompt sc
                                 (setVideoStatus VideoGenerating s, w))) in
           handleGenerateVideo fuel sc (s, w)
           = (Return tt,
              (setVideoStatus VideoCompleted (setVideoUri (Some uri) s), w'))
           /\ count isSubmit (trace w') = (count isSubmit (trace w) + 1)%nat
           /\ count isSelect (trace w') = count isSelect (trace w)).
Proof.
  intros fuel sc s w. split.
  - intros Hnone. unfold handleGenerateVideo. run_async. now rewrite Hnone.
  - intros visualPrompt uri Hprompt Hflag Hret w'.
    destruct (generateExplanationVideo_effects sc
                (setVideoStatus VideoGenerating s) fuel visualPrompt w)
      as (o & w1 & evs & Hrun & Htr & Hsub & Hsel & _).
    unfold w'. rewrite Hrun in Hret |- *. simpl in Hret |- *. subst o.
    split; [|split].
    + unfold handleGenerateVideo, attemptVideo. run_async.
      rewrite Hprompt, Hflag. fold (setVideoStatus VideoGenerating s).
      rewrite Hrun. reflexivity.
    + rewrite Htr, count_app.
      change (_ :: evs) with ([EvGenerateVideos (or_else (API_KEY w) [])
                                 (videoParameters visualPrompt)] ++ evs).
      rewrite count_app, Hsub. unfold count. simpl. lia.
    + rewrite Htr, count_app.
      change (_ :: evs) with ([EvGenerateVideos (or_else (API_KEY w) [])
                                 (videoParameters visualPrompt)] ++ evs).
      rewrite count_app, Hsel. unfold count. simpl. lia.
Qed.

(** One attempt at the video, inside a handler that has been unfolded. *)
Ltac video_step :=
  match goal with
  | |- context [generateExplanationVideo ?f ?p ?sc (?st, ?wd)] =>
      let o := fresh "o" in
      let w1 := fresh "w" in
      let evs := fresh "evs" in
      let Hrun := fresh "Hrun" in
      let Htr := fresh "Htr" in
      destruct (generateExplanationVideo_effects sc st f p wd)
        as (o & w1 & evs & Hrun & Htr & _);
      rewrite Hrun; clear Hrun
  end.

Ltac trace_step :=
  cbn [trace snd fst selectKey record API_KEY selectCalls] in *;
  repeat match goal with
         | H : trace _ = _ |- _ => rewrite H; clear H
         end;
  cbn [trace snd fst selectKey record API_KEY selectCalls];
  rewrite <- ?app_assoc; cbn [app]; reflexivity.

(** X12. An unset credential flag never blocks a video: with a prompt and
    the flag unset, [handleGenerateVideo] first runs [handleSelectKey] and
    then submits the job whatever came of it.  If the host offers credential
    selection, the selection is opened first and the job carries the key the
    selection left; if it does not, the job is the first thing that happens
    and carries the key of the environment. *)
Theorem handleGenerateVideo_selects_before_submitting :
  forall (fuel : nat) (sc : Script) (s : AppState) (w : World)
         (visualPrompt : jsstring),
    visualPromptOf (solution s) = Some visualPrompt ->
    apiKeySelected s = false ->
    exists o s' w' evs,
      handleGenerateVideo fuel sc (s, w) = (o, (s', w'))
      /\ trace w'
         = trace w
           ++ (if openSelectKey_available sc
               then [EvOpenSelectKey;
                     EvGenerateVideos
                       (or_else (openSelectKey_key sc (selectCalls w)) [])
                       (videoParameters visualPrompt)]
               else [EvGenerateVideos (or_else (API_KEY w) [])
                       (videoParameters visualPrompt)])
           ++ evs.
Proof.
  intros fuel sc s w visualPrompt Hprompt Hflag.
  unfold handleGenerateVideo, attemptVideo, handleSelectKey.
  run_async. rewrite Hprompt, Hflag.
  destruct (openSelectKey_available sc) eqn:Havailable;
    [destruct (includes (errorMsg s) (js "API Key"))|];
    video_step; destruct o as [uri|e|];
    try (eexists _, _, _, _; split; [reflexivity|]; trace_step);
    (destruct (entityNotFound e);
     [|eexists _, _, _, _; split; [reflexivity|]; trace_step]);
    cbv beta iota; rewrite ?Havailable; cbv beta iota;
    video_step; destruct o as [uri2|e2|];
    eexists _, _, _, _; (split; [reflexivity|]); trace_step.
Qed.

Lemma handleGenerateVideo_selects_witness :
  visualPromptOf (solution (appWith false []))
  = Some (js "A ball rolling down an inclined plane")
  /\ apiKeySelected (appWith false []) = false
  /\ exists o s' w' evs,
       handleGenerateVideo 1 readyScript (appWith false [], keylessWorld)
       = (o, (s', w'))
       /\ trace w'
          = trace keylessWorld
            ++ (if openSelectKey_available readyScript
                then [EvOpenSelectKey;
                      EvGenerateVideos
                        (or_else (openSelectKey_key readyScript
                                    (selectCalls keylessWorld)) [])
                        (videoParameters
                           (js "A ball rolling down an inclined plane"))]
                else [EvGenerateVideos (or_else (API_KEY keylessWorld) [])
                        (videoParameters
                           (js "A ball rolling down an inclined plane"))])
            ++ evs.
Proof.
  split; [reflexivity|]. split; [reflexivity|].
  exact (handleGenerateVideo_selects_before_submitting 1 readyScript
           (appWith false []) keylessWorld
           (js "A ball rolling down an inclined plane") eq_refl eq_refl).
Defined.

(** ** What [JSON.stringify] writes of a list of strings, [JSON.parse]
    reads back *)

Lemma parseElements_S (f : nat) (s : jsstring) (acc : list JSON) :
  parseElements (S f) s acc
  = match parseValue f s with
    | None => None
    | Some (v, r) =>
        match skipSpace r with
        | c :: r' =>
            if c =? 44 then parseElements f r' (v :: acc)
            else if c =? 93 then Some (JArray (rev (v :: acc)), r')
            else None
        | [] => None
        end
    end.
Proof. reflexivity. Qed.

Lemma parseElements_strings (h : list jsstring) :
  forall (x : jsstring) (fuel : nat) (tail : jsstring) (acc : list JSON),
    (length h + 2 <= fuel)%nat ->
    parseElements fuel (joinComma (map quote (x :: h)) ++ 93 :: tail) acc
    = Some (JArray (rev acc ++ map JString (x :: h)), tail).
Proof.
  induction h as [|y h IH]; intros x fuel tail acc Hfuel;
    destruct fuel as [|[|f]]; try (simpl in Hfuel; lia).
  - cbn [map joinComma]. rewrite parseElements_S, parseValue_quote.
    reflexivity.
  - change (joinComma (map quote (x :: y :: h)))
      with (quote x ++ [44] ++ joinComma (map quote (y :: h))).
    rewrite <- !app_assoc.
    rewrite parseElements_S, parseValue_quote.
    change (skipSpace ([44] ++ joinComma (map quote (y :: h)) ++ 93 :: tail))
      with (44 :: joinComma (map quote (y :: h)) ++ 93 :: tail).
    change (44 =? 44) with true. cbv iota.
    rewrite IH by (simpl in Hfuel |- *; lia).
    cbn [rev map]. now rewrite <- app_assoc.
Qed.

Lemma length_joinComma_quote (h : list jsstring) :
  (length h <= length (joinComma (map quote h)))%nat.
Proof.
  induction h as [|x [|y h] IH].
  - reflexivity.
  - simpl. lia.
  - change (joinComma (map quote (x :: y :: h)))
      with (quote x ++ [44] ++ joinComma (map quote (y :: h))).
    rewrite !length_app. simpl length at 1. simpl in IH |- *. lia.
Qed.

Lemma historyJson_unfold (h : list jsstring) :
  historyJson h = 91 :: joinComma (map quote h) ++ [93].
Proof.
  unfold historyJson. cbn [JSON_stringify app]. now rewrite map_map.
Qed.

(** The text [addToHistory] stores parses to the array of its entries. *)
Lemma JSON_parse_historyJson (h : list jsstring) :
  JSON_parse (historyJson h) = Some (JArray (map JString h)).
Proof.
  rewrite historyJson_unfold. destruct h as [|x h]; [reflexivity|].
  unfold JSON_parse.
  pose proof (length_joinComma_quote (x :: h)) as Hlen.
  assert (Hhead : exists r0,
             joinComma (map quote (x :: h)) ++ [93] = 34 :: r0).
  { destruct h; cbn; eauto. }
  destruct Hhead as [r0 Hhead].
  set (text := 91 :: joinComma (map quote (x :: h)) ++ [93]).
  assert (Hfuel : (length h + 2 <= length text)%nat).
  { unfold text. cbn [length]. rewrite length_app. simpl in Hlen |- *. lia. }
  unfold text at 2.
  change (parseValue (S (length text))
            (91 :: joinComma (map quote (x :: h)) ++ [93]))
    with (match skipSpace (joinComma (map quote (x :: h)) ++ [93]) with
          | d :: r' =>
              if d =? 93 then Some (JArray [], r')
              else parseElements (length text)
                     (joinComma (map quote (x :: h)) ++ [93]) []
          | [] => None
          end).
  rewrite Hhead at 1.
  change (skipSpace (34 :: r0)) with (34 :: r0). cbv iota.
  change (34 =? 93) with false. cbv iota.
  now rewrite parseElements_strings by exact Hfuel.
Qed.

Lemma asStrings_strings (h : list jsstring) :
  asStrings (JArray (map JString h)) = h.
Proof.
  unfold asStrings. induction h as [|x h IH]; [reflexivity|].
  cbn [map flat_map app]. now rewrite IH.
Qed.

Lemma historyJson_not_empty (h : list jsstring) :
  exists c t, historyJson h = c :: t.
Proof. rewrite historyJson_unfold. eauto. Qed.

(** The effect that loads the history, on a store that holds the text of
    a history. *)
Lemma loadSearchHistory_stored sc (t : ScreenState) (w : World)
    (h : list jsstring) :
  localStorage w !! js "dolphin_search_history" = Some (historyJson h) ->
  loadSearchHistory asStrings sc (t, w)
  = (Return tt, (onApp (setSearchHistory h) t, w)).
Proof.
  intros Hstored. unfold loadSearchHistory, localStorage_getItem. run_async.
  rewrite Hstored.
  destruct (historyJson_not_empty h) as (c & rest & Hjson).
  rewrite Hjson, <- Hjson, JSON_parse_historyJson, asStrings_strings.
  reflexivity.
Qed.

(** ** The search history: storage, clearing, repeated queries *)

(** X13. The history survives a reload: after [addToHistory] has taken a
    query that is not blank, the local storage holds the text of the new
    history, and the effect that loads the history when the component
    mounts reads exactly that history back, whatever characters the queries
    contain. *)
Theorem addToHistory_survives_reload :
  forall (sc : Script) (query : jsstring) (s : AppState) (w : World)
         (t : ScreenState),
    trim query <> [] ->
    exists w',
      addToHistory query sc (s, w)
      = (Return tt,
         (setSearchHistory (newHistory (trim query) (searchHistory s)) s, w'))
      /\ localStorage w' !! js "dolphin_search_history"
         = Some (historyJson (newHistory (trim query) (searchHistory s)))
      /\ loadSearchHistory asStrings sc (t, w')
         = (Return tt,
            (onApp (setSearchHistory
                      (newHistory (trim query) (searchHistory s))) t, w')).
Proof.
  intros sc query s w t Hquery.
  exists (setItem (js "dolphin_search_history")
            (historyJson (newHistory (trim query) (searchHistory s))) w).
  assert (Hstored :
    localStorage
      (setItem (js "dolphin_search_history")
         (historyJson (newHistory (trim query) (searchHistory s))) w)
    !! js "dolphin_search_history"
    = Some (historyJson (newHistory (trim query) (searchHistory s))))
    by apply lookup_insert_eq.
  split; [|split].
  - unfold addToHistory. rewrite bool_decide_eq_false_2 by exact Hquery.
    reflexivity.
  - exact Hstored.
  - now apply loadSearchHistory_stored.
Qed.

Lemma addToHistory_survives_reload_witness :
  trim (js " why is the sky blue ") <> []
  /\ exists w',
       addToHistory (js " why is the sky blue ") silent
         (appWith true [js "tides"], keyedWorld)
       = (Return tt,
          (setSearchHistory [js "why is the sky blue"; js "tides"]
             (appWith true [js "tides"]), w'))
       /\ loadSearchHistory asStrings silent (initialScreen, w')
          = (Return tt,
             (onApp (setSearchHistory [js "why is the sky blue"; js "tides"])
                initialScreen, w')).
Proof.
  assert (Hquery : trim (js " why is the sky blue ") <> []) by discriminate.
  split; [exact Hquery|].
  destruct (addToHistory_survives_reload silent (js " why is the sky blue ")
              (appWith true [js "tides"]) keyedWorld initialScreen Hquery)
    as (w' & Hrun & _ & Hload).
  exists w'. split; [exact Hrun | exact Hload].
Defined.

(** X14. [clearHistory] empties the history and removes its entry from the
    local storage, and nothing else: the other entries of the storage stay
    and no request is made.  A reload right after it sets no history. *)
Theorem clearHistory_forgets :
  forall (sc : Script) (s : AppState) (w : World),
    exists w',
      clearHistory sc (s, w) = (Return tt, (setSearchHistory [] s, w'))
      /\ localStorage w' !! js "dolphin_search_history" = None
      /\ (forall key, key <> js "dolphin_search_history" ->
            localStorage w' !! key = localStorage w !! key)
      /\ trace w' = trace w
      /\ forall cast (t : ScreenState),
           loadSearchHistory cast sc (t, w') = (Return tt, (t, w')).
Proof.
  intros sc s w. eexists. split; [reflexivity|]. cbn [localStorage trace].
  split; [apply lookup_delete_eq|]. split; [|split; [reflexivity|]].
  - intros key Hkey. apply lookup_delete_ne. congruence.
  - intros cast t. unfold loadSearchHistory, localStorage_getItem. run_async.
    cbn [localStorage]. now rewrite lookup_delete_eq.
Qed.

Lemma filter_all (P : jsstring -> Prop) `{!forall x, Decision (P x)}
    (l : list jsstring) :
  Forall P l -> filter P l = l.
Proof.
  induction 1 as [|x l Hx Hl IH]; [reflexivity|].
  rewrite filter_cons_True by assumption. now rewrite IH.
Qed.

Lemma Forall_filter_ne (c : jsstring) (l : list jsstring) :
  Forall (fun q => q ≠ c) (filter (fun q => q ≠ c) l).
Proof.
  apply Forall_forall. intros x Hx. now apply list_elem_of_filter in Hx.
Qed.

Lemma newHistory_idempotent (c : jsstring) (h : list jsstring) :
  newHistory c (newHistory c h) = newHistory c h.
Proof.
  unfold newHistory, slice0. cbn [take].
  rewrite filter_cons_False by tauto.
  rewrite (filter_all (fun q => q ≠ c))
    by (apply Forall_take, Forall_filter_ne).
  now rewrite take_idemp.
Qed.

(** X15. Asking the same thing twice changes nothing the second time:
    two calls of [addToHistory] with one query leave the state and the
    local storage as one call does. *)
Theorem addToHistory_twice :
  forall (sc : Script) (query : jsstring) (s : AppState) (w : World),
    (addToHistory query ;; addToHistory query) sc (s, w)
    = addToHistory query sc (s, w).
Proof.
  intros sc query s w. unfold addToHistory. case_bool_decide; [reflexivity|].
  run_async. cbn [searchHistory setSearchHistory].
  rewrite newHistory_idempotent. unfold setItem. cbn [localStorage].
  rewrite insert_insert_eq. reflexivity.
Qed.

(** X16. Asking again what is in the history only moves it to the top:
    for a history without duplicates and of at most five entries, a query
    whose trimmed text is an entry leaves the same entries, with that one
    first. *)
Theorem addToHistory_known_query_reorders :
  forall (sc : Script) (query : jsstring) (s : AppState) (w : World),
    NoDup (searchHistory s) ->
    (length (searchHistory s) <= 5)%nat ->
    trim query <> [] ->
    trim query ∈ searchHistory s ->
    exists rest w',
      addToHistory query sc (s, w)
      = (Return tt, (setSearchHistory (trim query :: rest) s, w'))
      /\ trim query :: rest ≡ₚ searchHistory s
      /\ rest = filter (fun q => q ≠ trim query) (searchHistory s).
Proof.
  intros sc query s w Hnd Hlen Hquery Hin.
  destruct (addToHistory_run sc s w query) as (w' & Hrun & _).
  exists (filter (fun q => q ≠ trim query) (searchHistory s)), w'.
  assert (Hshort :
    (length (filter (fun q => q ≠ trim query) (searchHistory s)) <= 4)%nat).
  { pose proof (length_filter_lt (fun q => q ≠ trim query)
                  (searchHistory s) (trim query) Hin) as Hlt.
    assert (¬ trim query ≠ trim query) as Hnot by tauto.
    specialize (Hlt Hnot). lia. }
  split; [|split; [|reflexivity]].
  - rewrite Hrun. unfold historyAfter, newHistory, slice0.
    rewrite bool_decide_eq_false_2 by exact Hquery.
    cbn [take]. now rewrite take_ge by exact Hshort.
  - apply NoDup_Permutation.
    + constructor; [|now apply NoDup_filter].
      intros Habs. apply list_elem_of_filter in Habs. tauto.
    + exact Hnd.
    + intros x. rewrite elem_of_cons, list_elem_of_filter.
      destruct (decide (x = trim query)) as [->|Hne]; tauto.
Qed.

Lemma addToHistory_known_query_witness :
  NoDup (searchHistory (appWith true fiveQueries))
  /\ (length (searchHistory (appWith true fiveQueries)) <= 5)%nat
  /\ trim (js " c ") <> []
  /\ trim (js " c ") ∈ searchHistory (appWith true fiveQueries)
  /\ exists rest w',
       addToHistory (js " c ") silent (appWith true fiveQueries, keyedWorld)
       = (Return tt,
          (setSearchHistory (trim (js " c ") :: rest)
             (appWith true fiveQueries), w'))
       /\ trim (js " c ") :: rest ≡ₚ searchHistory (appWith true fiveQueries)
       /\ rest = filter (fun q => q ≠ trim (js " c "))
                   (searchHistory (appWith true fiveQueries)).
Proof.
  assert (H1 : NoDup (searchHistory (appWith true fiveQueries)))
    by compute_done.
  assert (H2 : (length (searchHistory (appWith true fiveQueries)) <= 5)%nat)
    by (simpl; lia).
  assert (H3 : trim (js " c ") <> []) by discriminate.
  assert (H4 : trim (js " c ") ∈ searchHistory (appWith true fiveQueries))
    by compute_done.
  split; [exact H1|]. split; [exact H2|]. split; [exact H3|].
  split; [exact H4|].
  exact (addToHistory_known_query_reorders silent (js " c ")
           (appWith true fiveQueries) keyedWorld H1 H2 H3 H4).
Defined.

(** ** The service calls and the state of the caller *)

(** [performSearch] neither reads nor writes the state of its caller, always
    settles, and leaves the local storage alone. *)
Lemma performSearch_any_state {St} (query : jsstring) sc (s : St) (w : World) :
  performSearch query sc (s, w)
  = (fst (performSearch query sc (tt, w)),
     (s, snd (snd (performSearch query sc (tt, w)))))
  /\ fst (performSearch query sc (tt, w)) <> Pending
  /\ localStorage (snd (snd (performSearch query sc (tt, w))))
     = localStorage w.
Proof.
  unfold performSearch. run_async. case_bool_decide.
  - repeat split; discriminate.
  - cbn [contentCalls record].
    destruct (generateContent_reply sc (contentCalls w)) as [e|resp].
    + repeat split; discriminate.
    + destruct (generateContent_reply sc _); repeat split; discriminate.
Qed.

(** So does [solveProblem]. *)
Lemma solveProblem_any_state {St} (imageFile : File) sc (s : St) (w : World) :
  solveProblem imageFile sc (s, w)
  = (fst (solveProblem imageFile sc (tt, w)),
     (s, snd (snd (solveProblem imageFile sc (tt, w)))))
  /\ fst (solveProblem imageFile sc (tt, w)) <> Pending
  /\ localStorage (snd (snd (solveProblem imageFile sc (tt, w))))
     = localStorage w.
Proof.
  unfold solveProblem, fileToGenerativePart. run_async. case_bool_decide.
  - repeat split; discriminate.
  - destruct (file_dataURL imageFile) as [url|].
    + cbn [contentCalls record].
      destruct (generateContent_reply sc (contentCalls w)) as [e|resp].
      * repeat split; discriminate.
      * destruct (text resp) as [[|c t]|];
          [repeat split; discriminate| |repeat split; discriminate].
        destruct (JSON_parse (c :: t)); repeat split; discriminate.
    + repeat split; discriminate.
Qed.

(** ** [executeSearch] *)

(** X17. A search for nothing does nothing: when the text to search for,
    the override if it is not empty and the input field otherwise, is blank,
    [executeSearch] changes no state and makes no request.  In particular a
    search submitted right after [closeSearch] does nothing. *)
Theorem executeSearch_blank_does_nothing :
  forall (queryOverride : option jsstring) (sc : Script) (s : ScreenState)
         (w : World),
    (trim (or_else queryOverride (searchQuery (search s))) = [] ->
     executeSearch queryOverride sc (s, w) = (Return tt, (s, w)))
    /\ (closeSearch ;; executeSearch None) sc (s, w) = closeSearch sc (s, w).
Proof.
  intros queryOverride sc s w. split.
  - intros Hblank. unfold executeSearch. run_async.
    now rewrite bool_decide_eq_true_2 by exact Hblank.
  - reflexivity.
Qed.

(** X18. With the credential flag set and a text to search for that is not
    blank, [executeSearch] always ends, with the searching indicator off,
    the text in the input field and the trimmed text at the head of the
    history and in the local storage, also when the search fails.  The
    result is the one [performSearch] returned, and then the error message
    is left as it was; when [performSearch] throws, whatever the error, the
    result is empty, the message is [Search failed. Please try again.] and
    the credential flag stays set. *)
Theorem executeSearch_outcome :
  forall (queryOverride : option jsstring) (sc : Script) (s : ScreenState)
         (w : World),
    let queryToUse := or_else queryOverride (searchQuery (search s)) in
    let history :=
      newHistory (trim queryToUse) (searchHistory (appState s)) in
    let run :=
      performSearch queryToUse sc
        (tt, setItem (js "dolphin_search_history") (historyJson history) w) in
    apiKeySelected (appState s) = true ->
    trim queryToUse <> [] ->
    exists s',
      executeSearch queryOverride sc (s, w) = (Return tt, (s', snd (snd run)))
      /\ isSearching (search s') = false
      /\ searchQuery (search s') = queryToUse
      /\ searchHistory (appState s') = history
      /\ localStorage (snd (snd run)) !! js "dolphin_search_history"
         = Some (historyJson history)
      /\ apiKeySelected (appState s') = true
      /\ match fst run with
         | Return result =>
             searchResult (search s') = Some result
             /\ errorMsg (appState s') = errorMsg (appState s)
         | _ =>
             searchResult (search s') = None
             /\ errorMsg (appState s') = js "Search failed. Please try again."
         end.
Proof.
  intros queryOverride sc s w queryToUse history run Hflag Hquery.
  destruct (performSearch_any_state queryToUse sc tt
              (setItem (js "dolphin_search_history") (historyJson history) w))
    as (_ & Hsettled & Hstorage).
  fold run in Hsettled, Hstorage.
  assert (Hstored :
    localStorage (snd (snd run)) !! js "dolphin_search_history"
    = Some (historyJson history))
    by (rewrite Hstorage; apply lookup_insert_eq).
  clear Hstorage.
  set (out := fst run) in *. set (w' := snd (snd run)) in *.
  assert (Hfield :
    searchQuery
      (search
         (if truthy queryOverride
          then onSearch (setSearchQuery (or_else queryOverride [])) s
          else s)) = queryToUse).
  { unfold queryToUse. destruct queryOverride as [[|c t]|]; reflexivity. }
  unfold executeSearch, inApp, addToHistory. run_async.
  fold queryToUse. rewrite !bool_decide_eq_false_2 by exact Hquery.
  rewrite Hflag. run_async.
  destruct (truthy queryOverride);
    cbn [appState onSearch onApp setSearchQuery searchHistory
         setSearchHistory] in *;
    fold history;
    match goal with
    | |- context [performSearch queryToUse sc (?st, ?wd)] =>
        destruct (performSearch_any_state queryToUse sc st wd)
          as (Hrun & _);
        rewrite Hrun; clear Hrun
    end;
    fold run; fold out w'; clearbody out w';
    destruct out as [result|e|]; try contradiction;
    eexists; (split; [reflexivity|]); cbn;
    repeat split; auto.
Qed.

Lemma executeSearch_outcome_witness :
  apiKeySelected (appState (screenWith true None "gravity")) = true
  /\ trim (or_else None (searchQuery (search (screenWith true None "gravity"))))
     <> []
  /\ exists s',
       fst (executeSearch None (refusing quotaError)
              (screenWith true None "gravity", keyedWorld)) = Return tt
       /\ fst (snd (executeSearch None (refusing quotaError)
                      (screenWith true None "gravity", keyedWorld))) = s'
       /\ isSearching (search s') = false
       /\ searchHistory (appState s') = [js "gravity"]
       /\ searchResult (search s') = None
       /\ errorMsg (appState s') = js "Search failed. Please try again.".
Proof.
  assert (H1 : apiKeySelected (appState (screenWith true None "gravity")) = true)
    by reflexivity.
  assert (H2 : trim (or_else None
                       (searchQuery (search (screenWith true None "gravity"))))
               <> []) by discriminate.
  split; [exact H1|]. split; [exact H2|].
  destruct (executeSearch_outcome None (refusing quotaError)
              (screenWith true None "gravity") keyedWorld H1 H2)
    as (s' & Hrun & Hsearching & _ & Hhistory & _ & _ & Hresult).
  exists s'. rewrite Hrun. split; [reflexivity|]. split; [reflexivity|].
  split; [exact Hsearching|]. split; [exact Hhistory|]. exact Hresult.
Defined.

(** ** [handleAnalyze], [handleReset] and the credential flag *)

(** X19. With a file and the credential flag set, [handleAnalyze] always
    ends, with the video reset and the file and the search left alone.  If
    [solveProblem] returns, the screen is solved, shows the value returned
    read as a solution, and has no error message.  If it throws, the screen
    is in error without a solution, the message is that of the error, or
    [Failed to analyze image. Please try again.] if it has none, and the
    credential flag is cleared exactly when the message of the error
    contains [403], [API Key] or [not found]. *)
Theorem handleAnalyze_outcome :
  forall (cast : JSON -> option SolutionData) (sc : Script) (s : ScreenState)
         (w : World) (imageFile : File),
    let run := solveProblem imageFile sc (tt, w) in
    file (upload s) = Some imageFile ->
    apiKeySelected (appState s) = true ->
    exists s',
      handleAnalyze cast sc (s, w) = (Return tt, (s', snd (snd run)))
      /\ videoStatus (appState s') = VideoIdle
      /\ videoUri (appState s') = None
      /\ upload s' = upload s
      /\ search s' = search s
      /\ match fst run with
         | Return v =>
             status s' = SOLVED
             /\ solution (appState s') = cast v
             /\ errorMsg (appState s') = []
             /\ apiKeySelected (appState s') = true
         | Throw e =>
             status s' = ERROR
             /\ solution (appState s') = None
             /\ errorMsg (appState s')
                = or_else (message e)
                    (js "Failed to analyze image. Please try again.")
             /\ apiKeySelected (appState s') = negb (keyOrAuthError e)
         | Pending => False
         end.
Proof.
  intros cast sc s w imageFile run Hfile Hflag.
  destruct (solveProblem_any_state imageFile sc tt w) as (_ & Hsettled & _).
  fold run in Hsettled.
  set (out := fst run) in *. set (w' := snd (snd run)) in *.
  unfold handleAnalyze. run_async. rewrite Hfile, Hflag. run_async.
  match goal with
  | |- context [solveProblem imageFile sc (?st, ?wd)] =>
      destruct (solveProblem_any_state imageFile sc st wd) as (Hrun & _);
      rewrite Hrun; clear Hrun
  end.
  fold run; fold out w'; clearbody out w'.
  destruct out as [v|e|]; try contradiction;
    [|destruct (keyOrAuthError e)];
    eexists; (split; [reflexivity|]); cbn; repeat split; auto.
Qed.

Lemma handleAnalyze_outcome_witness :
  file (upload (screenWith true (Some pngFile) "")) = Some pngFile
  /\ apiKeySelected (appState (screenWith true (Some pngFile) "")) = true
  /\ exists s',
       fst (snd (handleAnalyze asSolutionData (solveScript "High")
                   (screenWith true (Some pngFile) "", keyedWorld))) = s'
       /\ status s' = SOLVED
       /\ (solution (appState s') ≫= fun d => Some (confidence d))
          = Some (js "High").
Proof.
  assert (H1 : file (upload (screenWith true (Some pngFile) ""))
               = Some pngFile) by reflexivity.
  assert (H2 : apiKeySelected (appState (screenWith true (Some pngFile) ""))
               = true) by reflexivity.
  split; [exact H1|]. split; [exact H2|].
  destruct (handleAnalyze_outcome asSolutionData (solveScript "High")
              (screenWith true (Some pngFile) "") keyedWorld pngFile H1 H2)
    as (s' & Hrun & _ & _ & _ & _ & Hout).
  exists s'. rewrite Hrun. split; [reflexivity|].
  assert (Hv : fst (solveProblem pngFile (solveScript "High") (tt, keyedWorld))
               = Return (solveValue "High")) by (vm_compute; reflexivity).
  rewrite Hv in Hout. destruct Hout as (Hstatus & Hsolution & _).
  split; [exact Hstatus|]. rewrite Hsolution. vm_compute. reflexivity.
Defined.

(** X20. After [handleReset] there is nothing to analyse and nothing to
    film: [handleAnalyze] and [handleGenerateVideo] then do nothing.  The
    reset itself makes no request and keeps the credential flag, the search
    and its history, and the theme. *)
Theorem handleReset_leaves_nothing_to_do :
  forall (cast : JSON -> option SolutionData) (fuel : nat) (sc : Script)
         (s : ScreenState) (w : World),
    exists s',
      handleReset sc (s, w) = (Return tt, (s', w))
      /\ handleAnalyze cast sc (s', w) = (Return tt, (s', w))
      /\ inApp (handleGenerateVideo fuel) sc (s', w) = (Return tt, (s', w))
      /\ status s' = IDLE
      /\ errorMsg (appState s') = []
      /\ apiKeySelected (appState s') = apiKeySelected (appState s)
      /\ searchHistory (appState s') = searchHistory (appState s)
      /\ search s' = search s
      /\ theme s' = theme s.
Proof.
  intros cast fuel sc s w. eexists. split; [reflexivity|].
  repeat split; reflexivity.
Qed.

(** X21. Without a key in the environment nothing is read or sent by
    [handleAnalyze]: the screen goes to error with the message [API Key not
    found] and the credential flag is cleared.  [handleSelectKey] then, if
    the host offers a credential selection, opens it once, sets the flag
    again and clears that message. *)
Theorem handleAnalyze_missing_key_recovery :
  forall (cast : JSON -> option SolutionData) (sc : Script) (s : ScreenState)
         (w : World) (imageFile : File),
    file (upload s) = Some imageFile ->
    apiKeySelected (appState s) = true ->
    truthy (API_KEY w) = false ->
    openSelectKey_available sc = true ->
    exists s1 s2 w2,
      handleAnalyze cast sc (s, w) = (Return tt, (s1, w))
      /\ status s1 = ERROR
      /\ errorMsg (appState s1) = js "API Key not found"
      /\ apiKeySelected (appState s1) = false
      /\ inApp (handleSelectKey (appState s1)) sc (s1, w)
         = (Return tt, (s2, w2))
      /\ errorMsg (appState s2) = []
      /\ apiKeySelected (appState s2) = true
      /\ trace w2 = trace w ++ [EvOpenSelectKey]
      /\ API_KEY w2 = openSelectKey_key sc (selectCalls w).
Proof.
  intros cast sc s w imageFile Hfile Hflag Hkey Havailable.
  unfold handleAnalyze, solveProblem. run_async. rewrite Hfile, Hflag.
  rewrite (or_else_falsy _ [] Hkey). run_async.
  rewrite bool_decide_eq_true_2 by reflexivity.
  eexists _, _, _. split; [reflexivity|].
  split; [reflexivity|]. split; [reflexivity|]. split; [reflexivity|].
  unfold inApp, handleSelectKey. rewrite Havailable. run_async.
  split; [reflexivity|]. repeat split; reflexivity.
Qed.

Lemma handleAnalyze_missing_key_witness :
  file (upload (screenWith true (Some pngFile) "")) = Some pngFile
  /\ apiKeySelected (appState (screenWith true (Some pngFile) "")) = true
  /\ truthy (API_KEY keylessWorld) = false
  /\ openSelectKey_available silent = true
  /\ exists s1 s2 w2,
       handleAnalyze asSolutionData silent
         (screenWith true (Some pngFile) "", keylessWorld)
       = (Return tt, (s1, keylessWorld))
       /\ inApp (handleSelectKey (appState s1)) silent (s1, keylessWorld)
          = (Return tt, (s2, w2))
       /\ errorMsg (appState s2) = [].
Proof.
  split; [reflexivity|]. split; [reflexivity|]. split; [reflexivity|].
  split; [reflexivity|].
  destruct (handleAnalyze_missing_key_recovery asSolutionData silent
              (screenWith true (Some pngFile) "") keylessWorld pngFile
              eq_refl eq_refl eq_refl eq_refl)
    as (s1 & s2 & w2 & Hrun & _ & _ & _ & Hselect & Hmsg & _).
  exists s1, s2, w2. split; [exact Hrun|]. split; [exact Hselect|exact Hmsg].
Defined.

(** ** The language buttons of the two viewers *)

(** X22. When the translation of a solution fails, [SolutionViewer] goes
    back to English with its cache as it was and the translating indicator
    off, and shows the solution as it came; one request was made. *)
Theorem SolutionViewer_failed_translation_reverts :
  forall (data : SolutionData) (newLang : Language) (sc : Script)
         (st : ViewState) (w : World) (e : JsError),
    newLang <> English ->
    newLang <> language st ->
    truthy (translations st !! languageName newLang) = false ->
    truthy (API_KEY w) = true ->
    generateContent_reply sc (contentCalls w) = inl e ->
    exists w',
      SolutionViewer.handleLanguageChange data newLang sc (st, w)
      = (Return tt, (setIsTranslating false (setLanguage English st), w'))
      /\ SolutionViewer.contentToDisplay data
           (setIsTranslating false (setLanguage English st))
         = solutionMarkdown data
      /\ count isTranslate (trace w') = (count isTranslate (trace w) + 1)%nat.
Proof.
  intros data newLang sc st w e Hne Hchange Hmiss Hkey Hreply.
  destruct (or_else_truthy _ [] Hkey) as [_ Hfull].
  unfold SolutionViewer.handleLanguageChange, translateText. run_async.
  rewrite decide_False by exact Hchange.
  rewrite (decide_False (P := newLang = English)) by exact Hne.
  rewrite Hmiss. rewrite bool_decide_eq_false_2 by exact Hfull.
  cbn [contentCalls record]. rewrite Hreply.
  eexists. split; [reflexivity|]. split; [reflexivity|].
  cbn [trace record countContent]. rewrite count_app. reflexivity.
Qed.

Lemma SolutionViewer_failed_translation_witness :
  Hindi <> English
  /\ Hindi <> language mounted
  /\ truthy (translations mounted !! languageName Hindi) = false
  /\ truthy (API_KEY keyedWorld) = true
  /\ generateContent_reply (refusing quotaError) (contentCalls keyedWorld)
     = inl quotaError
  /\ exists w',
       SolutionViewer.handleLanguageChange (solved "**Step 1: Given**") Hindi
         (refusing quotaError) (mounted, keyedWorld)
       = (Return tt, (setIsTranslating false (setLanguage English mounted), w')).
Proof.
  assert (H1 : Hindi <> English) by discriminate.
  assert (H2 : Hindi <> language mounted) by discriminate.
  split; [exact H1|]. split; [exact H2|]. split; [reflexivity|].
  split; [reflexivity|]. split; [reflexivity|].
  destruct (SolutionViewer_failed_translation_reverts
              (solved "**Step 1: Given**") Hindi (refusing quotaError)
              mounted keyedWorld quotaError H1 H2 eq_refl eq_refl eq_refl)
    as (w' & Hrun & _).
  exists w'. exact Hrun.
Defined.

(** X23. [SearchResults] translates all or nothing.  For a result with a
    verification text and no cached translation, two requests are made, the
    text first.  If the second one fails, the translation of the text is
    thrown away with it: the view goes back to English and its cache is as
    it was.  If both succeed, both translations are cached, each under its
    key. *)
Theorem SearchResults_translates_all_or_nothing :
  forall (data : SearchResult) (newLang : Language) (sc : Script)
         (st : ViewState) (w : World) (verification : jsstring)
         (mainResponse : GenerateContentResponse),
    newLang <> English ->
    newLang <> language st ->
    truthy (translations st !! SearchResults.textKey newLang) = false ->
    truthy (API_KEY w) = true ->
    sr_verification data = Some verification ->
    verification <> [] ->
    generateContent_reply sc (contentCalls w) = inr mainResponse ->
    exists st' w',
      SearchResults.handleLanguageChange data newLang sc (st, w)
      = (Return tt, (st', w'))
      /\ count isTranslate (trace w') = (count isTranslate (trace w) + 2)%nat
      /\ match generateContent_reply sc (S (contentCalls w)) with
         | inl e => st' = setIsTranslating false (setLanguage English st)
         | inr verifyResponse =>
             st' = {| language := newLang;
                      translations :=
                        <[SearchResults.verifyKey newLang :=
                            or_else (text verifyResponse) verification]>
                          (<[SearchResults.textKey newLang :=
                               or_else (text mainResponse) (sr_text data)]>
                             (translations st));
                      isTranslating := false |}
         end.
Proof.
  intros data newLang sc st w verification mainResponse
    Hne Hchange Hmiss Hkey Hverification Hfull Hreply.
  destruct (or_else_truthy _ [] Hkey) as [_ Hkeyfull].
  destruct verification as [|c v]; [contradiction|].
  unfold SearchResults.handleLanguageChange, translateText. run_async.
  rewrite decide_False by exact Hchange.
  rewrite (decide_False (P := newLang = English)) by exact Hne.
  rewrite Hmiss, Hverification.
  rewrite !bool_decide_eq_false_2 by exact Hkeyfull.
  cbn [contentCalls record countContent API_KEY]. rewrite Hreply.
  cbv beta iota.
  rewrite !bool_decide_eq_false_2 by exact Hkeyfull.
  cbn [contentCalls record countContent API_KEY].
  destruct (generateContent_reply sc (S (contentCalls w))) as [e|verifyResponse].
  - eexists _, _. split; [reflexivity|]. split; [|reflexivity].
    cbn [trace record countContent]. rewrite !count_app.
    unfold count. simpl. lia.
  - eexists _, _. split; [reflexivity|]. split.
    + cbn [trace record countContent]. rewrite !count_app.
      unfold count. simpl. lia.
    + cbn. destruct (text verifyResponse) as [[|c' v']|]; reflexivity.
Qed.

Lemma SearchResults_all_or_nothing_witness :
  Hindi <> English
  /\ Hindi <> language mounted
  /\ truthy (translations mounted !! SearchResults.textKey Hindi) = false
  /\ truthy (API_KEY keyedWorld) = true
  /\ sr_verification answered = Some (js "Accurate.")
  /\ js "Accurate." <> []
  /\ generateContent_reply unverified (contentCalls keyedWorld)
     = inr onceCited
  /\ exists w',
       SearchResults.handleLanguageChange answered Hindi unverified
         (mounted, keyedWorld)
       = (Return tt, (setIsTranslating false (setLanguage English mounted), w')).
Proof.
  assert (H1 : Hindi <> English) by discriminate.
  assert (H2 : Hindi <> language mounted) by discriminate.
  assert (H6 : js "Accurate." <> []) by discriminate.
  split; [exact H1|]. split; [exact H2|]. split; [reflexivity|].
  split; [reflexivity|]. split; [reflexivity|]. split; [exact H6|].
  split; [reflexivity|].
  destruct (SearchResults_translates_all_or_nothing answered Hindi unverified
              mounted keyedWorld (js "Accurate.") onceCited
              H1 H2 eq_refl eq_refl eq_refl H6 eq_refl)
    as (st' & w' & Hrun & _ & Hstate).
  exists w'. rewrite Hrun. change (st' = setIsTranslating false
                                            (setLanguage English mounted))
    in Hstate.
  now rewrite Hstate.
Defined.

(** A press of a language other than English that leaves the view in that
    language has left a translation of the text in the cache, and that
    translation is not empty when the text is not. *)
Lemma SearchResults_translated_is_cached (data : SearchResult)
    (newLang : Language) (sc : Script) (st : ViewState) (w : World) :
  newLang <> English ->
  newLang <> language st ->
  truthy (translations st !! SearchResults.textKey newLang) = false ->
  sr_text data <> [] ->
  exists st' w',
    SearchResults.handleLanguageChange data newLang sc (st, w)
    = (Return tt, (st', w'))
    /\ (language st' = newLang ->
        exists translated,
          translations st' !! SearchResults.textKey newLang = Some translated
          /\ translated <> []).
Proof.
  intros Hne Hchange Hmiss Htext.
  assert (Hkeys : SearchResults.verifyKey newLang
                  <> SearchResults.textKey newLang)
    by (destruct newLang; discriminate).
  assert (Hmain : forall t : option jsstring, or_else t (sr_text data) <> []).
  { intros [[|c t]|]; simpl; [assumption|discriminate|assumption]. }
  unfold SearchResults.handleLanguageChange, translateText. run_async.
  rewrite decide_False by exact Hchange.
  rewrite (decide_False (P := newLang = English)) by exact Hne.
  rewrite Hmiss. case_bool_decide.
  { eexists _, _. split; [reflexivity|]. cbn. congruence. }
  cbn [contentCalls record countContent API_KEY].
  destruct (generateContent_reply sc (contentCalls w)) as [e|mainResponse].
  { eexists _, _. split; [reflexivity|]. cbn. congruence. }
  cbv beta iota.
  destruct (sr_verification data) as [[|c v]|].
  - eexists _, _. split; [reflexivity|]. cbn. intros _.
    eexists. split; [apply lookup_insert_eq | apply Hmain].
  - case_bool_decide; [contradiction|].
    cbn [contentCalls record countContent API_KEY].
    destruct (generateContent_reply sc (S (contentCalls w)))
      as [e|verifyResponse].
    + eexists _, _. split; [reflexivity|]. cbn. congruence.
    + eexists _, _. split; [reflexivity|]. cbn. intros _.
      destruct (or_else (text verifyResponse) (c :: v)).
      * eexists. split; [apply lookup_insert_eq | apply Hmain].
      * eexists. split; [|apply Hmain].
        rewrite lookup_insert_ne by exact Hkeys. apply lookup_insert_eq.
  - eexists _, _. split; [reflexivity|]. cbn. intros _.
    eexists. split; [apply lookup_insert_eq | apply Hmain].
Qed.

(** X24. A translated search result is translated once.  For a result
    whose text is not empty, as the results of [performSearch] are, a press
    that ends in the other language, followed by English and by that
    language again, leaves the view and the requests made exactly as the
    first press left them: the second visit is served from the cache. *)
Theorem SearchResults_translation_is_reused :
  forall (data : SearchResult) (newLang : Language) (sc : Script)
         (st : ViewState) (w : World),
    newLang <> English ->
    language st = English ->
    truthy (translations st !! SearchResults.textKey newLang) = false ->
    sr_text data <> [] ->
    language
      (fst (snd (SearchResults.handleLanguageChange data newLang sc (st, w))))
    = newLang ->
    presses (SearchResults.handleLanguageChange data)
      [newLang; English; newLang] sc (st, w)
    = SearchResults.handleLanguageChange data newLang sc (st, w).
Proof.
  intros data newLang sc st w Hne Henglish Hmiss Htext Hdone.
  assert (Hchange : newLang <> language st) by congruence.
  destruct (SearchResults_translated_is_cached data newLang sc st w
              Hne Hchange Hmiss Htext) as (st' & w' & Hrun & Hcached).
  rewrite Hrun in Hdone |- *. cbn [fst snd] in Hdone.
  destruct (Hcached Hdone) as (translated & Hlookup & Hfull).
  cbn [presses]. unfold bind at 1. rewrite Hrun.
  unfold bind at 1.
  assert (Hback :
    SearchResults.handleLanguageChange data English sc (st', w')
    = (Return tt, (setLanguage English st', w'))).
  { unfold SearchResults.handleLanguageChange. run_async.
    rewrite decide_False by congruence.
    now rewrite (decide_True (P := English = English)) by reflexivity. }
  rewrite Hback. unfold bind at 1.
  destruct (SearchResults_cache_hit data newLang sc (setLanguage English st')
              w' translated Hne) as (Hagain & _);
    [cbn; congruence | exact Hlookup | exact Hfull |].
  rewrite Hagain. unfold ret. destruct st' as [l tr busy].
  cbn in Hdone |- *. now subst l.
Qed.

Lemma SearchResults_translation_is_reused_witness :
  Hindi <> English
  /\ language mounted = English
  /\ truthy (translations mounted !! SearchResults.textKey Hindi) = false
  /\ sr_text answered <> []
  /\ language
       (fst (snd (SearchResults.handleLanguageChange answered Hindi
                    twiceCitedScript (mounted, keyedWorld)))) = Hindi
  /\ presses (SearchResults.handleLanguageChange answered)
       [Hindi; English; Hindi] twiceCitedScript (mounted, keyedWorld)
     = SearchResults.handleLanguageChange answered Hindi twiceCitedScript
         (mounted, keyedWorld).
Proof.
  assert (H1 : Hindi <> English) by discriminate.
  assert (H4 : sr_text answered <> []) by discriminate.
  assert (H5 : language
                 (fst (snd (SearchResults.handleLanguageChange answered Hindi
                              twiceCitedScript (mounted, keyedWorld))))
               = Hindi) by (vm_compute; reflexivity).
  split; [exact H1|]. split; [reflexivity|]. split; [reflexivity|].
  split; [exact H4|]. split; [exact H5|].
  exact (SearchResults_translation_is_reused answered Hindi twiceCitedScript
           mounted keyedWorld H1 eq_refl eq_refl H4 H5).
Defined.

(** ** The theme *)

(** X25. The theme chosen survives a reload.  [toggleTheme] switches the
    mode, keeps the class [dark] of the document in step with it, and
    stores the choice without touching the stored history; the effect that
    sets the theme when the component mounts then restores that mode,
    whatever the system prefers.  Only when nothing is stored does the
    preference of the system decide. *)
Theorem toggleTheme_survives_reload :
  forall (sc : Script) (s : ScreenState) (w : World),
    exists s' w',
      toggleTheme sc (s, w) = (Return tt, (s', w'))
      /\ isDarkMode (theme s') = negb (isDarkMode (theme s))
      /\ darkClass (theme s') = isDarkMode (theme s')
      /\ trace w' = trace w
      /\ localStorage w' !! js "dolphin_search_history"
         = localStorage w !! js "dolphin_search_history"
      /\ (forall (prefersDark : bool) (t : ScreenState),
            initTheme prefersDark sc (t, w')
            = (Return tt,
               (onTheme (applyTheme (isDarkMode (theme s'))) t, w')))
      /\ (forall (prefersDark : bool) (t : ScreenState),
            localStorage w !! js "color-theme" = None ->
            initTheme prefersDark sc (t, w)
            = (Return tt, (onTheme (applyTheme prefersDark) t, w))).
Proof.
  intros sc s w. unfold toggleTheme, initTheme, localStorage_getItem.
  run_async.
  destruct (isDarkMode (theme s)); cbn [negb];
    eexists _, _; (split; [reflexivity|]);
    cbn [theme onTheme applyTheme isDarkMode darkClass trace setItem
         localStorage negb];
    (split; [reflexivity|]); (split; [reflexivity|]); (split; [reflexivity|]);
    (split; [apply lookup_insert_ne; discriminate|]);
    (split; [intros prefersDark t; rewrite lookup_insert_eq; reflexivity|]);
    intros prefersDark t Hnone; rewrite Hnone; reflexivity.
Qed.

(** ** Choosing and cropping a file *)

(** X26. An image reaches the analysis only through the cropper.  Choosing
    a readable image opens the cropper on its data URL and leaves the file
    to analyse as it was; cancelling the crop then restores the upload state
    there was, and completing it makes the cropped file the file to analyse
    and closes the cropper.  A file that is not an image is taken as it is,
    without being read. *)
Theorem handleFileSelect_image_goes_through_cropper :
  forall (sc : Script) (s : ScreenState) (w : World) (selectedFile : File),
    (forall url,
        startsWith (file_type selectedFile) (js "image/") = true ->
        file_dataURL selectedFile = Some url ->
        exists s' w',
          handleFileSelect selectedFile sc (s, w) = (Return tt, (s', w'))
          /\ file (upload s') = file (upload s)
          /\ croppingSrc (upload s') = Some url
          /\ trace w' = trace w ++ [EvReadAsDataURL selectedFile]
          /\ (croppingSrc (upload s) = None ->
              handleCropCancel sc (s', w') = (Return tt, (s, w')))
          /\ (forall croppedFile,
                handleCropComplete croppedFile sc (s', w')
                = (Return tt,
                   (onUpload (fun _ => {| file := Some croppedFile;
                                          croppingSrc := None |}) s, w'))))
    /\ (startsWith (file_type selectedFile) (js "image/") = true ->
        file_dataURL selectedFile = None ->
        exists w',
          handleFileSelect selectedFile sc (s, w) = (Return tt, (s, w')))
    /\ (startsWith (file_type selectedFile) (js "image/") = false ->
        handleFileSelect selectedFile sc (s, w)
        = (Return tt, (onUpload (setFile (Some selectedFile)) s, w))).
Proof.
  intros sc s w selectedFile. unfold handleFileSelect. split; [|split].
  - intros url Himage Hurl. rewrite Himage. run_async. rewrite Hurl.
    eexists _, _. split; [reflexivity|].
    split; [reflexivity|]. split; [reflexivity|]. split; [reflexivity|].
    split; [|reflexivity].
    intros Hclosed. destruct s as [a st [f src] q th]. cbn in Hclosed.
    subst src. reflexivity.
  - intros Himage Hurl. rewrite Himage. run_async. rewrite Hurl.
    eexists. reflexivity.
  - intros Hother. rewrite Hother. reflexivity.
Qed.

Lemma handleFileSelect_image_witness :
  startsWith (file_type pngFile) (js "image/") = true
  /\ file_dataURL pngFile = Some (js "data:image/png;base64,iVBORw0KGgo=")
  /\ exists s' w',
       handleFileSelect pngFile silent (screenWith true None "", keyedWorld)
       = (Return tt, (s', w'))
       /\ file (upload s') = None
       /\ handleCropCancel silent (s', w')
          = (Return tt, (screenWith true None "", w')).
Proof.
  split; [reflexivity|]. split; [reflexivity|].
  destruct (proj1 (handleFileSelect_image_goes_through_cropper silent
                     (screenWith true None "") keyedWorld pngFile)
              (js "data:image/png;base64,iVBORw0KGgo=") eq_refl eq_refl)
    as (s' & w' & Hrun & Hfile & _ & _ & Hcancel & _).
  exists s', w'. split; [exact Hrun|]. split; [exact Hfile|].
  exact (Hcancel eq_refl).
Defined.

(** ** The stored history when it cannot be read *)

(** X27. A stored history that is missing, empty, or not JSON is ignored
    when the component mounts: the effect neither throws nor changes any
    state, whatever the reading of parsed values is. *)
Theorem loadSearchHistory_ignores_bad_storage :
  forall (cast : JSON -> list jsstring) (sc : Script) (t : ScreenState)
         (w : World),
    (truthy (localStorage w !! js "dolphin_search_history") = false
     \/ exists saved,
          localStorage w !! js "dolphin_search_history" = Some saved
          /\ JSON_parse saved = None) ->
    loadSearchHistory cast sc (t, w) = (Return tt, (t, w)).
Proof.
  intros cast sc t w Hbad.
  unfold loadSearchHistory, localStorage_getItem. run_async.
  destruct Hbad as [Hfalsy|(saved & Hsaved & Hparse)].
  - destruct (localStorage w !! js "dolphin_search_history") as [[|c r]|];
      [reflexivity|discriminate|reflexivity].
  - rewrite Hsaved. destruct saved as [|c r]; [reflexivity|].
    now rewrite Hparse.
Qed.

Lemma loadSearchHistory_bad_storage_witness :
  (truthy (localStorage
             (setItem (js "dolphin_search_history") (js "[oops") keyedWorld)
           !! js "dolphin_search_history") = false
   \/ exists saved,
        localStorage
          (setItem (js "dolphin_search_history") (js "[oops") keyedWorld)
        !! js "dolphin_search_history" = Some saved
        /\ JSON_parse saved = None)
  /\ loadSearchHistory asStrings silent
       (initialScreen,
        setItem (js "dolphin_search_history") (js "[oops") keyedWorld)
     = (Return tt,
        (initialScreen,
         setItem (js "dolphin_search_history") (js "[oops") keyedWorld)).
Proof.
  assert (Hbad :
    truthy (localStorage
              (setItem (js "dolphin_search_history") (js "[oops") keyedWorld)
            !! js "dolphin_search_history") = false
    \/ exists saved,
         localStorage
           (setItem (js "dolphin_search_history") (js "[oops") keyedWorld)
         !! js "dolphin_search_history" = Some saved
         /\ JSON_parse saved = None).
  { right. exists (js "[oops"). split; [apply lookup_insert_eq|].
    vm_compute. reflexivity. }
  split; [exact Hbad|].
  exact (loadSearchHistory_ignores_bad_storage asStrings silent initialScreen
           _ Hbad).
Defined.

Lemma executeSearch_blank_witness :
  trim (or_else (Some (js "   "))
          (searchQuery (search (screenWith true None "gravity")))) = []
  /\ executeSearch (Some (js "   ")) twiceCitedScript
       (screenWith true None "gravity", keyedWorld)
     = (Return tt, (screenWith true None "gravity", keyedWorld)).
Proof.
  split; [reflexivity|].
  exact (proj1 (executeSearch_blank_does_nothing (Some (js "   "))
                  twiceCitedScript (screenWith true None "gravity")
                  keyedWorld) eq_refl).
Defined.

Lemma handleGenerateVideo_success_witness :
  visualPromptOf (solution (appWith true []))
  = Some (js "A ball rolling down an inclined plane")
  /\ apiKeySelected (appWith true []) = true
  /\ fst (generateExplanationVideo 1
            (js "A ball rolling down an inclined plane") readyScript
            (setVideoStatus VideoGenerating (appWith true []), keyedWorld))
     = Return (js "https://v.example/1?alt=media&key=k3y")
  /\ fst (handleGenerateVideo 1 readyScript (appWith true [], keyedWorld))
     = Return tt
  /\ videoUri (fst (snd (handleGenerateVideo 1 readyScript
                           (appWith true [], keyedWorld))))
     = Some (js "https://v.example/1?alt=media&key=k3y").
Proof.
  assert (H3 : fst (generateExplanationVideo 1
                      (js "A ball rolling down an inclined plane") readyScript
                      (setVideoStatus VideoGenerating (appWith true []),
                       keyedWorld))
               = Return (js "https://v.example/1?alt=media&key=k3y"))
    by (vm_compute; reflexivity).
  split; [reflexivity|]. split; [reflexivity|]. split; [exact H3|].
  destruct (proj2 (handleGenerateVideo_guard_and_success 1 readyScript
                     (appWith true []) keyedWorld)
              _ _ eq_refl eq_refl H3) as (Hrun & _).
  rewrite Hrun. split; reflexivity.
Defined.

Lemma translateText_result_witness :
  translateText (js "force") (js "Hindi") emptyTranslation (tt, keyedWorld)
  = (Return (js "force"),
     snd (translateText (js "force") (js "Hindi") emptyTranslation
            (tt, keyedWorld)))
  /\ js "force" <> [].
Proof.
  assert (Hrun :
    translateText (js "force") (js "Hindi") emptyTranslation (tt, keyedWorld)
    = (Return (js "force"),
       snd (translateText (js "force") (js "Hindi") emptyTranslation
              (tt, keyedWorld)))) by (vm_compute; reflexivity).
  split; [exact Hrun|].
  destruct (proj1 (translateText_result unit (js "force") (js "Hindi")
                     emptyTranslation tt keyedWorld) _ _ Hrun)
    as (Hfull & _).
  apply Hfull. discriminate.
Defined.

Lemma uniqueSources_idempotent_witness :
  NoDup (map uri [source "https://a.example" "A";
                  source "https://b.example" "B"])
  /\ uniqueSources [source "https://a.example" "A";
                    source "https://b.example" "B"]
     = [source "https://a.example" "A"; source "https://b.example" "B"].
Proof.
  assert (Hdistinct :
    NoDup (map uri [source "https://a.example" "A";
                    source "https://b.example" "B"])) by compute_done.
  split; [exact Hdistinct|].
  destruct (uniqueSources_idempotent
              [source "https://a.example" "A"; source "https://b.example" "B"])
    as (_ & Hsame & _).
  exact (Hsame Hdistinct).
Defined.

(** ** The cache of [SolutionViewer] for a solution that is not empty *)

Lemma SolutionViewer_translated_is_cached (data : SolutionData)
    (newLang : Language) (sc : Script) (st : ViewState) (w : World) :
  newLang <> English ->
  newLang <> language st ->
  truthy (translations st !! languageName newLang) = false ->
  solutionMarkdown data <> [] ->
  exists st' w',
    SolutionViewer.handleLanguageChange data newLang sc (st, w)
    = (Return tt, (st', w'))
    /\ (language st' = newLang ->
        exists translated,
          translations st' !! languageName newLang = Some translated
          /\ translated <> []).
Proof.
  intros Hne Hchange Hmiss Htext.
  assert (Hmain : forall t : option jsstring,
             or_else t (solutionMarkdown data) <> []).
  { intros [[|c t]|]; simpl; [assumption|discriminate|assumption]. }
  unfold SolutionViewer.handleLanguageChange, translateText. run_async.
  rewrite decide_False by exact Hchange.
  rewrite (decide_False (P := newLang = English)) by exact Hne.
  rewrite Hmiss. case_bool_decide.
  { eexists _, _. split; [reflexivity|]. cbn. congruence. }
  cbn [contentCalls record countContent API_KEY].
  destruct (generateContent_reply sc (contentCalls w)) as [e|response].
  { eexists _, _. split; [reflexivity|]. cbn. congruence. }
  eexists _, _. split; [reflexivity|]. cbn. intros _.
  eexists. split; [apply lookup_insert_eq | apply Hmain].
Qed.

(** X28. A translated solution is translated once.  For a solution whose
    text is not empty, a press that ends in the other language, followed by
    English and by that language again, leaves the view and the requests
    made exactly as the first press left them. *)
Theorem SolutionViewer_translation_is_reused :
  forall (data : SolutionData) (newLang : Language) (sc : Script)
         (st : ViewState) (w : World),
    newLang <> English ->
    language st = English ->
    truthy (translations st !! languageName newLang) = false ->
    solutionMarkdown data <> [] ->
    language
      (fst (snd (SolutionViewer.handleLanguageChange data newLang sc (st, w))))
    = newLang ->
    presses (SolutionViewer.handleLanguageChange data)
      [newLang; English; newLang] sc (st, w)
    = SolutionViewer.handleLanguageChange data newLang sc (st, w).
Proof.
  intros data newLang sc st w Hne Henglish Hmiss Htext Hdone.
  assert (Hchange : newLang <> language st) by congruence.
  destruct (SolutionViewer_translated_is_cached data newLang sc st w
              Hne Hchange Hmiss Htext) as (st' & w' & Hrun & Hcached).
  rewrite Hrun in Hdone |- *. cbn [fst snd] in Hdone.
  destruct (Hcached Hdone) as (translated & Hlookup & Hfull).
  cbn [presses]. unfold bind at 1. rewrite Hrun.
  unfold bind at 1.
  assert (Hback :
    SolutionViewer.handleLanguageChange data English sc (st', w')
    = (Return tt, (setLanguage English st', w'))).
  { unfold SolutionViewer.handleLanguageChange. run_async.
    rewrite decide_False by congruence.
    now rewrite (decide_True (P := English = English)) by reflexivity. }
  rewrite Hback. unfold bind at 1.
  destruct (SolutionViewer_cache_hit data newLang sc (setLanguage English st')
              w' translated Hne) as (Hagain & _);
    [cbn; congruence | exact Hlookup | exact Hfull |].
  rewrite Hagain. unfold ret. destruct st' as [l tr busy].
  cbn in Hdone |- *. now subst l.
Qed.

Lemma SolutionViewer_translation_is_reused_witness :
  Hindi <> English
  /\ language mounted = English
  /\ truthy (translations mounted !! languageName Hindi) = false
  /\ solutionMarkdown (solved "**Step 1: Given**") <> []
  /\ language
       (fst (snd (SolutionViewer.handleLanguageChange
                    (solved "**Step 1: Given**") Hindi emptyTranslation
                    (mounted, keyedWorld)))) = Hindi
  /\ presses (SolutionViewer.handleLanguageChange (solved "**Step 1: Given**"))
       [Hindi; English; Hindi] emptyTranslation (mounted, keyedWorld)
     = SolutionViewer.handleLanguageChange (solved "**Step 1: Given**") Hindi
         emptyTranslation (mounted, keyedWorld).
Proof.
  assert (H1 : Hindi <> English) by discriminate.
  assert (H4 : solutionMarkdown (solved "**Step 1: Given**") <> [])
    by discriminate.
  assert (H5 : language
                 (fst (snd (SolutionViewer.handleLanguageChange
                              (solved "**Step 1: Given**") Hindi
                              emptyTranslation (mounted, keyedWorld))))
               = Hindi) by (vm_compute; reflexivity).
  split; [exact H1|]. split; [reflexivity|]. split; [reflexivity|].
  split; [exact H4|]. split; [exact H5|].
  exact (SolutionViewer_translation_is_reused (solved "**Step 1: Given**")
           Hindi emptyTranslation mounted keyedWorld H1 eq_refl eq_refl H4 H5).
Defined.

(** ** Search suggestions *)

(** X29. A click on a suggestion searches nothing by itself: it fills the
    input field, opens the search and empties the result, without a request
    and without touching the history.  Submitting the form after it is the
    same as a search for the topic given as an override. *)
Theorem handleSearchSuggestionClick_then_submit :
  forall (topic : jsstring) (sc : Script) (s : ScreenState) (w : World),
    (exists s',
        handleSearchSuggestionClick topic sc (s, w) = (Return tt, (s', w))
        /\ searchQuery (search s') = topic
        /\ isSearchOpen (search s') = true
        /\ searchResult (search s') = None
        /\ isSearching (search s') = isSearching (search s)
        /\ appState s' = appState s)
    /\ (handleSearchSuggestionClick topic ;; executeSearch None) sc (s, w)
       = (handleSearchSuggestionClick topic ;; executeSearch (Some topic)) sc
           (s, w).
Proof.
  intros topic sc s w. split.
  - eexists. split; [reflexivity|]. repeat split; reflexivity.
  - destruct topic as [|c t]; [reflexivity|].
    unfold handleSearchSuggestionClick, executeSearch, inApp, handleSelectKey.
    run_async.
    cbn [search onSearch setSearchQuery setSearchResult setIsSearchOpen
         searchQuery or_else truthy appState].
    case_bool_decide; [reflexivity|].
    destruct (apiKeySelected (appState s)); [reflexivity|].
    destruct (openSelectKey_available sc); [|reflexivity].
    destruct (includes (errorMsg (appState s)) (js "API Key")); reflexivity.
Qed.
